(** * CTA evaluation system: the LLM-mediated analysis pipeline

    A shallow embedding of the Python modules [modules/llm_interface.py],
    [modules/risk_analyzer.py], [modules/cognate_aligner.py],
    [modules/pce_analyzer.py] and [modules/transliterator.py], and the
    properties of the response extractor, the validators, the statistics
    aggregators and the task entry points.

    Conventions of the embedding.
    - A Python [str] is a list of Unicode code points ([pystr]).  [len],
      iteration and [in] on characters work on code points, as in Python.
    - A Python value (what [json.loads] returns, what the modules build) is a
      [pyval]; a [dict] is an association list in insertion order with
      distinct keys.
    - A finite [float] is represented by the rational it denotes; rounding to
      binary64 is not modelled, the two zeros are identified, and no theorem
      depends on either.
    - A function that may raise returns a [res]; a function that mutates its
      argument returns the argument's final state next to its result. *)

From Stdlib Require Import Ascii String.
From Stdlib Require Import List ZArith NArith QArith Qabs Bool Lia.
Import ListNotations.
Set Warnings "-register-all".
Open Scope Z_scope.

(** ** Python strings *)

Module PyStr.

Definition char := N.
Definition pystr := list char.

(** [lit] writes an ASCII literal of the source; other characters are given by
    code point. *)
Definition lit (s : string) : pystr :=
  map N_of_ascii (list_ascii_of_string s).

(** [jlit] writes a JSON text with an apostrophe standing for the double
    quote. *)
Definition jlit (s : string) : pystr :=
  map (fun c => if N.eqb c 39 then 34%N else c) (lit s).

Definition str_eqb (a b : pystr) : bool :=
  if list_eq_dec N.eq_dec a b then true else false.

(** [Py_UNICODE_ISSPACE]: the characters [str.strip()] removes and the [\s]
    class of [re] matches on [str] patterns. *)
Definition is_space (c : char) : bool :=
  ((9 <=? c) && (c <=? 13) || (28 <=? c) && (c <=? 32)
   || (c =? 133) || (c =? 160) || (c =? 5760)
   || (8192 <=? c) && (c <=? 8202)
   || (c =? 8232) || (c =? 8233) || (c =? 8239) || (c =? 8287)
   || (c =? 12288))%N.

Fixpoint lstrip (s : pystr) : pystr :=
  match s with
  | c :: s' => if is_space c then lstrip s' else s
  | [] => []
  end.

Definition rstrip (s : pystr) : pystr := rev (lstrip (rev s)).

(** [s.strip()] *)
Definition strip (s : pystr) : pystr := rstrip (lstrip s).

(** [s.startswith(p)] *)
Fixpoint startswith (p s : pystr) : bool :=
  match p, s with
  | [], _ => true
  | a :: p', b :: s' => N.eqb a b && startswith p' s'
  | _ :: _, [] => false
  end.

(** [s.endswith(p)] *)
Definition endswith (p s : pystr) : bool := startswith (rev p) (rev s).

(** [sub in s] *)
Fixpoint contains (sub s : pystr) : bool :=
  startswith sub s
  || match s with
     | [] => false
     | _ :: s' => contains sub s'
     end.

(** The scanners below walk the string once; [skip] counts the characters of
    a separator just matched that are still to be passed over, so that
    occurrences are taken left to right without overlap, as CPython does. *)

(** [s.split(sep)] for a non-empty [sep]. *)
Fixpoint split_from (sep : pystr) (skip : nat) (cur : pystr) (s : pystr)
  : list pystr :=
  match s with
  | [] => [rev cur]
  | c :: s' =>
      match skip with
      | S k => split_from sep k cur s'
      | O =>
          if startswith sep s
          then rev cur :: split_from sep (length sep - 1) [] s'
          else split_from sep 0 (c :: cur) s'
      end
  end.

Definition split (sep s : pystr) : list pystr := split_from sep 0 [] s.

(** [s.replace(old, new)] for a non-empty [old]. *)
Fixpoint replace_from (old new : pystr) (skip : nat) (s : pystr) : pystr :=
  match s with
  | [] => []
  | c :: s' =>
      match skip with
      | S k => replace_from old new k s'
      | O =>
          if startswith old s
          then new ++ replace_from old new (length old - 1) s'
          else c :: replace_from old new 0 s'
      end
  end.

Definition replace (old new s : pystr) : pystr := replace_from old new 0 s.

(** [s.count(sub)]; with an empty [sub] Python answers [len(s) + 1]. *)
Fixpoint count_from (sub : pystr) (skip : nat) (s : pystr) : Z :=
  match s with
  | [] => 0
  | _ :: s' =>
      match skip with
      | S k => count_from sub k s'
      | O =>
          if startswith sub s
          then 1 + count_from sub (length sub - 1) s'
          else count_from sub 0 s'
      end
  end.

Definition count (sub s : pystr) : Z :=
  match sub with
  | [] => Z.of_nat (length s) + 1
  | _ => count_from sub 0 s
  end.

(** [sep.join(parts)] *)
Fixpoint join (sep : pystr) (parts : list pystr) : pystr :=
  match parts with
  | [] => []
  | [p] => p
  | p :: rest => p ++ sep ++ join sep rest
  end.

(** [s.lower()] and [s.upper()] follow the Unicode case tables of the
    interpreter, which the embedding takes as parameters (see [runtime]).
    [cta_lower] and [cta_upper] are their restriction to ASCII and the letters
    of the CTA alphabet, every other character left as it is; they keep the
    two special cases of Python among these letters: the lower case of U+0130
    is [i] followed by U+0307, and the upper case of U+0131 is [I]. *)
Definition cta_case_pairs : list (char * char) :=
  [(199, 231); (286, 287); (209, 241); (210, 242); (214, 246); (350, 351);
   (220, 252); (196, 228); (219, 251); (399, 601); (194, 226); (206, 238);
   (212, 244)]%N.

Fixpoint assoc_fwd (c : char) (l : list (char * char)) : option char :=
  match l with
  | [] => None
  | (u, d) :: l' => if N.eqb c u then Some d else assoc_fwd c l'
  end.

Fixpoint assoc_bwd (c : char) (l : list (char * char)) : option char :=
  match l with
  | [] => None
  | (u, d) :: l' => if N.eqb c d then Some u else assoc_bwd c l'
  end.

Definition lower_char (c : char) : pystr :=
  if ((65 <=? c) && (c <=? 90))%N then [(c + 32)%N]
  else if N.eqb c 304 then [105; 775]%N
  else match assoc_fwd c cta_case_pairs with
       | Some d => [d]
       | None => [c]
       end.

Definition upper_char (c : char) : pystr :=
  if ((97 <=? c) && (c <=? 122))%N then [(c - 32)%N]
  else if N.eqb c 305 then [73%N]
  else match assoc_bwd c cta_case_pairs with
       | Some u => [u]
       | None => [c]
       end.

Definition cta_lower (s : pystr) : pystr := flat_map lower_char s.
Definition cta_upper (s : pystr) : pystr := flat_map upper_char s.

(** [str(n)] for an [int]. *)
Definition digit_char (d : Z) : char := Z.to_N (48 + d).

Fixpoint digits_of (fuel : nat) (n : Z) (acc : pystr) : pystr :=
  match fuel with
  | O => acc
  | S f =>
      let acc' := digit_char (n mod 10) :: acc in
      if n / 10 =? 0 then acc' else digits_of f (n / 10) acc'
  end.

Definition str_of_int (n : Z) : pystr :=
  if n <? 0 then 45%N :: digits_of (Z.to_nat (Z.log2 (- n)) + 1) (- n) []
  else digits_of (Z.to_nat (Z.log2 n) + 1) n [].

End PyStr.
Import PyStr.

(** ** Python values *)

Module PyVal.

(** A [float]: not-a-number, an infinity, or a finite value given by the
    rational it denotes (kept in lowest terms). *)
Inductive pyfloat :=
| FNan
| FInf (negative : bool)
| FFin (q : Q).

Inductive pyval :=
| PNone
| PBool (b : bool)
| PInt (z : Z)
| PFloat (f : pyfloat)
| PStr (s : pystr)
| PList (l : list pyval)
| PTuple (l : list pyval)
| PSet (l : list pyval)
| PDict (d : list (pystr * pyval)).

Definition pydict := list (pystr * pyval).

(** Exceptions.  [Raised c msg] is [raise C(msg)] written in the repository;
    [Interp c site] is an exception of class [c] raised by the interpreter or
    by a library, [site] naming the operation or the offending text. *)
Inductive exn_class :=
| CJSONDecodeError | CValueError | CTypeError | CAttributeError
| CKeyError | CIndexError | COverflowError | CRecursionError | CException.

Inductive exn :=
| Raised (c : exn_class) (msg : pystr)
| Interp (c : exn_class) (site : pystr).

Definition class_of (e : exn) : exn_class :=
  match e with Raised c _ | Interp c _ => c end.

Inductive res (A : Type) :=
| Ok (a : A)
| Raise (e : exn).
Arguments Ok {A} a.
Arguments Raise {A} e.

Definition bind {A B} (m : res A) (k : A -> res B) : res B :=
  match m with
  | Ok a => k a
  | Raise e => Raise e
  end.

Notation "x <- m ;; k" := (bind m (fun x => k))
  (at level 100, m at next level, right associativity).

(** *** dict *)

Fixpoint dict_get (k : pystr) (d : pydict) : option pyval :=
  match d with
  | [] => None
  | (k', v) :: d' => if str_eqb k k' then Some v else dict_get k d'
  end.

(** [k in d] *)
Definition dict_has (k : pystr) (d : pydict) : bool :=
  match dict_get k d with Some _ => true | None => false end.

(** [d.get(k, default)] *)
Definition dict_get_or (k : pystr) (default : pyval) (d : pydict) : pyval :=
  match dict_get k d with Some v => v | None => default end.

(** [d[k] = v]: an existing key keeps its place, a new one goes last. *)
Fixpoint dict_set (k : pystr) (v : pyval) (d : pydict) : pydict :=
  match d with
  | [] => [(k, v)]
  | (k', v') :: d' =>
      if str_eqb k k' then (k, v) :: d' else (k', v') :: dict_set k v d'
  end.

(** [dict(pairs)] *)
Definition dict_of_pairs (pairs : list (pystr * pyval)) : pydict :=
  fold_left (fun d kv => dict_set (fst kv) (snd kv) d) pairs [].

(** *** truth value and type name *)

Definition q_is_zero (q : Q) : bool := (Qnum q =? 0).

Definition truthy (v : pyval) : bool :=
  match v with
  | PNone => false
  | PBool b => b
  | PInt z => negb (z =? 0)
  | PFloat (FFin q) => negb (q_is_zero q)
  | PFloat _ => true
  | PStr s => match s with [] => false | _ => true end
  | PList l | PTuple l | PSet l => match l with [] => false | _ => true end
  | PDict d => match d with [] => false | _ => true end
  end.

Definition type_name (v : pyval) : pystr :=
  match v with
  | PNone => lit "NoneType"
  | PBool _ => lit "bool"
  | PInt _ => lit "int"
  | PFloat _ => lit "float"
  | PStr _ => lit "str"
  | PList _ => lit "list"
  | PTuple _ => lit "tuple"
  | PSet _ => lit "set"
  | PDict _ => lit "dict"
  end.

(** *** numbers *)

(** Conversion of an [int] to [float] overflows from [2^1024 - 2^970] on
    (the first integer that rounds to [2^1024]). *)
Definition float_int_bound : Z := 2 ^ 1024 - 2 ^ 970.

Definition float_of_int (z : Z) : res pyfloat :=
  if Z.abs z <? float_int_bound then Ok (FFin (inject_Z z))
  else Raise (Interp COverflowError (lit "int too large to convert to float")).

Definition int_of_bool (b : bool) : Z := if b then 1 else 0.

(** [a < b] on floats. *)
Definition float_ltb (a b : pyfloat) : bool :=
  match a, b with
  | FNan, _ | _, FNan => false
  | FInf true, FInf true => false
  | FInf true, _ => true
  | _, FInf true => false
  | FInf false, _ => false
  | FFin _, FInf false => true
  | FFin x, FFin y =>
      match Qcompare x y with Lt => true | _ => false end
  end.

Definition float_eqb (a b : pyfloat) : bool :=
  match a, b with
  | FInf x, FInf y => Bool.eqb x y
  | FFin x, FFin y => Qeq_bool x y
  | _, _ => false
  end.

(** Comparison of an [int] with a [float] is exact in Python. *)
Definition float_of_int_exact (z : Z) : pyfloat := FFin (inject_Z z).

Inductive number :=
| NInt (z : Z)
| NFloat (f : pyfloat).

Definition as_number (v : pyval) : option number :=
  match v with
  | PBool b => Some (NInt (int_of_bool b))
  | PInt z => Some (NInt z)
  | PFloat f => Some (NFloat f)
  | _ => None
  end.

Definition number_ltb (a b : number) : bool :=
  match a, b with
  | NInt x, NInt y => x <? y
  | NInt x, NFloat g => float_ltb (float_of_int_exact x) g
  | NFloat f, NInt y => float_ltb f (float_of_int_exact y)
  | NFloat f, NFloat g => float_ltb f g
  end.

Definition number_eqb (a b : number) : bool :=
  match a, b with
  | NInt x, NInt y => x =? y
  | NInt x, NFloat g => float_eqb (float_of_int_exact x) g
  | NFloat f, NInt y => float_eqb f (float_of_int_exact y)
  | NFloat f, NFloat g => float_eqb f g
  end.

(** [a > b] and [a < b] between arbitrary values: numbers compare, strings
    are never compared with numbers, anything else is a [TypeError]. *)
Definition py_lt (a b : pyval) : res bool :=
  match as_number a, as_number b with
  | Some x, Some y => Ok (number_ltb x y)
  | _, _ => Raise (Interp CTypeError (lit "'<' not supported"))
  end.

Definition py_gt (a b : pyval) : res bool :=
  match as_number a, as_number b with
  | Some x, Some y => Ok (number_ltb y x)
  | _, _ => Raise (Interp CTypeError (lit "'>' not supported"))
  end.

Definition float_add (a b : pyfloat) : pyfloat :=
  match a, b with
  | FNan, _ | _, FNan => FNan
  | FInf x, FInf y => if Bool.eqb x y then FInf x else FNan
  | FInf x, FFin _ | FFin _, FInf x => FInf x
  | FFin x, FFin y => FFin (Qred (x + y))
  end.

(** [a + b] on numbers ([total_confidence += confidence]). *)
Definition py_add (a b : pyval) : res pyval :=
  match as_number a, as_number b with
  | Some (NInt x), Some (NInt y) => Ok (PInt (x + y))
  | Some (NInt x), Some (NFloat g) =>
      f <- float_of_int x ;; Ok (PFloat (float_add f g))
  | Some (NFloat f), Some (NInt y) =>
      g <- float_of_int y ;; Ok (PFloat (float_add f g))
  | Some (NFloat f), Some (NFloat g) => Ok (PFloat (float_add f g))
  | _, _ => Raise (Interp CTypeError (lit "unsupported operand type(s) for +"))
  end.

(** [a / n] for a positive [int] [n] (a length). *)
Definition py_truediv_len (a : pyval) (n : Z) : res pyval :=
  match as_number a with
  | Some (NInt x) =>
      let q := Qred (inject_Z x / inject_Z n) in
      if Qle_bool (inject_Z float_int_bound) (Qabs q)
      then Raise (Interp COverflowError
                    (lit "integer division result too large for a float"))
      else Ok (PFloat (FFin q))
  | Some (NFloat (FFin x)) => Ok (PFloat (FFin (Qred (x / inject_Z n))))
  | Some (NFloat f) => Ok (PFloat f)
  | None => Raise (Interp CTypeError (lit "unsupported operand type(s) for /"))
  end.

(** *** equality used by [in] on lists of strings, sets and dict keys *)

Definition is_str (v : pyval) (s : pystr) : bool :=
  match v with PStr t => str_eqb t s | _ => false end.

(** [v in [s1, s2, ...]] for string literals. *)
Definition in_strs (v : pyval) (l : list pystr) : bool :=
  existsb (is_str v) l.

(** Equality of hashable values, as sets and dict keys see it: numbers by
    value whatever their type, strings by content, tuples item by item. *)
Fixpoint key_eqb (a b : pyval) : bool :=
  match as_number a, as_number b with
  | Some x, Some y => number_eqb x y
  | _, _ =>
      match a, b with
      | PNone, PNone => true
      | PStr s, PStr t => str_eqb s t
      | PTuple l, PTuple m =>
          (fix all2 (l m : list pyval) : bool :=
             match l, m with
             | [], [] => true
             | x :: l', y :: m' => key_eqb x y && all2 l' m'
             | _, _ => false
             end) l m
      | _, _ => false
      end
  end.

(** Only lists, sets and dicts (and tuples that hold one) cannot be hashed. *)
Fixpoint hashable (v : pyval) : bool :=
  match v with
  | PList _ | PSet _ | PDict _ => false
  | PTuple l => forallb hashable l
  | _ => true
  end.

Definition unhashable (v : pyval) : exn :=
  Interp CTypeError (lit "unhashable type: " ++ type_name v).

End PyVal.
Import PyVal.

(** ** Numbers written in decimal *)

Module Decimal.

Definition is_digit (c : char) : bool := ((48 <=? c) && (c <=? 57))%N.

Definition digits_value (ds : pystr) : Z :=
  fold_left (fun a c => 10 * a + (Z.of_N c - 48)) ds 0.

(** The longest run of ASCII digits at the head of [s], and what follows. *)
Fixpoint take_digits (s : pystr) : pystr * pystr :=
  match s with
  | c :: s' =>
      if is_digit c
      then let (ds, r) := take_digits s' in (c :: ds, r)
      else ([], s)
  | [] => ([], [])
  end.

(** The same with Python's digit grouping: one underscore is allowed between
    two digits.  The digits are returned without the underscores. *)
Fixpoint take_digitpart (after_digit : bool) (s : pystr) : pystr * pystr :=
  match s with
  | c :: s' =>
      if is_digit c
      then let (ds, r) := take_digitpart true s' in (c :: ds, r)
      else if after_digit && N.eqb c 95
                && match s' with d :: _ => is_digit d | [] => false end
      then take_digitpart false s'
      else ([], s)
  | [] => ([], [])
  end.

Definition pow10 (k : Z) : Q :=
  if 0 <=? k then inject_Z (10 ^ k) else Qmake 1 (Z.to_pos (10 ^ (- k))).

(** The float nearest to a rational: an infinity from the overflow threshold
    on, the rational itself below it. *)
Definition mk_float (q : Q) : pyfloat :=
  if Qle_bool (inject_Z float_int_bound) (Qabs q)
  then FInf (Qnum q <? 0)
  else FFin (Qred q).

Definition decimal_float (neg : bool) (intd fracd : pystr) (e : Z) : pyfloat :=
  let m := digits_value (intd ++ fracd) in
  let q := (inject_Z (if neg then - m else m)
            * pow10 (e - Z.of_nat (length fracd)))%Q in
  mk_float q.

(** An optional exponent [[eE][-+]?digits]; [None] when the text is not one. *)
Definition take_exponent (grouped : bool) (s : pystr) : option (Z * pystr) :=
  match s with
  | c :: s1 =>
      if N.eqb c 101 || N.eqb c 69 then
        let '(neg, s2) :=
          match s1 with
          | 45%N :: t => (true, t)
          | 43%N :: t => (false, t)
          | _ => (false, s1)
          end in
        let (ds, r) := if grouped then take_digitpart false s2
                       else take_digits s2 in
        match ds with
        | [] => None
        | _ => Some (if neg then - digits_value ds else digits_value ds, r)
        end
      else None
  | [] => None
  end.

(** A JSON number, the whole of [w]: an optional minus sign, an integer part
    that is [0] or starts with a non-zero digit, an optional fraction (a dot
    and at least one digit) and an optional exponent.  An [int] when it has
    neither fraction nor exponent, a [float] otherwise. *)
Definition json_number (w : pystr) : option pyval :=
  let '(neg, s0) := match w with 45%N :: t => (true, t) | _ => (false, w) end in
  let (intd, s1) := take_digits s0 in
  let int_ok :=
    match intd with
    | [] => false
    | [_] => true
    | c :: _ => negb (N.eqb c 48)
    end in
  if negb int_ok then None
  else
    let frac :=
      match s1 with
      | 46%N :: t =>
          let (fd, r) := take_digits t in
          match fd with [] => None | _ => Some (Some fd, r) end
      | _ => Some (None, s1)
      end in
    match frac with
    | None => None
    | Some (fracd, s2) =>
        match s2 with
        | [] =>
            match fracd with
            | None =>
                Some (PInt (if neg then - digits_value intd
                            else digits_value intd))
            | Some fd => Some (PFloat (decimal_float neg intd fd 0))
            end
        | _ =>
            match take_exponent false s2 with
            | Some (e, []) =>
                Some (PFloat (decimal_float neg intd
                                (match fracd with Some fd => fd | None => [] end)
                                e))
            | _ => None
            end
        end
    end.

Definition ascii_lower_char (c : char) : char :=
  if ((65 <=? c) && (c <=? 90))%N then (c + 32)%N else c.

(** [float(s)] for a string: surrounding white space, a sign, then [inf],
    [infinity] or [nan] in any case, or a decimal number with optional
    fraction and exponent and digit grouping.  Digits other than the ASCII
    ones are not recognised. *)
Definition float_of_str (s : pystr) : option pyfloat :=
  let t := strip s in
  let '(neg, s0) :=
    match t with
    | 45%N :: r => (true, r)
    | 43%N :: r => (false, r)
    | _ => (false, t)
    end in
  let word := map ascii_lower_char s0 in
  if str_eqb word (lit "inf") || str_eqb word (lit "infinity")
  then Some (FInf neg)
  else if str_eqb word (lit "nan") then Some FNan
  else
    let (intd, s1) := take_digitpart false s0 in
    let '(fracd, s2) :=
      match s1 with
      | 46%N :: r => take_digitpart false r
      | _ => ([], s1)
      end in
    match intd ++ fracd with
    | [] => None
    | _ =>
        match s2 with
        | [] => Some (decimal_float neg intd fracd 0)
        | _ =>
            match take_exponent true s2 with
            | Some (e, []) => Some (decimal_float neg intd fracd e)
            | _ => None
            end
        end
    end.

End Decimal.
Import Decimal.

(** ** [json.loads]

    The decoder of the standard library, as a lexer followed by a pushdown
    parser, both by structural recursion on their input.  It accepts what
    [json.loads] accepts with its default settings: any JSON value at top
    level, white space limited to space, tab, line feed and carriage return,
    strings without raw control characters, the literals [NaN], [Infinity]
    and [-Infinity], and no trailing data.  An object with a repeated key
    keeps the last value.

    The decoder reads the text once, from left to right, and stops at the
    first of three things: a syntax error ([JSONDecodeError]); at the place
    of a value, an integer literal with more digits than [int] converts
    ([ValueError]); a container opened deeper than the recursion limit
    leaves room for ([RecursionError]).  The lexer therefore never fails:
    where it cannot go on it ends the tokens with [TBad], and the parser
    decides what comes first. *)

Module Json.

(** The two limits of the interpreter the decoder can meet; [None] is no
    limit. *)
Record limits := {
  max_str_digits : option nat;
  max_depth : option nat
}.

(** CPython's defaults: [sys.get_int_max_str_digits()] is 4300, and under
    the recursion limit of 1000 a decoder called from the top level of a
    module has room for 994 nested containers (a deeper call stack leaves
    fewer). *)
Definition cpython : limits :=
  {| max_str_digits := Some 4300%nat; max_depth := Some 994%nat |}.

(** The grammar alone. *)
Definition unlimited : limits :=
  {| max_str_digits := None; max_depth := None |}.

Inductive failure :=
| Malformed      (* [json.JSONDecodeError] *)
| DigitLimit     (* [ValueError], from [int] *)
| DepthLimit.    (* [RecursionError] *)

Inductive token :=
| TLBrace | TRBrace | TLBrack | TRBrack | TComma | TColon
| TScalar (v : pyval)
| TBig           (* an integer literal over the digit limit *)
| TBad.          (* the text cannot be read from here on *)

(** The lexer's mode.  Accumulators are reversed.  Inside a string, [hi] is
    an escaped high surrogate that waits for an escaped low one. *)
Inductive lex_mode :=
| LIdle
| LWord (acc : pystr)
| LStr (acc : pystr) (hi : option char)
| LEsc (acc : pystr) (hi : option char)
| LHex (acc : pystr) (hi : option char) (todo : nat) (v : N).

Definition is_json_space (c : char) : bool :=
  (N.eqb c 32 || N.eqb c 9 || N.eqb c 10 || N.eqb c 13).

Definition is_word_char (c : char) : bool :=
  (((48 <=? c) && (c <=? 57)) || ((65 <=? c) && (c <=? 90))
   || ((97 <=? c) && (c <=? 122)) || (c =? 43) || (c =? 45) || (c =? 46))%N.

(** What follows the integer digits of a number makes it a [float]: a dot
    and a digit, or an exponent with at least one digit. *)
Definition reads_as_float (s : pystr) : bool :=
  match s with
  | 46%N :: d :: _ => is_digit d
  | _ => false
  end
  || match take_exponent false s with
     | Some _ => true
     | None => false
     end.

(** The number at the head of [w] is an [int] (an optional minus sign and
    digits not led by [0], neither fraction nor exponent after them) of more
    digits than the limit.  [int] refuses it whatever follows in [w]. *)
Definition over_digit_limit (lim : limits) (w : pystr) : bool :=
  match max_str_digits lim with
  | None => false
  | Some n =>
      let s0 := match w with 45%N :: t => t | _ => w end in
      let (intd, s1) := take_digits s0 in
      match intd with
      | [] => false
      | c :: _ =>
          negb (N.eqb c 48) && (n <? length intd)%nat
          && negb (reads_as_float s1)
      end
  end.

Definition literal (w : pystr) : option pyval :=
  if str_eqb w (lit "null") then Some PNone
  else if str_eqb w (lit "true") then Some (PBool true)
  else if str_eqb w (lit "false") then Some (PBool false)
  else if str_eqb w (lit "NaN") then Some (PFloat FNan)
  else if str_eqb w (lit "Infinity") then Some (PFloat (FInf false))
  else if str_eqb w (lit "-Infinity") then Some (PFloat (FInf true))
  else json_number w.

Definition classify (lim : limits) (w : pystr) : token :=
  if over_digit_limit lim w then TBig
  else
    match literal w with
    | Some v => TScalar v
    | None => TBad
    end.

Definition hex_value (c : char) : option N :=
  if ((48 <=? c) && (c <=? 57))%N then Some (c - 48)%N
  else if ((97 <=? c) && (c <=? 102))%N then Some (c - 87)%N
  else if ((65 <=? c) && (c <=? 70))%N then Some (c - 55)%N
  else None.

Definition is_high (v : N) : bool := ((55296 <=? v) && (v <=? 56319))%N.
Definition is_low (v : N) : bool := ((56320 <=? v) && (v <=? 57343))%N.

Definition flush (acc : pystr) (hi : option char) : pystr :=
  match hi with Some h => h :: acc | None => acc end.

(** A [\uXXXX] escape of value [v] has just been read. *)
Definition after_hex (acc : pystr) (hi : option char) (v : N) : lex_mode :=
  match hi with
  | Some h =>
      if is_low v
      then LStr ((65536 + ((h - 55296) * 1024 + (v - 56320)))%N :: acc) None
      else if is_high v then LStr (h :: acc) (Some v)
      else LStr (v :: h :: acc) None
  | None =>
      if is_high v then LStr acc (Some v) else LStr (v :: acc) None
  end.

Definition simple_escape (c : char) : option char :=
  if N.eqb c 34 then Some 34%N
  else if N.eqb c 92 then Some 92%N
  else if N.eqb c 47 then Some 47%N
  else if N.eqb c 98 then Some 8%N
  else if N.eqb c 102 then Some 12%N
  else if N.eqb c 110 then Some 10%N
  else if N.eqb c 114 then Some 13%N
  else if N.eqb c 116 then Some 9%N
  else None.

(** One character read between tokens. *)
Definition idle_step (c : char) : option (list token * lex_mode) :=
  if is_json_space c then Some ([], LIdle)
  else if N.eqb c 123 then Some ([TLBrace], LIdle)
  else if N.eqb c 125 then Some ([TRBrace], LIdle)
  else if N.eqb c 91 then Some ([TLBrack], LIdle)
  else if N.eqb c 93 then Some ([TRBrack], LIdle)
  else if N.eqb c 44 then Some ([TComma], LIdle)
  else if N.eqb c 58 then Some ([TColon], LIdle)
  else if N.eqb c 34 then Some ([], LStr [] None)
  else if is_word_char c then Some ([], LWord [c])
  else None.

Fixpoint lex (lim : limits) (m : lex_mode) (s : pystr) : list token :=
  match s with
  | [] =>
      match m with
      | LIdle => []
      | LWord acc => [classify lim (rev acc)]
      | _ => [TBad]
      end
  | c :: s' =>
      match m with
      | LIdle =>
          match idle_step c with
          | Some (ts, m') => ts ++ lex lim m' s'
          | None => [TBad]
          end
      | LWord acc =>
          if is_word_char c then lex lim (LWord (c :: acc)) s'
          else
            classify lim (rev acc)
            :: match idle_step c with
               | Some (ts, m') => ts ++ lex lim m' s'
               | None => [TBad]
               end
      | LStr acc hi =>
          if N.eqb c 34
          then TScalar (PStr (rev (flush acc hi))) :: lex lim LIdle s'
          else if N.eqb c 92 then lex lim (LEsc acc hi) s'
          else if (c <? 32)%N then [TBad]
          else lex lim (LStr (c :: flush acc hi) None) s'
      | LEsc acc hi =>
          if N.eqb c 117 then lex lim (LHex acc hi 4 0%N) s'
          else
            match simple_escape c with
            | Some e => lex lim (LStr (e :: flush acc hi) None) s'
            | None => [TBad]
            end
      | LHex acc hi todo v =>
          match hex_value c with
          | None => [TBad]
          | Some h =>
              let v' := (v * 16 + h)%N in
              match todo with
              | S O | O => lex lim (after_hex acc hi v') s'
              | S k => lex lim (LHex acc hi k v') s'
              end
          end
      end
  end.

(** The parser: a stack of open containers and what may come next. *)
Inductive frame :=
| FArr (items : list pyval)
| FObj (pairs : list (pystr * pyval)) (key : option pystr).

Inductive expect :=
| EValue
| EValueOrEnd
| EKeyOrEnd
| EKey
| EColon
| ECommaOrEnd
| EDone (v : pyval).

Definition pstate := (list frame * expect)%type.

(** A step of the parser: the next state, or why the decoder stops. *)
Definition settle (r : option pstate) : pstate + failure :=
  match r with
  | Some st => inl st
  | None => inr Malformed
  end.

Definition put_value (v : pyval) (stack : list frame) : option pstate :=
  match stack with
  | [] => Some ([], EDone v)
  | FArr items :: st => Some (FArr (v :: items) :: st, ECommaOrEnd)
  | FObj pairs (Some k) :: st =>
      Some (FObj ((k, v) :: pairs) None :: st, ECommaOrEnd)
  | FObj _ None :: _ => None
  end.

Definition close_array (stack : list frame) : option pstate :=
  match stack with
  | FArr items :: st => put_value (PList (rev items)) st
  | _ => None
  end.

Definition close_object (stack : list frame) : option pstate :=
  match stack with
  | FObj pairs None :: st => put_value (PDict (dict_of_pairs (rev pairs))) st
  | _ => None
  end.

(** One more container can be opened inside those of [stack]. *)
Definition has_room (lim : limits) (stack : list frame) : bool :=
  match max_depth lim with
  | Some n => (length stack <? n)%nat
  | None => true
  end.

Definition start_value (lim : limits) (t : token) (stack : list frame)
  : pstate + failure :=
  match t with
  | TScalar v => settle (put_value v stack)
  | TBig => inr DigitLimit
  | TLBrack =>
      if has_room lim stack then inl (FArr [] :: stack, EValueOrEnd)
      else inr DepthLimit
  | TLBrace =>
      if has_room lim stack then inl (FObj [] None :: stack, EKeyOrEnd)
      else inr DepthLimit
  | _ => inr Malformed
  end.

Definition take_key (t : token) (stack : list frame) : option pstate :=
  match t, stack with
  | TScalar (PStr k), FObj pairs None :: st =>
      Some (FObj pairs (Some k) :: st, EColon)
  | _, _ => None
  end.

Definition step (lim : limits) (st : pstate) (t : token)
  : pstate + failure :=
  let (stack, e) := st in
  match e with
  | EValue => start_value lim t stack
  | EValueOrEnd =>
      match t with
      | TRBrack => settle (close_array stack)
      | _ => start_value lim t stack
      end
  | EKeyOrEnd =>
      match t with
      | TRBrace => settle (close_object stack)
      | _ => settle (take_key t stack)
      end
  | EKey => settle (take_key t stack)
  | EColon =>
      match t with
      | TColon => inl (stack, EValue)
      | _ => inr Malformed
      end
  | ECommaOrEnd =>
      match t, stack with
      | TComma, FArr _ :: _ => inl (stack, EValue)
      | TComma, FObj _ _ :: _ => inl (stack, EKey)
      | TRBrack, _ => settle (close_array stack)
      | TRBrace, _ => settle (close_object stack)
      | _, _ => inr Malformed
      end
  | EDone _ => inr Malformed
  end.

Fixpoint run (lim : limits) (st : pstate) (ts : list token)
  : pstate + failure :=
  match ts with
  | [] => inl st
  | t :: ts' =>
      match step lim st t with
      | inl st' => run lim st' ts'
      | inr f => inr f
      end
  end.

(** The decoder under the limits [lim]: the value, or why it stopped. *)
Definition decode (lim : limits) (s : pystr) : pyval + failure :=
  match s with
  | 65279%N :: _ => inr Malformed
  | _ =>
      match run lim ([], EValue) (lex lim LIdle s) with
      | inl ([], EDone v) => inl v
      | inl _ => inr Malformed
      | inr f => inr f
      end
  end.

(** [json.loads(s)] when it returns; [None] stands for any of the three
    exceptions. *)
Definition loads (s : pystr) : option pyval :=
  match decode cpython s with
  | inl v => Some v
  | inr _ => None
  end.

(** [s] is a JSON text by the grammar, whatever its size. *)
Definition parse (s : pystr) : option pyval :=
  match decode unlimited s with
  | inl v => Some v
  | inr _ => None
  end.

End Json.

(** ** Regular expressions

    A backtracking matcher with the priorities of Python's [re]: a greedy
    star tries one more iteration before it tries the rest of the pattern, a
    lazy star the other way round, and [search] takes the leftmost start. *)

Module Re.

Inductive cset :=
| CAny                       (* [.] under [re.DOTALL] *)
| CChar (c : char)
| CSpace                     (* [\s] *)
| CNotIn (l : list char).    (* a negated class *)

Inductive regex :=
| RSet (cs : cset)
| RSeq (a b : regex)
| RStar (greedy : bool) (a : regex).

Definition cset_mem (cs : cset) (c : char) : bool :=
  match cs with
  | CAny => true
  | CChar d => N.eqb c d
  | CSpace => is_space c
  | CNotIn l => negb (existsb (N.eqb c) l)
  end.

Definition first_some (a b : option pystr) : option pystr :=
  match a with Some _ => a | None => b end.

(** [rmatch r s k]: match [r] at the head of [s] and hand what is left to
    [k]; the answer is what is left after the whole pattern.  An iteration of
    a star must consume a character, so [S (length s)] rounds are enough. *)
Fixpoint rmatch (r : regex) (s : pystr) (k : pystr -> option pystr)
  {struct r} : option pystr :=
  match r with
  | RSet cs =>
      match s with
      | c :: s' => if cset_mem cs c then k s' else None
      | [] => None
      end
  | RSeq a b => rmatch a s (fun s1 => rmatch b s1 k)
  | RStar greedy a =>
      (fix loop (n : nat) (s : pystr) {struct n} : option pystr :=
         match n with
         | O => k s
         | S n' =>
             let more :=
               rmatch a s
                 (fun s1 => if (length s1 <? length s)%nat then loop n' s1
                            else None) in
             if greedy then first_some more (k s)
             else first_some (k s) more
         end) (S (length s)) s
  end.

(** [re.search(r, s).group()], [None] when nothing matches. *)
Fixpoint search (r : regex) (s : pystr) : option pystr :=
  match rmatch r s Some with
  | Some rest => Some (firstn (length s - length rest) s)
  | None =>
      match s with
      | [] => None
      | _ :: s' => search r s'
      end
  end.

Definition chr (c : N) : regex := RSet (CChar c).
Definition seq (l : list regex) (last : regex) : regex :=
  fold_right RSeq last l.

Definition lbrack := chr 91.
Definition rbrack := chr 93.
Definition lbrace := chr 123.
Definition rbrace := chr 125.
Definition spaces := RStar true (RSet CSpace).
Definition lazy_any := RStar false (RSet CAny).
Definition no_braces := RStar true (RSet (CNotIn [123; 125]%N)).

End Re.

(** ** The runtime

    What the embedding takes from the interpreter: the text [str(e)] of an
    exception it raises, the text [str(v)] of a float or a container, the
    Unicode case tables, the order in which a set is iterated (given by a
    rank on its elements, smaller first), and the clock. *)
Record runtime := {
  interp_text : exn_class -> pystr -> pystr;
  str_value : pyval -> pystr;
  str_lower : pystr -> pystr;
  str_upper : pystr -> pystr;
  set_rank : pyval -> N;
  now_iso : pystr
}.

(** A runtime to run the examples with. *)
Definition sample_runtime : runtime := {|
  interp_text := fun _ site => site;
  str_value := fun _ => lit "?";
  str_lower := cta_lower;
  str_upper := cta_upper;
  set_rank := fun _ => 0%N;
  now_iso := lit "2025-01-01T00:00:00"
|}.

(** [str(e)] *)
Definition str_exn (rt : runtime) (e : exn) : pystr :=
  match e with
  | Raised _ msg => msg
  | Interp c site => interp_text rt c site
  end.

(** [str(v)] *)
Definition py_str (rt : runtime) (v : pyval) : pystr :=
  match v with
  | PStr s => s
  | PInt z => str_of_int z
  | PBool true => lit "True"
  | PBool false => lit "False"
  | PNone => lit "None"
  | _ => str_value rt v
  end.

(** ** modules/llm_interface.py *)

Module LLMInterface.

(** The class of what [json.loads] raises. *)
Definition class_of_failure (f : Json.failure) : exn_class :=
  match f with
  | Json.Malformed => CJSONDecodeError
  | Json.DigitLimit => CValueError
  | Json.DepthLimit => CRecursionError
  end.

(** [json.loads(s)]: the value, or the exception of the decoder. *)
Definition json_loads (s : pystr) : res pyval :=
  match Json.decode Json.cpython s with
  | inl v => Ok v
  | inr f => Raise (Interp (class_of_failure f) s)
  end.

(** [l[i]] on a list of strings. *)
Definition index (l : list pystr) (i : nat) : res pystr :=
  match nth_error l i with
  | Some x => Ok x
  | None => Raise (Interp CIndexError (lit "list index out of range"))
  end.

Definition fence_json : pystr := lit "```json".
Definition fence : pystr := lit "```".
Definition prefix_output : pystr := lit "OUTPUT:".
Definition prefix_output_text : pystr := lit "OUTPUT_TEXT:".

(** Lines 105-114: the fenced block or the prefix label is removed. *)
Definition strip_markers (content : pystr) : res pystr :=
  if contains fence_json content then
    inner <- index (split fence_json content) 1 ;;
    index (split fence inner) 0
  else if startswith fence content then
    inner <- index (split fence content) 1 ;;
    index (split fence inner) 0
  else if contains prefix_output content then
    Ok (strip (replace prefix_output [] content))
  else if contains prefix_output_text content then
    Ok (strip (replace prefix_output_text [] content))
  else Ok content.

Definition lbrace : pystr := [123%N].
Definition rbrace : pystr := [125%N].
Definition lbrack : pystr := [91%N].
Definition rbrack : pystr := [93%N].
Definition newline : pystr := [10%N].

(** The test of line 128 on one (trimmed) line. *)
Definition closes (line : pystr) : bool :=
  endswith rbrace line && (count lbrace line <=? count rbrace line).

(** Lines 118-129: the loop over the lines; the answer is [json_lines]. *)
Fixpoint scan_lines (json_started : bool) (lines : list pystr) : list pystr :=
  match lines with
  | [] => []
  | raw_line :: rest =>
      let line := strip raw_line in
      let json_started := json_started || startswith lbrace line in
      if json_started
      then line :: (if closes line then [] else scan_lines true rest)
      else scan_lines false rest
  end.

(** [r'\[.*?\]'] and [r'\{.*?\}'] *)
Definition array_re : Re.regex := Re.seq [Re.lbrack; Re.lazy_any] Re.rbrack.
Definition obj_re : Re.regex := Re.seq [Re.lbrace; Re.lazy_any] Re.rbrace.

(** Line 167: a bracket, white space, a lazy braced span, white space, any
    number of comma-separated lazy braced spans, a closing bracket. *)
Definition array_pattern : Re.regex :=
  Re.seq [Re.lbrack; Re.spaces; Re.lbrace; Re.lazy_any; Re.rbrace; Re.spaces;
          Re.RStar true
            (Re.seq [Re.chr 44; Re.spaces; Re.lbrace; Re.lazy_any; Re.rbrace]
               Re.spaces)]
    Re.rbrack.

(** Line 177: a braced span whose inside holds other braces only as complete
    brace-free braced spans. *)
Definition obj_pattern : Re.regex :=
  Re.seq [Re.lbrace; Re.no_braces;
          Re.RStar true (Re.seq [Re.lbrace; Re.no_braces; Re.rbrace] Re.no_braces)]
    Re.rbrace.

(** Lines 102-160: the body of the [try]. *)
Definition parse_body (response_content : pystr) : res pyval :=
  let content := strip response_content in
  content <- strip_markers content ;;
  let lines := split newline content in
  let json_lines := scan_lines false lines in
  let content :=
    match json_lines with
    | [] => content
    | _ => join newline json_lines
    end in
  let content := strip (strip content) in
  if startswith lbrack content && endswith rbrack content then
    json_loads content
  else if startswith lbrace content && endswith rbrace content then
    json_loads content
  else
    match Re.search array_re content with
    | Some m => json_loads m
    | None =>
        match Re.search obj_re content with
        | Some m => json_loads m
        | None => json_loads content
        end
    end.

(** Lines 166-184: one of the two last-resort attempts; a failure of any kind
    is swallowed. *)
Definition last_resort (pattern : Re.regex) (response_content : pystr)
  : option pyval :=
  match Re.search pattern response_content with
  | Some m => Json.loads (strip m)
  | None => None
  end.

Definition parse_error_message (rt : runtime) (e : exn)
    (response_content : pystr) : pystr :=
  lit "JSON parse hatas" ++ [305%N] ++ lit ": " ++ str_exn rt e
  ++ [10; 304; 231]%N ++ lit "erik: " ++ response_content.

(** Lines 162-186: the handler of [json.JSONDecodeError]. *)
Definition on_decode_error (rt : runtime) (e : exn) (response_content : pystr)
  : res pyval :=
  match last_resort array_pattern response_content with
  | Some v => Ok v
  | None =>
      match last_resort obj_pattern response_content with
      | Some v => Ok v
      | None =>
          Raise (Raised CValueError
                   (parse_error_message rt e response_content))
      end
  end.

Definition parse_json_response (rt : runtime) (response_content : pystr)
  : res pyval :=
  match parse_body response_content with
  | Ok v => Ok v
  | Raise e =>
      match class_of e with
      | CJSONDecodeError => on_decode_error rt e response_content
      | _ => Raise e
      end
  end.

(** Lines 198-202: the characters of [allowed_chars]. *)
Definition allowed_chars : list char :=
  lit "abc" ++ [231%N] ++ lit "defg" ++ [287%N] ++ lit "h" ++ [305%N]
  ++ lit "ijklmn" ++ [241%N] ++ lit "o" ++ [242; 246]%N ++ lit "pqrs"
  ++ [351%N] ++ lit "tu" ++ [252%N] ++ lit "vwxyz"
  ++ [228; 251; 601; 226; 238; 244]%N
  ++ lit "ABC" ++ [199%N] ++ lit "DEFG" ++ [286%N] ++ lit "HI" ++ [304%N]
  ++ lit "JKLMN" ++ [209%N] ++ lit "O" ++ [210; 214]%N ++ lit "PQRS"
  ++ [350%N] ++ lit "TU" ++ [220%N] ++ lit "VWXYZ"
  ++ [196; 219; 399; 194; 206; 212]%N
  ++ lit " .,:;!?()-[]{}" ++ [34%N] ++ lit "'0123456789" ++ [10; 13; 9]%N
  ++ lit "''".

Definition allowed (c : char) : bool := existsb (N.eqb c) allowed_chars.

Definition char_in (c : char) (l : list char) : bool := existsb (N.eqb c) l.

(** Lines 204-208: the loop; [invalid_chars] grows at its end. *)
Fixpoint collect_invalid (invalid_chars : list char) (text : pystr)
  : list char :=
  match text with
  | [] => invalid_chars
  | c :: rest =>
      if negb (allowed c) && negb (char_in c invalid_chars)
      then collect_invalid (invalid_chars ++ [c]) rest
      else collect_invalid invalid_chars rest
  end.

Definition validate_ota_characters (text : pystr) : bool * list char :=
  let invalid_chars := collect_invalid [] text in
  (match invalid_chars with [] => true | _ => false end, invalid_chars).

End LLMInterface.
Import LLMInterface.

(** ** Exceptions, sets and iteration *)

Module Py.

(** [isinstance(e, C)]: [JSONDecodeError] derives from [ValueError], and
    everything from [Exception]. *)
Definition exn_isinstance (e : exn) (c : exn_class) : bool :=
  match c, class_of e with
  | CException, _ => true
  | CValueError, (CValueError | CJSONDecodeError) => true
  | CJSONDecodeError, CJSONDecodeError => true
  | CTypeError, CTypeError => true
  | CAttributeError, CAttributeError => true
  | CKeyError, CKeyError => true
  | CIndexError, CIndexError => true
  | COverflowError, COverflowError => true
  | CRecursionError, CRecursionError => true
  | _, _ => false
  end.

(** [except (C1, C2, ...)] *)
Definition caught_by (handler : list exn_class) (e : exn) : bool :=
  existsb (exn_isinstance e) handler.

(** A set is kept as the list of its elements in the order they were first
    added. *)
Definition set_add (v : pyval) (s : list pyval) : list pyval :=
  if existsb (key_eqb v) s then s else s ++ [v].

Fixpoint insert_ranked (rank : pyval -> N) (v : pyval) (l : list pyval)
  : list pyval :=
  match l with
  | [] => [v]
  | x :: l' =>
      if (rank v <? rank x)%N then v :: l
      else x :: insert_ranked rank v l'
  end.

(** [list(s)] for a set [s]: its elements in the runtime's order. *)
Definition list_of_set (rt : runtime) (s : list pyval) : list pyval :=
  fold_left (fun acc v => insert_ranked (set_rank rt) v acc) s [].

(** [set(l)] for a list of hashable values. *)
Definition set_of_list (l : list pyval) : list pyval :=
  fold_left (fun s v => set_add v s) l [].

(** What [for x in v] goes through. *)
Definition iterate (v : pyval) : res (list pyval) :=
  match v with
  | PList l | PTuple l | PSet l => Ok l
  | PStr s => Ok (map (fun c => PStr [c]) s)
  | PDict d => Ok (map (fun kv => PStr (fst kv)) d)
  | _ => Raise (Interp CTypeError (type_name v ++ lit " object is not iterable"))
  end.

(** [s.update(items)] and [s.add(item)] *)
Fixpoint set_update (s : list pyval) (items : list pyval)
  : res (list pyval) :=
  match items with
  | [] => Ok s
  | x :: rest =>
      if hashable x then set_update (set_add x s) rest
      else Raise (unhashable x)
  end.

(** [len(v)] *)
Definition py_len (v : pyval) : res Z :=
  match v with
  | PList l | PTuple l | PSet l => Ok (Z.of_nat (length l))
  | PStr s => Ok (Z.of_nat (length s))
  | PDict d => Ok (Z.of_nat (length d))
  | _ => Raise (Interp CTypeError (type_name v ++ lit " has no len()"))
  end.

(** [float(v)] *)
Definition py_float (v : pyval) : res pyfloat :=
  match v with
  | PFloat f => Ok f
  | PInt z => float_of_int z
  | PBool b => Ok (FFin (inject_Z (int_of_bool b)))
  | PStr s =>
      match float_of_str s with
      | Some f => Ok f
      | None =>
          Raise (Interp CValueError (lit "could not convert string to float"))
      end
  | _ =>
      Raise (Interp CTypeError
               (lit "float() argument must be a string or a real number"))
  end.

(** [min(a, b)] and [max(a, b)]: the first argument unless the second is
    strictly smaller, respectively greater. *)
Definition py_min (a b : pyfloat) : pyfloat := if float_ltb b a then b else a.
Definition py_max (a b : pyfloat) : pyfloat := if float_ltb a b then b else a.

(** The three-way counters [{"low": 0, "medium": 0, "high": 0}]. *)
Record tiers := { low : Z; medium : Z; high : Z }.

Definition no_tiers : tiers := {| low := 0; medium := 0; high := 0 |}.

(** [counters[tier] += 1] *)
Definition bump_tier (tier : pyval) (c : tiers) : res tiers :=
  if negb (hashable tier) then Raise (unhashable tier)
  else if is_str tier (lit "low")
  then Ok {| low := low c + 1; medium := medium c; high := high c |}
  else if is_str tier (lit "medium")
  then Ok {| low := low c; medium := medium c + 1; high := high c |}
  else if is_str tier (lit "high")
  then Ok {| low := low c; medium := medium c; high := high c + 1 |}
  else Raise (Interp CKeyError (type_name tier)).

(** [counts[key] = counts.get(key, 0) + 1] *)
Fixpoint count_incr (key : pyval) (m : list (pyval * Z)) : list (pyval * Z) :=
  match m with
  | [] => [(key, 1)]
  | (k, n) :: m' =>
      if key_eqb key k then (k, n + 1) :: m'
      else (k, n) :: count_incr key m'
  end.

Definition count_key (key : pyval) (m : list (pyval * Z))
  : res (list (pyval * Z)) :=
  if hashable key then Ok (count_incr key m) else Raise (unhashable key).

(** [sorted(items, key=lambda x: x[1], reverse=True)]: by decreasing count,
    items of equal count in their original order. *)
Fixpoint insert_desc (x : pyval * Z) (l : list (pyval * Z))
  : list (pyval * Z) :=
  match l with
  | [] => [x]
  | y :: l' =>
      if snd y <? snd x then x :: l
      else y :: insert_desc x l'
  end.

Definition sorted_desc (l : list (pyval * Z)) : list (pyval * Z) :=
  fold_left (fun acc x => insert_desc x acc) l [].

End Py.
Import Py.

(** ** [LLMInterface.call_llm] and the generation service *)

Module Service.

Record llm_request := {
  rq_model : pystr;
  rq_system : pystr;
  rq_user : pystr;
  rq_temperature : Q;
  rq_max_tokens : Z
}.

Record llm_reply := {
  rp_content : pystr;
  rp_model : pystr;
  rp_prompt_tokens : Z;
  rp_completion_tokens : Z;
  rp_total_tokens : Z;
  rp_response_time : pyfloat;
  rp_timestamp : pyfloat
}.

(** The generation service: a reply, or the exception the client library
    raises. *)
Definition service := llm_request -> llm_reply + exn.

(** The fields of [LLMInterface] that [call_llm] reads: whether [client] is
    set, and [model]. *)
Record LLMInterface := {
  client : bool;
  model : pystr
}.

(** What a task did: its result and the requests it sent to the service. *)
Definition traced (A : Type) : Type := A * list llm_request.

Definition no_api_key_message : pystr :=
  lit "API key ayarlanmam" ++ [305; 351]%N ++ lit ". L" ++ [252%N]
  ++ lit "tfen ayarlar sekmesinden API key'inizi girin.".

Definition call_failed_prefix : pystr :=
  lit "LLM " ++ [231%N] ++ lit "a" ++ [287%N] ++ lit "r" ++ [305%N] ++ lit "s"
  ++ [305%N] ++ lit " ba" ++ [351%N] ++ lit "ar" ++ [305%N] ++ lit "s"
  ++ [305%N] ++ lit "z: ".

Definition reply_dict (rp : llm_reply) : pydict :=
  [(lit "content", PStr (rp_content rp));
   (lit "model", PStr (rp_model rp));
   (lit "usage",
     PDict [(lit "prompt_tokens", PInt (rp_prompt_tokens rp));
            (lit "completion_tokens", PInt (rp_completion_tokens rp));
            (lit "total_tokens", PInt (rp_total_tokens rp))]);
   (lit "response_time", PFloat (rp_response_time rp));
   (lit "timestamp", PFloat (rp_timestamp rp))].

Definition call_llm (rt : runtime) (svc : service) (self : LLMInterface)
    (system_prompt user_prompt : pystr) (temperature : Q) (max_tokens : Z)
  : traced (res pydict) :=
  if negb (client self)
  then (Raise (Raised CValueError no_api_key_message), [])
  else
    let rq := {| rq_model := model self; rq_system := system_prompt;
                 rq_user := user_prompt; rq_temperature := temperature;
                 rq_max_tokens := max_tokens |} in
    match svc rq with
    | inl rp => (Ok (reply_dict rp), [rq])
    | inr e =>
        (Raise (Raised CException (call_failed_prefix ++ str_exn rt e)), [rq])
    end.

(** The [llm_metadata] entry every task adds to its result. *)
Definition llm_metadata (response : pydict) : pyval :=
  PDict [(lit "model", dict_get_or (lit "model") PNone response);
         (lit "usage", dict_get_or (lit "usage") PNone response);
         (lit "response_time",
           dict_get_or (lit "response_time") PNone response)].

End Service.
Import Service.

(** ** Computations over a collection of records

    The statistics functions receive a Python list of dicts that their caller
    goes on using.  They are written as computations that are handed the
    state of that collection and give it back with their answer, so that
    whether they change it is a property to prove. *)

Module Store.

Definition store := list pyval.

Definition M (A : Type) : Type := store -> res A * store.

Definition ret {A} (a : A) : M A := fun s => (Ok a, s).

Definition raise {A} (e : exn) : M A := fun s => (Raise e, s).

Definition lift {A} (r : res A) : M A := fun s => (r, s).

Definition bindM {A B} (m : M A) (k : A -> M B) : M B :=
  fun s =>
    match m s with
    | (Ok a, s') => k a s'
    | (Raise e, s') => (Raise e, s')
    end.

(** [record.get(key, default)] on the [i]-th record of the collection. *)
Definition record_get (i : nat) (key : pystr) (default : pyval) : M pyval :=
  fun s =>
    match nth_error s i with
    | Some (PDict d) => (Ok (dict_get_or key default d), s)
    | Some v =>
        (Raise (Interp CAttributeError
                  (type_name v ++ lit " object has no attribute 'get'")), s)
    | None => (Raise (Interp CIndexError (lit "list index out of range")), s)
    end.

(** [len(collection)] *)
Definition size : M nat := fun s => (Ok (length s), s).

(** [for record in collection: acc = body(record, acc)], by position. *)
Fixpoint for_each {A} (body : nat -> A -> M A) (positions : list nat) (acc : A)
  : M A :=
  match positions with
  | [] => ret acc
  | i :: rest => bindM (body i acc) (for_each body rest)
  end.

(** A computation that leaves every collection as it found it. *)
Definition read_only {A} (m : M A) : Prop := forall s, snd (m s) = s.

(** Two calls in a row on the same collection: both answers, and the
    collection after the second. *)
Definition twice {A} (m : M A) (s : store) : res A * res A * store :=
  let r1 := m s in
  let r2 := m (snd r1) in
  (fst r1, fst r2, snd r2).

End Store.

(** ** modules/risk_analyzer.py *)

Module RiskAnalyzer.

(** The object: its interface to the service and its system prompt (the
    fixed text [_create_system_prompt] returns, sent as it is). *)
Record RiskAnalyzer := {
  llm : LLMInterface;
  system_prompt : pystr
}.

(** Line 13: x, schwa, a with diaeresis, q, n with tilde, u with circumflex
    and o with grave, each in lower and upper case. *)
Definition new_letters : list pystr :=
  map (fun c => [c])
    [120; 88; 601; 399; 228; 196; 113; 81; 241; 209; 251; 219; 242; 210]%N.

(** Lines 151-157. *)
Definition _find_new_letters (rt : runtime) (text : pystr) : list pyval :=
  let found := filter (fun letter => contains letter text) new_letters in
  list_of_set rt (set_of_list (map PStr found)).

Definition required_fields : list pystr :=
  [lit "letter"; lit "possible_confusions"; lit "languages"; lit "examples";
   lit "confidence"].

(** Lines 169-176: a field that is not a list becomes the one-item list of
    its text. *)
Definition listify (rt : runtime) (field : pystr) (risk : pydict) : pydict :=
  match dict_get field risk with
  | Some (PList _) => risk
  | Some v => dict_set field (PList [PStr (py_str rt v)]) risk
  | None => risk
  end.

(** [max(0.0, min(1.0, confidence))] *)
Definition clamp (confidence : pyfloat) : pyfloat :=
  py_max (FFin 0) (py_min (FFin 1) confidence).

(** Lines 179-183.  [None]: [float] raised something the handler does not
    catch, which reaches the handler of line 199. *)
Definition normalize_confidence (risk : pydict) : option pydict :=
  match py_float (dict_get_or (lit "confidence") PNone risk) with
  | Ok confidence =>
      Some (dict_set (lit "confidence") (PFloat (clamp confidence)) risk)
  | Raise e =>
      if caught_by [CValueError; CTypeError] e
      then Some (dict_set (lit "confidence") (PFloat (FFin (1 # 2))) risk)
      else None
  end.

Definition severities : list pystr := [lit "low"; lit "medium"; lit "high"].

(** Lines 186-187. *)
Definition normalize_severity (risk : pydict) : pydict :=
  match dict_get (lit "severity") risk with
  | Some s =>
      if in_strs s severities then risk
      else dict_set (lit "severity") (PStr (lit "medium")) risk
  | None => dict_set (lit "severity") (PStr (lit "medium")) risk
  end.

(** Lines 190-191. *)
Definition default_context (rt : runtime) (risk : pydict) : pydict :=
  if dict_has (lit "context") risk then risk
  else
    dict_set (lit "context")
      (PStr (lit "Phonetic ambiguity for letter '"
             ++ py_str rt (dict_get_or (lit "letter") PNone risk) ++ lit "'"))
      risk.

(** Lines 194-195.  [None]: the letter is not a string and has no [lower]. *)
Definition add_frequency (rt : runtime) (text : pystr) (risk : pydict)
  : option pydict :=
  match dict_get (lit "letter") risk with
  | Some (PStr letter) =>
      let letter_count :=
        count (str_lower rt letter) text + count (str_upper rt letter) text in
      Some (dict_set (lit "frequency_in_text") (PInt letter_count) risk)
  | _ => None
  end.

(** Lines 159-200.  The answer is [None], or [Some] of the state in which the
    function leaves the dict it was given and returns.  A value that is not a
    dict never gets through: [in] or the first subscript raises, and the
    handler of line 199 returns [None]. *)
Definition _validate_and_enrich_risk (rt : runtime) (risk : pyval)
    (text : pystr) : option pydict :=
  match risk with
  | PDict risk =>
      if negb (forallb (fun field => dict_has field risk) required_fields)
      then None
      else
        let risk := listify rt (lit "possible_confusions") risk in
        let risk := listify rt (lit "languages") risk in
        let risk := listify rt (lit "examples") risk in
        match normalize_confidence risk with
        | None => None
        | Some risk =>
            let risk := normalize_severity risk in
            let risk := default_context rt risk in
            add_frequency rt text risk
        end
  | _ => None
  end.

(** The running totals of the loop of lines 219-237. *)
Record risk_totals := {
  severity_distribution : tiers;
  total_confidence : pyval;
  letter_risk_count : list (pyval * Z);
  language_coverage : list pyval;
  total_new_letters_in_text : pyval
}.

Definition no_totals : risk_totals := {|
  severity_distribution := no_tiers;
  total_confidence := PInt 0;
  letter_risk_count := [];
  language_coverage := [];
  total_new_letters_in_text := PInt 0
|}.

Import Store.

Notation "x <~ m ;; k" := (bindM m (fun x => k))
  (at level 100, m at next level, right associativity).

(** Lines 220-237: one round of the loop, on the [i]-th risk. *)
Definition risk_round (i : nat) (t : risk_totals) : M risk_totals :=
  severity <~ record_get i (lit "severity") (PStr (lit "medium")) ;;
  dist <~ lift (bump_tier severity (severity_distribution t)) ;;
  confidence <~ record_get i (lit "confidence") (PFloat (FFin (1 # 2))) ;;
  total <~ lift (py_add (total_confidence t) confidence) ;;
  letter <~ record_get i (lit "letter") (PStr []) ;;
  counts <~ lift (count_key letter (letter_risk_count t)) ;;
  languages <~ record_get i (lit "languages") (PList []) ;;
  items <~ lift (iterate languages) ;;
  coverage <~ lift (set_update (language_coverage t) items) ;;
  frequency <~ record_get i (lit "frequency_in_text") (PInt 0) ;;
  letters <~ lift (py_add (total_new_letters_in_text t) frequency) ;;
  ret {| severity_distribution := dist;
         total_confidence := total;
         letter_risk_count := counts;
         language_coverage := coverage;
         total_new_letters_in_text := letters |}.

Definition tiers_dict (c : tiers) : pyval :=
  PDict [(lit "low", PInt (low c)); (lit "medium", PInt (medium c));
         (lit "high", PInt (high c))].

(** Lines 202-252, on the collection [risks] held in the store. *)
Definition _calculate_risk_statistics (rt : runtime) (text : pystr)
  : M pyval :=
  n <~ size ;;
  match n with
  | O => ret (PDict [(lit "total_risks", PInt 0)])
  | _ =>
      t <~ for_each risk_round (seq 0 n) no_totals ;;
      average <~ lift (py_truediv_len (total_confidence t) (Z.of_nat n)) ;;
      ret (PDict
             [(lit "total_risks", PInt (Z.of_nat n));
              (lit "severity_distribution",
                tiers_dict (severity_distribution t));
              (lit "average_confidence", average);
              (lit "most_problematic_letters",
                PList (map (fun kv => PTuple [fst kv; PInt (snd kv)])
                         (firstn 3 (sorted_desc (letter_risk_count t)))));
              (lit "language_coverage",
                PList (list_of_set rt (language_coverage t)));
              (lit "total_new_letters_in_text", total_new_letters_in_text t)])
  end.

Definition empty_text_result : pyval :=
  PDict [(lit "risks", PList []);
         (lit "error",
           PStr (lit "Empty text - CTA text is required for risk analysis"))].

(** Lines 72-87. *)
Definition placeholder_risk : pyval :=
  PDict [(lit "letter", PStr (lit "none"));
         (lit "possible_confusions", PList []);
         (lit "languages", PList []);
         (lit "examples", PList []);
         (lit "confidence", PFloat (FFin 1));
         (lit "context", PStr (lit "No new CTA letters found in text"));
         (lit "severity", PStr (lit "low"))].

Definition no_letters_result : pyval :=
  PDict [(lit "risks", PList [placeholder_risk]);
         (lit "statistics",
           PDict [(lit "total_risks", PInt 0);
                  (lit "new_letters_count", PInt 0)]);
         (lit "llm_metadata", PDict [])].

(** Lines 90-106. *)
Definition user_prompt (rt : runtime) (ota_text : pystr)
    (found_letters : list pyval) : pystr :=
  let letters := join (lit ", ") (map (py_str rt) found_letters) in
  join newline
    [lit "CTA_TEXT:";
     [34]%N ++ ota_text ++ [34]%N;
     [];
     lit "DETECTED_NEW_LETTERS: " ++ letters;
     [];
     lit "TASK:";
     lit "Analyze the phonetic risks and potential confusions for the new CTA letters found in this text. ";
     lit "Focus particularly on: " ++ letters;
     [];
     lit "Consider:";
     lit "1. Cross-linguistic confusion patterns";
     lit "2. Morphophonological environments  ";
     lit "3. Dialectal variations";
     lit "4. L1 transfer effects";
     lit "5. Systematic vs. sporadic confusions";
     [];
     lit "Return JSON array of risk analysis objects as specified in the system prompt."].

(** Lines 125-129: the loop that keeps the risks the validator returns. *)
Definition validate_all (rt : runtime) (risks : list pyval) (text : pystr)
  : list pyval :=
  flat_map
    (fun risk =>
       match _validate_and_enrich_risk rt risk text with
       | Some validated_risk =>
           if truthy (PDict validated_risk) then [PDict validated_risk] else []
       | None => []
       end)
    risks.

(** Lines 117-142: what follows the call, inside the [try]. *)
Definition after_call (rt : runtime) (ota_text : pystr) (response : pydict)
  : res pyval :=
  content <-
    match dict_get (lit "content") response with
    | Some (PStr c) => Ok c
    | _ => Raise (Interp CAttributeError (lit "strip"))
    end ;;
  risks <- parse_json_response rt content ;;
  let risks := match risks with PDict _ => PList [risks] | _ => risks end in
  items <- iterate risks ;;
  let validated_risks := validate_all rt items ota_text in
  let (analysis_stats, validated_risks) :=
    _calculate_risk_statistics rt ota_text validated_risks in
  analysis_stats <- analysis_stats ;;
  Ok (PDict [(lit "risks", PList validated_risks);
             (lit "statistics", analysis_stats);
             (lit "llm_metadata", llm_metadata response)]).

(** Lines 144-149. *)
Definition error_result (rt : runtime) (e : exn) (ota_text : pystr) : pyval :=
  PDict [(lit "risks", PList []);
         (lit "error", PStr (lit "Risk analysis error: " ++ str_exn rt e));
         (lit "input_text", PStr ota_text)].

(** Lines 52-149. *)
Definition analyze_risks (rt : runtime) (svc : service) (self : RiskAnalyzer)
    (ota_text : pystr) : traced pyval :=
  if negb (truthy (PStr (strip ota_text))) then (empty_text_result, [])
  else
    let found_letters := _find_new_letters rt ota_text in
    if negb (truthy (PList found_letters)) then (no_letters_result, [])
    else
      let (response, calls) :=
        call_llm rt svc (llm self) (system_prompt self)
          (user_prompt rt ota_text found_letters) (1 # 5) 2000 in
      match bind response (after_call rt ota_text) with
      | Ok result => (result, calls)
      | Raise e => (error_result rt e ota_text, calls)
      end.

End RiskAnalyzer.

(** ** modules/cognate_aligner.py *)

Module CognateAligner.

Definition required_fields : list pystr :=
  [lit "similarity"; lit "items"; lit "rationale"].

Definition similarities : list pystr := [lit "high"; lit "medium"; lit "low"].

(** Line 252: what makes an item of a group valid. *)
Definition valid_item (item : pyval) : bool :=
  match item with
  | PDict d => dict_has (lit "lang") d && dict_has (lit "original") d
  | _ => false
  end.

(** Lines 254-255: an item without [ota] gets its [original] there. *)
Definition fill_ota (item : pyval) : pyval :=
  match item with
  | PDict d =>
      if dict_has (lit "ota") d then item
      else PDict (dict_set (lit "ota") (dict_get_or (lit "original") PNone d) d)
  | _ => item
  end.

(** Lines 250-256. *)
Definition validate_items (items : list pyval) : list pyval :=
  map fill_ota (filter valid_item items).

(** Lines 246-247. *)
Definition normalize_similarity (group : pydict) : pydict :=
  if in_strs (dict_get_or (lit "similarity") PNone group) similarities
  then group
  else dict_set (lit "similarity") (PStr (lit "medium")) group.

(** Lines 266-267: [confidence_map.get(similarity, 0.5)]. *)
Definition confidence_map (similarity : pyval) : pyfloat :=
  if is_str similarity (lit "high") then FFin (4 # 5)
  else if is_str similarity (lit "medium") then FFin (3 # 5)
  else if is_str similarity (lit "low") then FFin (2 # 5)
  else FFin (1 # 2).

Definition default_confidence (group : pydict) : pydict :=
  if dict_has (lit "confidence") group then group
  else
    dict_set (lit "confidence")
      (PFloat (confidence_map (dict_get_or (lit "similarity") PNone group)))
      group.

Definition root_analysis_placeholder : pystr :=
  lit "Root analysis not provided".

Definition default_root_analysis (group : pydict) : pydict :=
  if dict_has (lit "root_analysis") group then group
  else dict_set (lit "root_analysis") (PStr root_analysis_placeholder) group.

(** Lines 236-276.  The answer is [None], or [Some] of the state in which the
    function leaves the dict it was given and returns.  A value that is not a
    dict never gets through, and a group whose [items] cannot be iterated
    raises into the handler of line 275. *)
Definition _validate_group (group : pyval) : option pydict :=
  match group with
  | PDict group =>
      if negb (forallb (fun field => dict_has field group) required_fields)
      then None
      else
        let group := normalize_similarity group in
        match iterate (dict_get_or (lit "items") PNone group) with
        | Raise _ => None
        | Ok items =>
            let validated_items := validate_items items in
            if (length validated_items <? 2)%nat then None
            else
              let group := dict_set (lit "items") (PList validated_items) group in
              let group := default_confidence group in
              Some (default_root_analysis group)
        end
  | _ => None
  end.

Record group_totals := {
  total_words : Z;
  similarity_distribution : tiers;
  total_confidence : pyval;
  language_coverage : list pyval
}.

Definition no_totals : group_totals := {|
  total_words := 0;
  similarity_distribution := no_tiers;
  total_confidence := PInt 0;
  language_coverage := []
|}.

(** Lines 312-315: the languages of the items of one group. *)
Fixpoint cover_items (coverage : list pyval) (items : list pyval)
  : res (list pyval) :=
  match items with
  | [] => Ok coverage
  | PDict d :: rest =>
      let lang := dict_get_or (lit "lang") (PStr []) d in
      if truthy lang then
        if hashable lang then cover_items (set_add lang coverage) rest
        else Raise (unhashable lang)
      else cover_items coverage rest
  | v :: _ =>
      Raise (Interp CAttributeError
               (type_name v ++ lit " object has no attribute 'get'"))
  end.

Import Store.

Notation "x <~ m ;; k" := (bindM m (fun x => k))
  (at level 100, m at next level, right associativity).

(** Lines 298-315: one round of the loop, on the [i]-th group. *)
Definition group_round (i : nat) (t : group_totals) : M group_totals :=
  items <~ record_get i (lit "items") (PList []) ;;
  group_size <~ lift (py_len items) ;;
  similarity <~ record_get i (lit "similarity") (PStr (lit "medium")) ;;
  dist <~ lift (bump_tier similarity (similarity_distribution t)) ;;
  confidence <~ record_get i (lit "confidence") (PFloat (FFin (1 # 2))) ;;
  total <~ lift (py_add (total_confidence t) confidence) ;;
  items <~ record_get i (lit "items") (PList []) ;;
  items <~ lift (iterate items) ;;
  coverage <~ lift (cover_items (language_coverage t) items) ;;
  ret {| total_words := total_words t + group_size;
         similarity_distribution := dist;
         total_confidence := total;
         language_coverage := coverage |}.

Definition tiers_dict (c : tiers) : pyval :=
  PDict [(lit "high", PInt (high c)); (lit "medium", PInt (medium c));
         (lit "low", PInt (low c))].

Definition stats_dict (total_input_words total_aligned_words groups_found : Z)
    (average_group_size : pyval) (dist : tiers) (coverage average_confidence
    alignment_rate : pyval) : pyval :=
  PDict [(lit "total_input_words", PInt total_input_words);
         (lit "total_aligned_words", PInt total_aligned_words);
         (lit "groups_found", PInt groups_found);
         (lit "average_group_size", average_group_size);
         (lit "similarity_distribution", tiers_dict dist);
         (lit "language_coverage", coverage);
         (lit "average_confidence", average_confidence);
         (lit "alignment_rate", alignment_rate)].

(** Lines 278-323, on the collection [groups] held in the store. *)
Definition _calculate_alignment_statistics (rt : runtime)
    (original_candidates : list pyval) : M pyval :=
  n <~ size ;;
  let total_input_words := Z.of_nat (length original_candidates) in
  match n with
  | O =>
      ret (stats_dict total_input_words 0 0 (PInt 0) no_tiers (PSet [])
             (PFloat (FFin 0)) (PFloat (FFin 0)))
  | _ =>
      t <~ for_each group_round (seq 0 n) no_totals ;;
      average_group_size <~
        lift (py_truediv_len (PInt (total_words t)) (Z.of_nat n)) ;;
      average_confidence <~
        lift (py_truediv_len (total_confidence t) (Z.of_nat n)) ;;
      alignment_rate <~
        lift (match original_candidates with
              | [] => Ok (PInt 0)
              | _ => py_truediv_len (PInt (total_words t)) total_input_words
              end) ;;
      ret (stats_dict total_input_words (total_words t) (Z.of_nat n)
             average_group_size (similarity_distribution t)
             (PList (list_of_set rt (language_coverage t)))
             average_confidence alignment_rate)
  end.

End CognateAligner.

(** ** modules/pce_analyzer.py *)

Module PCEAnalyzer.

Record PCEAnalyzer := {
  llm : LLMInterface;
  system_prompt : pystr
}.

(** Line 19: the set of the characters q, x, n with tilde, schwa, u with
    circumflex and o with grave. *)
Definition new_ota_letters : list pyval :=
  set_of_list (map (fun c => PStr [c]) [113; 120; 241; 601; 251; 242]%N).

(** Lines 194-201. *)
Definition _detect_new_letters (rt : runtime) (text : pystr) : pydict :=
  fold_left
    (fun new_letter_counts letter =>
       match letter with
       | PStr letter =>
           let n := count (str_lower rt letter) (str_lower rt text) in
           if 0 <? n then dict_set letter (PInt n) new_letter_counts
           else new_letter_counts
       | _ => new_letter_counts
       end)
    (list_of_set rt new_ota_letters) [].

Definition iyilestirme : pystr :=
  [304%N] ++ lit "yile" ++ [351%N] ++ lit "tirme".

(** Lines 174-180. *)
Definition improvement_category (weighted_imp : pyval) : res pystr :=
  b15 <- py_gt weighted_imp (PInt 15) ;;
  if b15 then Ok (lit "Y" ++ [252%N] ++ lit "ksek " ++ iyilestirme)
  else
    b10 <- py_gt weighted_imp (PInt 10) ;;
    if b10 then Ok (lit "Orta " ++ iyilestirme)
    else Ok (lit "D" ++ [252; 351; 252]%N ++ lit "k " ++ iyilestirme).

(** Lines 203-214. *)
Definition _rate_effectiveness (improvement : pyval) : res pystr :=
  b18 <- py_gt improvement (PInt 18) ;;
  if b18 then Ok (lit "M" ++ [252%N] ++ lit "kemmel")
  else
    b15 <- py_gt improvement (PInt 15) ;;
    if b15 then Ok ([199%N] ++ lit "ok " ++ [304%N] ++ lit "yi")
    else
      b12 <- py_gt improvement (PInt 12) ;;
      if b12 then Ok ([304%N] ++ lit "yi")
      else
        b8 <- py_gt improvement (PInt 8) ;;
        if b8 then Ok (lit "Orta")
        else Ok (lit "D" ++ [252; 351; 252]%N ++ lit "k").

(** [comparison.get(key, 0)]; a [comparison] that is not a dict has no
    [get]. *)
Definition comparison_get (comparison : pyval) (key : pystr) : res pyval :=
  match comparison with
  | PDict d => Ok (dict_get_or key (PInt 0) d)
  | _ =>
      Raise (Interp CAttributeError
               (type_name comparison ++ lit " object has no attribute 'get'"))
  end.

(** Lines 216-235. *)
Definition _generate_recommendations (comparison : pyval)
  : res (list pystr) :=
  weighted_imp <- comparison_get comparison (lit "weighted_improvement") ;;
  log_imp <- comparison_get comparison (lit "logarithmic_improvement") ;;
  b1 <- py_gt weighted_imp (PInt 15) ;;
  let r1 :=
    if b1 then
      [lit "CTA alfabesi fonetik temsilde " ++ [246%N] ++ lit "nemli iyile"
       ++ [351%N] ++ lit "tirme sa" ++ [287%N] ++ lit "lam" ++ [305; 351]%N;
       lit "Akademik " ++ [231%N] ++ lit "al" ++ [305; 351]%N
       ++ lit "malarda CTA kullan" ++ [305%N] ++ lit "m" ++ [305%N] ++ lit " "
       ++ [246%N] ++ lit "nerilir"]
    else [] in
  b2 <- py_gt log_imp (PInt 10) ;;
  let r2 :=
    if b2 then
      [lit "B" ++ [252%N] ++ lit "y" ++ [252%N]
       ++ lit "k veri setlerinde tutarl" ++ [305%N] ++ lit " performans g"
       ++ [246%N] ++ lit "steriyor";
       [214%N] ++ lit "l" ++ [231%N] ++ lit "eklenebilir uygulamalar i"
       ++ [231%N] ++ lit "in uygun"]
    else [] in
  b3 <- py_lt weighted_imp (PInt 10) ;;
  let r3 :=
    if b3 then
      [lit "Daha fazla fonetik optimizasyon gerekebilir";
       lit "Ek CTA harflerinin kullan" ++ [305%N] ++ lit "m" ++ [305%N]
       ++ lit " art" ++ [305%N] ++ lit "r" ++ [305%N] ++ lit "labilir"]
    else [] in
  Ok (r1 ++ r2 ++ r3).

(** Lines 161-167. *)
Definition metadata (rt : runtime) (original_text ota_text dataset_name : pystr)
  : pyval :=
  PDict [(lit "dataset_name", PStr dataset_name);
         (lit "original_length", PInt (Z.of_nat (length original_text)));
         (lit "ota_length", PInt (Z.of_nat (length ota_text)));
         (lit "analysis_timestamp", PStr (now_iso rt));
         (lit "new_letters_detected", PDict (_detect_new_letters rt ota_text))].

(** Lines 170-186: the [assessment] built from [comparison]. *)
Definition assessment (comparison : pyval) : res pyval :=
  weighted_imp <- comparison_get comparison (lit "weighted_improvement") ;;
  category <- improvement_category weighted_imp ;;
  rating <- _rate_effectiveness weighted_imp ;;
  recommendations <- _generate_recommendations comparison ;;
  Ok (PDict [(lit "improvement_category", PStr category);
             (lit "effectiveness_rating", PStr rating);
             (lit "recommendations", PList (map PStr recommendations))]).

(** Lines 156-192.  A [result] that is not a dict takes no item: the first
    assignment raises, and so does the one in the handler. *)
Definition _enrich_pce_result (rt : runtime) (result : pyval)
    (original_text ota_text dataset_name : pystr) : res pyval :=
  match result with
  | PDict result =>
      let result :=
        dict_set (lit "metadata")
          (metadata rt original_text ota_text dataset_name) result in
      match dict_get (lit "comparison") result with
      | Some comparison =>
          match assessment comparison with
          | Ok a => Ok (PDict (dict_set (lit "assessment") a result))
          | Raise e =>
              Ok (PDict (dict_set (lit "enrichment_error")
                           (PStr (str_exn rt e)) result))
          end
      | None => Ok (PDict result)
      end
  | _ =>
      Raise (Interp CTypeError
               (type_name result ++ lit " object does not support item assignment"))
  end.

Definition empty_text_result : pyval :=
  PDict [(lit "error",
           PStr (lit "Empty text - both original and CTA text required"))].

(** Lines 96-125. *)
Definition user_prompt (original_text ota_text dataset_name : pystr) : pystr :=
  join newline
    [lit "ORIGINAL_TEXT:";
     original_text;
     [];
     lit "CTA_TEXT:";
     ota_text;
     [];
     lit "DATASET: " ++ dataset_name;
     [];
     lit "TASK:";
     lit "Perform ACCURATE PCE analysis using the correct formulas:";
     [];
     lit "1. Count phonemes in both texts:";
     lit "   - UPC: Unique distinct phonemes (count each phoneme type once)";
     lit "   - TPC: Total phonemes in text (count all phoneme instances)";
     lit "   - ALC: Average letters per phoneme = Total_Letters / TPC";
     [];
     lit "2. Calculate PCE using CORRECT FORMULAS:";
     lit "   - Weighted PCE = (UPC/TPC) " ++ [215]%N ++ lit " ALC " ++ [215]%N ++ lit " 100";
     lit "   - Logarithmic PCE = (log(1+UPC)/log(1+TPC)) " ++ [215]%N ++ lit " (1/ALC) " ++ [215]%N ++ lit " 100";
     [];
     lit "3. Calculate improvement percentage:";
     lit "   - Improvement % = ((CTA_PCE - Original_PCE) / Original_PCE) " ++ [215]%N ++ lit " 100";
     [];
     lit "EXPECTED RESULTS (based on academic research):";
     lit "- Weighted PCE improvement: 18-19%";
     lit "- Logarithmic PCE improvement: 11-12%";
     [];
     lit "CRITICAL: Use Scale Factor = 100 to get meaningful PCE values (not 0.2 range).";
     lit "Focus on how CTA letters (q, x, " ++ [241]%N ++ lit ", " ++ [601]%N ++ lit ", " ++ [251]%N ++ lit ") increase UPC and improve phonetic representation.";
     lit "Return JSON with complete PCE metrics and Turkish explanations."].

(** [text[:100] + "..." if len(text) > 100 else text] *)
Definition excerpt (text : pystr) : pystr :=
  if (100 <? length text)%nat then firstn 100 text ++ lit "..." else text.

(** Lines 149-154. *)
Definition error_result (rt : runtime) (e : exn) (original_text ota_text : pystr)
  : pyval :=
  PDict [(lit "error",
           PStr (lit "PCE analizi hatas" ++ [305%N] ++ lit ": " ++ str_exn rt e));
         (lit "original_text", PStr (excerpt original_text));
         (lit "ota_text", PStr (excerpt ota_text))].

(** Lines 134-147: what follows the call, inside the [try]. *)
Definition after_call (rt : runtime) (original_text ota_text dataset_name : pystr)
    (response : pydict) : res pyval :=
  content <-
    match dict_get (lit "content") response with
    | Some (PStr c) => Ok c
    | _ => Raise (Interp CAttributeError (lit "strip"))
    end ;;
  result <- parse_json_response rt content ;;
  enriched_result <-
    _enrich_pce_result rt result original_text ota_text dataset_name ;;
  match enriched_result with
  | PDict d => Ok (PDict (dict_set (lit "llm_metadata") (llm_metadata response) d))
  | _ =>
      Raise (Interp CTypeError
               (type_name enriched_result
                ++ lit " object does not support item assignment"))
  end.

(** Lines 79-154. *)
Definition analyze_pce (rt : runtime) (svc : service) (self : PCEAnalyzer)
    (original_text ota_text dataset_name : pystr) : traced pyval :=
  if negb (truthy (PStr (strip original_text)))
     || negb (truthy (PStr (strip ota_text)))
  then (empty_text_result, [])
  else
    let (response, calls) :=
      call_llm rt svc (llm self) (system_prompt self)
        (user_prompt original_text ota_text dataset_name) (1 # 10) 3000 in
    match bind response (after_call rt original_text ota_text dataset_name) with
    | Ok result => (result, calls)
    | Raise e => (error_result rt e original_text ota_text, calls)
    end.

End PCEAnalyzer.

(** ** modules/transliterator.py *)

Module Transliterator.

Record TransliteratorEngine := {
  llm : LLMInterface;
  system_prompt : pystr
}.

(** Line 333: x, a with diaeresis, q, n with tilde, u with circumflex and o
    with grave, each in lower and upper case. *)
Definition new_letters : list pystr :=
  map (fun c => [c]) [120; 88; 228; 196; 113; 81; 241; 209; 251; 219; 242; 210]%N.

(** [text.count(letter)], for whatever [text] is. *)
Definition text_count (text : pyval) (letter : pystr) : res Z :=
  match text with
  | PStr s => Ok (count letter s)
  | PList l | PTuple l =>
      Ok (Z.of_nat (length (filter (fun v => is_str v letter) l)))
  | _ =>
      Raise (Interp CAttributeError
               (type_name text ++ lit " object has no attribute 'count'"))
  end.

(** Lines 331-341. *)
Fixpoint count_letters (text : pyval) (letters : list pystr) (counts : pydict)
  : res pydict :=
  match letters with
  | [] => Ok counts
  | letter :: rest =>
      n <- text_count text letter ;;
      count_letters text rest
        (if 0 <? n then dict_set letter (PInt n) counts else counts)
  end.

Definition _count_new_letters (text : pyval) : res pydict :=
  count_letters text new_letters [].

(** [validate_ota_characters] on what [for char in text] goes through when
    [text] is not a string: an item is allowed when it is a one-character
    string of [allowed_chars]; looking it up in the set hashes it. *)
Definition allowed_item (item : pyval) : bool :=
  match item with
  | PStr [c] => allowed c
  | _ => false
  end.

Fixpoint collect_invalid_items (invalid_chars : list pyval)
    (items : list pyval) : res (list pyval) :=
  match items with
  | [] => Ok invalid_chars
  | item :: rest =>
      if negb (hashable item) then Raise (unhashable item)
      else if negb (allowed_item item)
              && negb (existsb (key_eqb item) invalid_chars)
      then collect_invalid_items (invalid_chars ++ [item]) rest
      else collect_invalid_items invalid_chars rest
  end.

(** Line 301: [self.llm.validate_ota_characters(output_text)]; the invalid
    characters are given as values. *)
Definition validate_output (output_text : pyval) : res (bool * list pyval) :=
  match output_text with
  | PStr text =>
      let (is_valid, invalid_chars) := validate_ota_characters text in
      Ok (is_valid, map (fun c => PStr [c]) invalid_chars)
  | _ =>
      items <- iterate output_text ;;
      invalid_chars <- collect_invalid_items [] items ;;
      Ok (match invalid_chars with [] => true | _ => false end, invalid_chars)
  end.

(** [', '.join(values)]: every value must be a string. *)
Fixpoint strings_of (values : list pyval) : res (list pystr) :=
  match values with
  | [] => Ok []
  | PStr s :: rest => l <- strings_of rest ;; Ok (s :: l)
  | v :: _ =>
      Raise (Interp CTypeError
               (lit "sequence item: expected str instance, "
                ++ type_name v ++ lit " found"))
  end.

Definition warning_prefix : pystr :=
  lit "Warning: Invalid characters detected: ".

(** Lines 303-304: the note is appended to [notes], which is created empty
    when the result has none; only a list can be appended to. *)
Definition add_warning (invalid_chars : list pyval) (result : pydict)
  : res pydict :=
  let notes := dict_get_or (lit "notes") (PList []) result in
  let result := dict_set (lit "notes") notes result in
  match notes with
  | PList l =>
      chars <- strings_of invalid_chars ;;
      Ok (dict_set (lit "notes")
            (PList (l ++ [PStr (warning_prefix ++ join (lit ", ") chars)]))
            result)
  | _ =>
      Raise (Interp CAttributeError
               (type_name notes ++ lit " object has no attribute 'append'"))
  end.

(** Lines 307-312. *)
Definition statistics (input_text source_language : pystr)
    (output_text : pyval) : res pyval :=
  output_length <- py_len output_text ;;
  new_letters_used <- _count_new_letters output_text ;;
  Ok (PDict [(lit "input_length", PInt (Z.of_nat (length input_text)));
             (lit "output_length", PInt output_length);
             (lit "source_language", PStr source_language);
             (lit "new_letters_used", PDict new_letters_used)]).

(** Lines 297-321: the quality control of a parsed result. *)
Definition quality_control (input_text source_language : pystr)
    (response : pydict) (result : pyval) : res pyval :=
  match result with
  | PDict result =>
      if truthy (dict_get_or (lit "ok") PNone result)
         && truthy (dict_get_or (lit "output_text") PNone result)
      then
        let output_text := dict_get_or (lit "output_text") PNone result in
        v <- validate_output output_text ;;
        let (is_valid, invalid_chars) := (v : bool * list pyval) in
        result <- (if is_valid then Ok result
                   else add_warning invalid_chars result) ;;
        stats <- statistics input_text source_language output_text ;;
        let result := dict_set (lit "statistics") stats result in
        let result := dict_set (lit "llm_metadata") (llm_metadata response) result in
        Ok (PDict result)
      else Ok (PDict result)
  | _ =>
      Raise (Interp CAttributeError
               (type_name result ++ lit " object has no attribute 'get'"))
  end.

Definition empty_text_result : pyval :=
  PDict [(lit "ok", PBool false); (lit "error", PStr (lit "Empty text"))].

(** Lines 323-329. *)
Definition error_result (rt : runtime) (e : exn)
    (input_text source_language : pystr) : pyval :=
  PDict [(lit "ok", PBool false);
         (lit "error", PStr (lit "Transliteration error: " ++ str_exn rt e));
         (lit "input_text", PStr input_text);
         (lit "source_language", PStr source_language)].

(** Lines 248-282. *)
Definition user_prompt (input_text source_language : pystr) : pystr :=
  join newline
    [lit "INPUT_TEXT:";
     input_text;
     [];
     lit "SOURCE_LANGUAGE: " ++ source_language;
     [];
     lit "TASK:";
     lit "Transliterate from " ++ source_language ++ lit " to CTA following these rules:";
     [];
     lit "1. Apply CTA systematic mappings for " ++ source_language;
     lit "2. Use new CTA letters (q, x, " ++ [241]%N ++ lit ", " ++ [601; 8594; 228]%N ++ lit ", " ++ [251]%N ++ lit ") where phonetically appropriate";
     lit "3. Preserve Turkish alphabet letters (29 letters) as base";
     lit "4. Write notes in Turkish explaining changes made";
     [];
     lit "CRITICAL: Return ONLY the JSON object, no additional text:";
     lit "{" ++ [34]%N ++ lit "ok" ++ [34]%N ++ lit ": true, " ++ [34]%N ++ lit "output_text" ++ [34]%N ++ lit ": " ++ [34]%N ++ lit "..." ++ [34]%N ++ lit ", " ++ [34]%N ++ lit "notes" ++ [34]%N ++ lit ": [" ++ [34]%N ++ lit "T" ++ [252]%N ++ lit "rk" ++ [231]%N ++ lit "e a" ++ [231; 305]%N ++ lit "klama..." ++ [34]%N ++ lit "]}";
     [];
     lit "FOCUS: Turkish needs MINIMAL changes - it IS the CTA base!";
     lit "For Turkish: Apply ULTRA CONSERVATIVE approach:";
     [];
     lit "1. q: Kal" ++ [305]%N ++ lit "n " ++ [34]%N ++ lit "K" ++ [34]%N ++ lit " for back vowel contexts: " ++ [34]%N ++ lit "Kazak" ++ [34; 8594; 34]%N ++ lit "Qazaq" ++ [34]%N ++ lit ", " ++ [34]%N ++ lit "K" ++ [305]%N ++ lit "rg" ++ [305]%N ++ lit "z" ++ [34; 8594; 34]%N ++ lit "Q" ++ [305]%N ++ lit "r" ++ [287; 305]%N ++ lit "z" ++ [34]%N;
     lit "2. x: G" ++ [305]%N ++ lit "rtlaks" ++ [305]%N ++ lit " " ++ [34]%N ++ lit "H" ++ [34]%N ++ lit " for Arabic loanwords: " ++ [34]%N ++ lit "haber" ++ [34; 8594; 34]%N ++ lit "xab" ++ [601]%N ++ lit "r" ++ [34]%N ++ lit ", " ++ [34]%N ++ lit "hizmet" ++ [34; 8594; 34]%N ++ lit "xizm" ++ [601]%N ++ lit "t" ++ [34]%N ++ lit "  ";
     lit "3. " ++ [241]%N ++ lit ": Genizsi " ++ [34]%N ++ lit "N" ++ [34]%N ++ lit " for Turkic terms: " ++ [34]%N ++ lit "Tanr" ++ [305; 34; 8594; 34]%N ++ lit "Ta" ++ [241]%N ++ lit "r" ++ [305; 34]%N ++ lit ", " ++ [34]%N ++ lit "Tengri" ++ [34; 8594; 34]%N ++ lit "Te" ++ [241]%N ++ lit "ri" ++ [34]%N;
     lit "4. " ++ [601]%N ++ lit ": A" ++ [231; 305]%N ++ lit "k " ++ [34]%N ++ lit "E" ++ [34]%N ++ lit " for open e sounds: " ++ [34]%N ++ lit "herkes" ++ [34; 8594; 34]%N ++ lit "h" ++ [601]%N ++ lit "rk" ++ [601]%N ++ lit "s" ++ [34]%N ++ lit ", " ++ [34]%N ++ lit "edebiyat" ++ [34; 8594; 34; 601]%N ++ lit "d" ++ [601]%N ++ lit "biyyat" ++ [34]%N;
     lit "5. " ++ [251]%N ++ lit ": Uzatmal" ++ [305]%N ++ lit " " ++ [34]%N ++ lit "U" ++ [34]%N ++ lit " for long vowels: " ++ [34]%N ++ lit "su" ++ [34; 8594; 34]%N ++ lit "s" ++ [251; 34]%N ++ lit " (when long), meaning differentiation";
     [];
     lit "CORRECT TURKISH EXAMPLES:";
     lit "- " ++ [34]%N ++ lit "herkes geldi" ++ [34]%N ++ lit " " ++ [8594]%N ++ lit " " ++ [34]%N ++ lit "h" ++ [601]%N ++ lit "rk" ++ [601]%N ++ lit "s g" ++ [601]%N ++ lit "ldi" ++ [34]%N ++ lit " (" ++ [601]%N ++ lit " for open e's)";
     lit "- " ++ [34]%N ++ lit "ben seni seviyorum" ++ [34]%N ++ lit " " ++ [8594]%N ++ lit " " ++ [34]%N ++ lit "b" ++ [601]%N ++ lit "n s" ++ [601]%N ++ lit "ni seviyorum" ++ [34]%N ++ lit " (" ++ [601]%N ++ lit " for open e's)";
     lit "- " ++ [34]%N ++ lit "dervi" ++ [351]%N ++ lit " hikaye anlatt" ++ [305; 34]%N ++ lit " " ++ [8594]%N ++ lit " " ++ [34]%N ++ lit "d" ++ [601]%N ++ lit "rvi" ++ [351]%N ++ lit " xikay" ++ [601]%N ++ lit " anlatt" ++ [305; 34]%N ++ lit " (" ++ [601]%N ++ lit " + x)";
     lit "- " ++ [34]%N ++ lit "haber okuyor" ++ [34]%N ++ lit " " ++ [8594]%N ++ lit " " ++ [34]%N ++ lit "xab" ++ [601]%N ++ lit "r okuyor" ++ [34]%N ++ lit " (x + " ++ [601]%N ++ lit ")";
     lit "- " ++ [34]%N ++ lit "su i" ++ [231]%N ++ lit "iyorum" ++ [34]%N ++ lit " " ++ [8594]%N ++ lit " " ++ [34]%N ++ lit "s" ++ [251]%N ++ lit " i" ++ [231]%N ++ lit "iyorum" ++ [34]%N ++ lit " (" ++ [251]%N ++ lit " for long u when emphasized)";
     lit "- " ++ [34]%N ++ lit "Tengri" ++ [34]%N ++ lit " " ++ [8594]%N ++ lit " " ++ [34]%N ++ lit "Te" ++ [241]%N ++ lit "ri" ++ [34]%N ++ lit " (" ++ [241]%N ++ lit " for genizsi n)";
     lit "- " ++ [34]%N ++ lit "g" ++ [252]%N ++ lit "zel" ++ [34]%N ++ lit " " ++ [8594]%N ++ lit " " ++ [34]%N ++ lit "g" ++ [252]%N ++ lit "zel" ++ [34]%N ++ lit " (keep closed e unchanged)";
     [];
     lit "CRITICAL: Use " ++ [601]%N ++ lit " for Turkish open/front e sounds - this is core CTA principle!"].

(** Lines 293-321: what follows the call, inside the [try]. *)
Definition after_call (rt : runtime) (input_text source_language : pystr)
    (response : pydict) : res pyval :=
  content <-
    match dict_get (lit "content") response with
    | Some (PStr c) => Ok c
    | _ => Raise (Interp CAttributeError (lit "strip"))
    end ;;
  result <- parse_json_response rt content ;;
  quality_control input_text source_language response result.

(** Lines 233-329. *)
Definition transliterate (rt : runtime) (svc : service)
    (self : TransliteratorEngine) (input_text source_language : pystr)
  : traced pyval :=
  if negb (truthy (PStr (strip input_text))) then (empty_text_result, [])
  else
    let (response, calls) :=
      call_llm rt svc (llm self) (system_prompt self)
        (user_prompt input_text source_language) (1 # 10) 2000 in
    match bind response (after_call rt input_text source_language) with
    | Ok result => (result, calls)
    | Raise e => (error_result rt e input_text source_language, calls)
    end.

End Transliterator.

(** ** Notions of the specification

    What the claims speak of and the code has no name for. *)

Module Spec.

(** An object or an array. *)
Definition structured (v : pyval) : bool :=
  match v with
  | PList _ | PDict _ => true
  | _ => false
  end.

(** The text holds, somewhere, a syntactically valid object or array. *)
Definition holds_document (raw : pystr) : Prop :=
  exists pre doc post v,
    raw = pre ++ doc ++ post /\ Json.parse doc = Some v /\ structured v = true.

(** Every non-empty stretch of a text, to decide [holds_document]. *)
Fixpoint prefixes (s : pystr) : list pystr :=
  match s with
  | [] => []
  | c :: s' => [c] :: map (cons c) (prefixes s')
  end.

Fixpoint stretches (s : pystr) : list pystr :=
  match s with
  | [] => []
  | _ :: s' => prefixes s ++ stretches s'
  end.

Definition is_document (doc : pystr) : bool :=
  match Json.parse doc with
  | Some v => structured v
  | None => false
  end.

Definition holds_document_b (raw : pystr) : bool :=
  existsb is_document (stretches raw).





(** The stopping rule of the line scan as the specification words it: the
    counts of braces are taken over the whole buffer accumulated so far. *)
Definition total_count (sub : pystr) (buffer : list pystr) : Z :=
  fold_right (fun line n => count sub line + n) 0 buffer.

Definition closes_cumulative (buffer : list pystr) (line : pystr) : bool :=
  endswith rbrace line
  && (total_count lbrace buffer <=? total_count rbrace buffer).

Fixpoint scan_lines_cumulative (json_started : bool) (buffer : list pystr)
    (lines : list pystr) : list pystr :=
  match lines with
  | [] => buffer
  | raw_line :: rest =>
      let line := strip raw_line in
      let json_started := json_started || startswith lbrace line in
      if json_started
      then
        let buffer := buffer ++ [line] in
        if closes_cumulative buffer line then buffer
        else scan_lines_cumulative true buffer rest
      else scan_lines_cumulative false buffer rest
  end.

(** The improvement percentage as the specification defines it, with its
    guard: [0] when the original score is [0]. *)
Definition improvement_pct (original_score normalized_score : Q) : Q :=
  if Qeq_bool original_score 0 then 0
  else Qred ((normalized_score - original_score) / original_score * 100).

(** The two improvements a comparison reports, as [comparison.get(key, 0)]
    reads them: [0] stands for an absent one. *)
Definition reported_improvements (comparison : pydict) : pydict :=
  [(lit "weighted_improvement",
     dict_get_or (lit "weighted_improvement") (PInt 0) comparison);
   (lit "logarithmic_improvement",
     dict_get_or (lit "logarithmic_improvement") (PInt 0) comparison)].

(** The characters of a text that occur in it for the first time, in order. *)
Fixpoint first_occurrences (l : list char) : list char :=
  match l with
  | [] => []
  | c :: rest =>
      c :: filter (fun d => negb (N.eqb d c)) (first_occurrences rest)
  end.

(** A task result of the failure kind: a dict with an [error] entry. *)
Definition carries_error (result : pyval) : bool :=
  match result with
  | PDict d => dict_has (lit "error") d
  | _ => false
  end.

(** A string that does not begin with white space. *)
Definition head_ok (s : pystr) : Prop :=
  match s with
  | [] => True
  | c :: _ => is_space c = false
  end.

(** What the risk validator stores as confidence, given what it found
    there. *)
Definition normalized (c : pyval) : pyfloat :=
  match py_float c with
  | Ok x => RiskAnalyzer.clamp x
  | Raise _ => FFin (1 # 2)
  end.

(** The similarity a group has once line 247 of the aligner is passed. *)
Definition tier_of (similarity : pyval) : pyval :=
  if in_strs similarity CognateAligner.similarities then similarity
  else PStr (lit "medium").

(** A character outside [allowed_chars]. *)
Definition invalid (c : char) : bool := negb (allowed c).

(** The note of line 304 of the transliterator for an output text. *)
Definition warning_note (output : pystr) : pyval :=
  PStr (Transliterator.warning_prefix
        ++ join (lit ", ")
             (map (fun c => [c]) (first_occurrences (filter invalid output)))).

(** A float of the closed interval from 0 to 1. *)
Definition in_unit_interval (f : pyfloat) : Prop :=
  match f with
  | FFin q => (0 <= q /\ q <= 1)%Q
  | _ => False
  end.

End Spec.

(** ** Sample inputs *)

Module Samples.

(** Scenario A of the specification: prose, then a fenced block holding one
    object on one line. *)
Definition harkas : pystr := [104; 601; 114; 107; 601; 115]%N.

Definition fenced_object_line : pystr :=
  jlit "{'ok': true, 'output_text': '" ++ harkas
  ++ jlit "', 'notes': ['a" ++ [231; 305]%N ++ jlit "klama']}".

Definition fenced_response : pystr :=
  join newline
    [lit "Here is the result:"; lit "```json"; fenced_object_line; lit "```"].


(** A prefix label inside what is otherwise not a document. *)
Definition spliced_by_prefix : pystr := jlit "{'a'OUTPUT:: 1}".

(** An object over three lines whose second line closes the inner object. *)
Definition nested_lines : list pystr :=
  [jlit "{'a': {"; jlit "'b': 1}"; jlit "}"].

Definition nested_response : pystr := join newline nested_lines.






(** A reply in the layout that the aligner's prompt asks for
    (cognate_aligner.py, lines 48-65), pretty-printed, with two groups. *)
Definition two_group_lines : list pystr :=
  [jlit "{";
   jlit "  'groups': [";
   jlit "    {";
   jlit "      'similarity': 'high',";
   jlit "      'items': [";
   jlit "        {'lang': 'tr', 'original': 'su', 'ota': 'su'},";
   jlit "        {'lang': 'az', 'original': 'su', 'ota': 'su'}";
   jlit "      ],";
   jlit "      'rationale': 'Ortak kok',";
   jlit "      'confidence': 0.75,";
   jlit "      'root_analysis': 'Proto-Turkce su'";
   jlit "    },";
   jlit "    {";
   jlit "      'similarity': 'low',";
   jlit "      'items': [";
   jlit "        {'lang': 'tr', 'original': 'ev', 'ota': 'ev'},";
   jlit "        {'lang': 'uz', 'original': 'uy', 'ota': 'uy'}";
   jlit "      ],";
   jlit "      'rationale': 'Ses degisimi',";
   jlit "      'confidence': 0.5,";
   jlit "      'root_analysis': 'Proto-Turkce eb'";
   jlit "    }";
   jlit "  ],";
   jlit "  'statistics': {";
   jlit "    'total_words': 4,";
   jlit "    'groups_found': 2,";
   jlit "    'average_group_size': 2";
   jlit "  }";
   jlit "}"].

Definition two_group_reply : pystr := join newline two_group_lines.

Definition item (lang original ota : string) : pyval :=
  PDict [(lit "lang", PStr (lit lang)); (lit "original", PStr (lit original));
         (lit "ota", PStr (lit ota))].

Definition first_group : pyval :=
  PDict [(lit "similarity", PStr (lit "high"));
         (lit "items", PList [item "tr" "su" "su"; item "az" "su" "su"]);
         (lit "rationale", PStr (lit "Ortak kok"));
         (lit "confidence", PFloat (FFin (3 # 4)));
         (lit "root_analysis", PStr (lit "Proto-Turkce su"))].

Definition second_group : pyval :=
  PDict [(lit "similarity", PStr (lit "low"));
         (lit "items", PList [item "tr" "ev" "ev"; item "uz" "uy" "uy"]);
         (lit "rationale", PStr (lit "Ses degisimi"));
         (lit "confidence", PFloat (FFin (1 # 2)));
         (lit "root_analysis", PStr (lit "Proto-Turkce eb"))].

Definition two_group_document : pyval :=
  PDict [(lit "groups", PList [first_group; second_group]);
         (lit "statistics",
           PDict [(lit "total_words", PInt 4); (lit "groups_found", PInt 2);
                  (lit "average_group_size", PInt 2)])].

End Samples.

Module RiskSamples.

Definition risk_with (letter confidence : pyval) : pydict :=
  [(lit "letter", letter);
   (lit "possible_confusions", PList [PStr (lit "k")]);
   (lit "languages", PList [PStr (lit "kk")]);
   (lit "examples", PList []);
   (lit "confidence", confidence)].

(** All required fields, a confidence of 1.4, and a letter that is a
    number. *)
Definition numeric_letter : pydict :=
  risk_with (PInt 5) (PFloat (FFin (7 # 5))).

(** A confidence that is an integer too large for a float. *)
Definition huge_confidence : pydict :=
  risk_with (PStr (lit "q")) (PInt (10 ^ 400)).

(** Scenario B of the specification. *)
Definition string_confidence : pydict :=
  risk_with (PStr (lit "q")) (PStr (lit "0.95")).

Definition large_confidence : pydict :=
  risk_with (PStr (lit "q")) (PFloat (FFin (7 # 5))).

End RiskSamples.

Module CognateSamples.

Definition item (lang original : string) : pyval :=
  PDict [(lit "lang", PStr (lit lang)); (lit "original", PStr (lit original))].

(** Two well-formed items and a similarity, but no rationale. *)
Definition no_rationale : pydict :=
  [(lit "similarity", PStr (lit "high"));
   (lit "items", PList [item "tr" "sehir"; item "uz" "shahar"])].

(** Scenario C of the specification: the lone group. *)
Definition lone_group : pydict :=
  [(lit "similarity", PStr (lit "high"));
   (lit "items", PList [item "tr" "sehir"; item "uz" "shahar"]);
   (lit "rationale", PStr (lit "r"))].

End CognateSamples.

Module PCESamples.

(** A response with an original weighted score of 100, a normalized one of
    119, and an improvement that the service reports as 5. *)
Definition reported_five : pydict :=
  [(lit "original_analysis", PDict [(lit "weighted_pce", PInt 100)]);
   (lit "ota_analysis", PDict [(lit "weighted_pce", PInt 119)]);
   (lit "comparison", PDict [(lit "weighted_improvement", PInt 5)])].

(** A response with an original score of 0 and no comparison. *)
Definition zero_original : pydict :=
  [(lit "original_analysis", PDict [(lit "weighted_pce", PInt 0)]);
   (lit "ota_analysis", PDict [(lit "weighted_pce", PInt 119)])].

End PCESamples.

Module TaskSamples.

(** A service that is never reached in the samples below. *)
Definition silent_service : service :=
  fun _ => inr (Interp CException (lit "unreachable")).

Definition interface : LLMInterface :=
  {| client := true; model := lit "gpt-4" |}.

Definition risk_analyzer : RiskAnalyzer.RiskAnalyzer :=
  {| RiskAnalyzer.llm := interface; RiskAnalyzer.system_prompt := lit "ROLE" |}.

Definition pce_analyzer : PCEAnalyzer.PCEAnalyzer :=
  {| PCEAnalyzer.llm := interface; PCEAnalyzer.system_prompt := lit "ROLE" |}.

Definition engine : Transliterator.TransliteratorEngine :=
  {| Transliterator.llm := interface;
     Transliterator.system_prompt := lit "ROLE" |}.

(** White space only: two spaces and a line feed. *)
Definition blank : pystr := [32; 32; 10]%N.

(** A text with none of the tracked letters. *)
Definition plain_text : pystr := lit "merhaba".

(** A reply of the service whose content is [content]. *)
Definition reply_with (content : pystr) : llm_reply :=
  {| rp_content := content;
     rp_model := lit "gpt-4";
     rp_prompt_tokens := 10;
     rp_completion_tokens := 20;
     rp_total_tokens := 30;
     rp_response_time := FFin (1 # 2);
     rp_timestamp := FFin 0 |}.

(** An output with two characters outside the alphabet, [#] twice and [@]
    once, and a list of notes. *)
Definition marked_output : pystr :=
  jlit "{'ok': true, 'output_text': 'a#b@c#', 'notes': ['n']}".

(** The same output with a string where the notes should be. *)
Definition marked_output_string_notes : pystr :=
  jlit "{'ok': true, 'output_text': 'a#b@c#', 'notes': 'n'}".

(** The same notes with an output inside the alphabet. *)
Definition clean_output_string_notes : pystr :=
  jlit "{'ok': true, 'output_text': 'abc', 'notes': 'n'}".

End TaskSamples.

(** ** Shapes of validated records

    What the validators promise about a record they return, as predicates. *)

Module Shapes.

Definition is_list (v : option pyval) : bool :=
  match v with
  | Some (PList _) => true
  | _ => false
  end.

(** A risk as [_validate_and_enrich_risk] leaves it. *)
Definition validated_risk (d : pydict) : Prop :=
  (exists letter, dict_get (lit "letter") d = Some (PStr letter))
  /\ is_list (dict_get (lit "possible_confusions") d) = true
  /\ is_list (dict_get (lit "languages") d) = true
  /\ is_list (dict_get (lit "examples") d) = true
  /\ (exists f,
        dict_get (lit "confidence") d = Some (PFloat f)
        /\ Spec.in_unit_interval f)
  /\ (exists s,
        dict_get (lit "severity") d = Some (PStr s)
        /\ In s RiskAnalyzer.severities)
  /\ dict_has (lit "context") d = true
  /\ (exists n,
        dict_get (lit "frequency_in_text") d = Some (PInt n) /\ 0 <= n).

(** An item of a group as [_validate_group] leaves it. *)
Definition validated_item (item : pyval) : bool :=
  match item with
  | PDict d =>
      dict_has (lit "lang") d && dict_has (lit "original") d
      && dict_has (lit "ota") d
  | _ => false
  end.

(** A group as [_validate_group] leaves it. *)
Definition validated_group (d : pydict) : Prop :=
  (exists s,
     dict_get (lit "similarity") d = Some (PStr s)
     /\ In s CognateAligner.similarities)
  /\ (exists items,
        dict_get (lit "items") d = Some (PList items)
        /\ (2 <= length items)%nat
        /\ forallb validated_item items = true)
  /\ dict_has (lit "rationale") d = true
  /\ dict_has (lit "confidence") d = true
  /\ dict_has (lit "root_analysis") d = true.

End Shapes.

Module Settled.

(** A risk on which [_validate_and_enrich_risk] has nothing left to do for
    the text [text]. *)
Definition settled_risk (rt : runtime) (text : pystr) (d : pydict) : Prop :=
  forallb (fun field => dict_has field d) RiskAnalyzer.required_fields = true
  /\ Shapes.is_list (dict_get (lit "possible_confusions") d) = true
  /\ Shapes.is_list (dict_get (lit "languages") d) = true
  /\ Shapes.is_list (dict_get (lit "examples") d) = true
  /\ (exists f,
        dict_get (lit "confidence") d = Some (PFloat f)
        /\ RiskAnalyzer.clamp f = f)
  /\ (exists s,
        dict_get (lit "severity") d = Some s
        /\ in_strs s RiskAnalyzer.severities = true)
  /\ dict_has (lit "context") d = true
  /\ (exists letter,
        dict_get (lit "letter") d = Some (PStr letter)
        /\ dict_get (lit "frequency_in_text") d
           = Some (PInt (count (str_lower rt letter) text
                         + count (str_upper rt letter) text))).

(** A group on which [_validate_group] has nothing left to do. *)
Definition settled_group (d : pydict) : Prop :=
  forallb (fun field => dict_has field d) CognateAligner.required_fields = true
  /\ (exists s,
        dict_get (lit "similarity") d = Some s
        /\ in_strs s CognateAligner.similarities = true)
  /\ (exists items,
        dict_get (lit "items") d = Some (PList items)
        /\ (2 <= length items)%nat
        /\ forallb Shapes.validated_item items = true)
  /\ dict_has (lit "confidence") d = true
  /\ dict_has (lit "root_analysis") d = true.

End Settled.

(** ** What the statistics add up to *)

From Stdlib Require Import Sorted.

Module Totals.

(** The records counted by a three-way counter. *)
Definition tier_sum (c : tiers) : Z := low c + medium c + high c.

(** The records counted by a table of counts by key. *)
Definition count_sum (m : list (pyval * Z)) : Z :=
  fold_right Z.add 0 (map snd m).

(** [a] comes before [b] in a ranking by decreasing count. *)
Definition by_count_desc (a b : pyval * Z) : Prop := snd b <= snd a.

(** The pairs [(letter, count)] as the statistics hold them. *)
Definition ranking (top : list (pyval * Z)) : pyval :=
  PList (map (fun kv => PTuple [fst kv; PInt (snd kv)]) top).

End Totals.

Module StatsSamples.

Definition risk (letter severity : string) (confidence : Q) : pyval :=
  PDict [(lit "letter", PStr (lit letter));
         (lit "possible_confusions", PList [PStr (lit "k")]);
         (lit "languages", PList [PStr (lit "kk"); PStr (lit "tr")]);
         (lit "examples", PList []);
         (lit "confidence", PFloat (FFin confidence));
         (lit "severity", PStr (lit severity));
         (lit "context", PStr (lit "c"));
         (lit "frequency_in_text", PInt 1)].

Definition three_risks : list pyval :=
  [risk "q" "high" (9 # 10); risk "x" "low" (1 # 2); risk "q" "medium" (1 # 4)].

End StatsSamples.

Module Inputs.

(** A validated risk whose languages can be put in a set. *)
Definition countable_risk (risk : pyval) : Prop :=
  exists d langs,
    risk = PDict d
    /\ Shapes.validated_risk d
    /\ dict_get (lit "languages") d = Some (PList langs)
    /\ forallb hashable langs = true.

End Inputs.

Module Words.

(** [len(group.get("items", []))], for a group that has a length there. *)
Definition group_size (group : pyval) : Z :=
  match group with
  | PDict d =>
      match py_len (dict_get_or (lit "items") (PList []) d) with
      | Ok n => n
      | Raise _ => 0
      end
  | _ => 0
  end.

(** The items of all the groups. *)
Definition aligned_words (groups : list pyval) : Z :=
  fold_right Z.add 0 (map group_size groups).

End Words.

Module GroupSamples.

Definition group (similarity : string) (items : list pyval) : pyval :=
  PDict [(lit "similarity", PStr (lit similarity));
         (lit "items", PList items);
         (lit "rationale", PStr (lit "r"));
         (lit "confidence", PFloat (FFin (4 # 5)));
         (lit "root_analysis", PStr (lit "a"))].

Definition two_groups : list pyval :=
  [group "high" [CognateSamples.item "tr" "sehir";
                 CognateSamples.item "uz" "shahar"];
   group "low" [CognateSamples.item "tr" "su"; CognateSamples.item "kk" "sw";
                CognateSamples.item "az" "su"]].

End GroupSamples.

Module Results.

(** What [analyze_risks] answers with: a dict whose risks are a list of
    validated records (or the placeholder of the text without tracked
    letters), empty when the dict carries an error, and with statistics and
    metadata when it does not. *)
Definition risks_result (result : pyval) : Prop :=
  exists d risks,
    result = PDict d
    /\ dict_get (lit "risks") d = Some (PList risks)
    /\ Forall
         (fun risk =>
            risk = RiskAnalyzer.placeholder_risk
            \/ exists r, risk = PDict r /\ Shapes.validated_risk r)
         risks
    /\ (dict_has (lit "error") d = true -> risks = [])
    /\ (dict_has (lit "error") d = false
        -> dict_has (lit "statistics") d = true
           /\ dict_has (lit "llm_metadata") d = true).

Definition is_dict (v : pyval) : bool :=
  match v with PDict _ => true | _ => false end.

(** The error message of a result, when it has one. *)
Definition error_of (result : pyval) : option pyval :=
  match result with
  | PDict d => dict_get (lit "error") d
  | _ => None
  end.

End Results.

Module FailureSamples.

(** An interface on which no API key was set. *)
Definition no_key : LLMInterface := {| client := false; model := lit "gpt-4" |}.

Definition risk_analyzer : RiskAnalyzer.RiskAnalyzer :=
  {| RiskAnalyzer.llm := no_key; RiskAnalyzer.system_prompt := lit "ROLE" |}.

Definition pce_analyzer : PCEAnalyzer.PCEAnalyzer :=
  {| PCEAnalyzer.llm := no_key; PCEAnalyzer.system_prompt := lit "ROLE" |}.

Definition engine : Transliterator.TransliteratorEngine :=
  {| Transliterator.llm := no_key;
     Transliterator.system_prompt := lit "ROLE" |}.

(** A service that is down. *)
Definition timeout : exn := Raised CException (lit "Request timed out.").

Definition down : service := fun _ => inr timeout.

Definition text : pystr := lit "Qazaq xalqi".

End FailureSamples.

Module Comparisons.

Definition is_number (v : pyval) : bool :=
  match as_number v with Some _ => true | None => false end.

(** A [comparison] that [_enrich_pce_result] can assess: a dict whose
    weighted and logarithmic improvements (0 when absent) are numbers. *)
Definition assessable (comparison : pyval) : bool :=
  match comparison with
  | PDict c =>
      is_number (dict_get_or (lit "weighted_improvement") (PInt 0) c)
      && is_number (dict_get_or (lit "logarithmic_improvement") (PInt 0) c)
  | _ => false
  end.

(** A comparison whose improvement came back as a text. *)
Definition percent_text : pydict :=
  [(lit "original_analysis", PDict [(lit "weighted_pce", PInt 100)]);
   (lit "comparison",
     PDict [(lit "weighted_improvement", PStr (lit "18.5%"))])].

End Comparisons.

(** ** modules/report_generator.py *)

Module ReportGenerator.

(** Lines 442-450: the table, in the order a dict keeps its keys: schwa,
    n with tilde, u with circumflex, o with grave, a, i and o with
    circumflex. *)
Definition replacements : list (pystr * pystr) :=
  [([601%N], lit "e"); ([241%N], lit "n"); ([251%N], lit "u");
   ([242%N], lit "o"); ([226%N], lit "a"); ([238%N], lit "i");
   ([244%N], lit "o")].

(** Lines 439-456. *)
Definition _make_pdf_safe (text : pystr) : pystr :=
  fold_left
    (fun safe_text kv => replace (fst kv) (snd kv) safe_text)
    replacements text.

(** The characters the table replaces. *)
Definition replaced_chars : list N := flat_map fst replacements.

End ReportGenerator.

(** ** modules/cognate_aligner.py: the task *)

Module CognateTasks.

Import CognateAligner.

Record CognateAligner := {
  llm : LLMInterface;
  system_prompt : pystr
}.

(** Lines 13-25. *)
Definition supported_languages : list (pystr * pystr) :=
  [(lit "tr", lit "Turkish"); (lit "az", lit "Azerbaijani");
   (lit "uz", lit "Uzbek"); (lit "kk", lit "Kazakh"); (lit "ky", lit "Kyrgyz");
   (lit "tk", lit "Turkmen"); (lit "tt", lit "Tatar"); (lit "ba", lit "Bashkir");
   (lit "cv", lit "Chuvash"); (lit "sah", lit "Sakha"); (lit "ug", lit "Uyghur")].

(** A candidate: the dict of lines 163-167, whose three keys are fixed and
    whose values are strings. *)
Record candidate := {
  lang : pystr;
  original : pystr;
  language_name : pystr
}.

Definition candidate_dict (c : candidate) : pyval :=
  PDict [(lit "lang", PStr (lang c));
         (lit "original", PStr (original c));
         (lit "language_name", PStr (language_name c))].

(** [s.split(sep, 1)] for a non-empty [sep]: one part, or the parts before
    and after the first [sep]. *)
Fixpoint split_once_from (sep cur s : pystr) : list pystr :=
  match s with
  | [] => [rev cur]
  | c :: s' =>
      if startswith sep s then [rev cur; skipn (length sep) s]
      else split_once_from sep (c :: cur) s'
  end.

Definition split_once (sep s : pystr) : list pystr := split_once_from sep [] s.

(** [self.supported_languages.get(lang_code, lang_code.upper())] *)
Definition language_of (rt : runtime) (lang_code : pystr) : pystr :=
  match find (fun kv => str_eqb (fst kv) lang_code) supported_languages with
  | Some kv => snd kv
  | None => str_upper rt lang_code
  end.

(** Lines 152-169: what one line adds to [candidates].  Unpacking anything
    but two parts is the [ValueError] of line 168. *)
Definition parse_line (rt : runtime) (line : pystr) : list candidate :=
  let line := strip line in
  if negb (truthy (PStr line)) || negb (contains (lit ":") line) then []
  else
    match split_once (lit ":") line with
    | [lang_code; word] =>
        let lang_code := str_lower rt (strip lang_code) in
        let word := strip word in
        if truthy (PStr lang_code) && truthy (PStr word)
        then [{| lang := lang_code; original := word;
                 language_name := language_of rt lang_code |}]
        else []
    | _ => []
    end.

(** Lines 146-170. *)
Definition _parse_candidates (rt : runtime) (input_text : pystr)
  : list candidate :=
  flat_map (parse_line rt) (split newline (strip input_text)).

(** Line 175. *)
Definition candidate_line (c : candidate) : pystr :=
  lit "- " ++ lang c ++ lit ": " ++ original c ++ lit " ("
  ++ language_name c ++ lit ")".

(** Lines 172-199. *)
Definition _create_user_prompt (candidates : list candidate) : pystr :=
  let candidates_text := join newline (map candidate_line candidates) in
  join newline
    [lit "CANDIDATE WORDS:";
     candidates_text;
     [];
     lit "TASK:";
     lit "1) Transliterate each word according to CTA rules";
     lit "2) Group by phonetic similarity after CTA normalization";
     lit "3) Identify systematic sound correspondences";
     lit "4) Provide confidence scores and rationales";
     [];
     lit "FOCUS POINTS:";
     lit "- Systematic sound changes (k~q, sh~" ++ [351]%N ++ lit ", etc.)";
     lit "- Morphological analysis (root + affixes)";
     lit "- Semantic relationships";
     lit "- Historical sound correspondences";
     [];
     lit "CRITICAL: Write ALL " ++ [34]%N ++ lit "rationale" ++ [34]%N ++ lit " and " ++ [34]%N ++ lit "root_analysis" ++ [34]%N ++ lit " fields in TURKISH!";
     lit "Examples:";
     lit "- rationale: " ++ [34]%N ++ lit "Ortak T" ++ [252]%N ++ lit "rk" ++ [231]%N ++ lit "e k" ++ [246]%N ++ lit "k, sistematik ses uyu" ++ [351]%N ++ lit "mas" ++ [305]%N ++ lit " (sh" ++ [8596; 351]%N ++ lit ")" ++ [34]%N;
     lit "- root_analysis: " ++ [34]%N ++ lit "Proto-T" ++ [252]%N ++ lit "rk" ++ [231]%N ++ lit "e *su k" ++ [246]%N ++ lit "k" ++ [252]%N ++ lit "nden t" ++ [252]%N ++ lit "remi" ++ [351; 34]%N;
     [];
     lit "Return result in specified JSON format - with TURKISH explanations."].

(** [key in v] for a string [key]: a key of a dict, an item of a list, a
    part of a string; other values cannot be searched. *)
Definition py_in (key : pystr) (v : pyval) : res bool :=
  match v with
  | PDict d => Ok (dict_has key d)
  | PList l | PTuple l | PSet l => Ok (existsb (fun x => is_str x key) l)
  | PStr s => Ok (contains key s)
  | _ =>
      Raise (Interp CTypeError
               (lit "argument of type " ++ type_name v ++ lit " is not iterable"))
  end.

(** [v[key]] for a string [key] *)
Definition getitem (v : pyval) (key : pystr) : res pyval :=
  match v with
  | PDict d =>
      match dict_get key d with
      | Some x => Ok x
      | None => Raise (Interp CKeyError key)
      end
  | _ =>
      Raise (Interp CTypeError (type_name v ++ lit " indices must be integers"))
  end.

(** [v[key] = x] for a string [key] *)
Definition setitem (v : pyval) (key : pystr) (x : pyval) : res pyval :=
  match v with
  | PDict d => Ok (PDict (dict_set key x d))
  | _ =>
      Raise (Interp CTypeError
               (type_name v ++ lit " object does not support item assignment"))
  end.

(** [v.get(key, default)] *)
Definition py_get (v : pyval) (key : pystr) (default : pyval) : res pyval :=
  match v with
  | PDict d => Ok (dict_get_or key default d)
  | _ =>
      Raise (Interp CAttributeError
               (type_name v ++ lit " object has no attribute 'get'"))
  end.

(** Lines 212-216: the loop that keeps the groups the validator returns;
    [total_words] is never read, but its update takes the length of the
    items of the group. *)
Fixpoint validate_loop (groups validated_groups : list pyval) (total_words : Z)
  : res (list pyval) :=
  match groups with
  | [] => Ok validated_groups
  | group :: rest =>
      match _validate_group group with
      | Some validated_group =>
          if truthy (PDict validated_group) then
            items <- getitem (PDict validated_group) (lit "items") ;;
            n <- py_len items ;;
            validate_loop rest (validated_groups ++ [PDict validated_group])
              (total_words + n)
          else validate_loop rest validated_groups total_words
      | None => validate_loop rest validated_groups total_words
      end
  end.

Section Summary.

Variable rt : runtime.

(** [format(value, spec)], as the format specifications of lines 334-336
    apply it to the averages. *)
Variable format : pyval -> pystr -> res pystr.

Definition no_alignment : pystr :=
  lit "Hi" ++ [231]%N ++ lit "bir kognat hizalamas" ++ [305]%N
  ++ lit " bulunamad" ++ [305]%N ++ lit ".".

(** Lines 325-348. *)
Definition _generate_alignment_summary (groups : list pyval)
    (statistics : pyval) : res pystr :=
  match groups with
  | [] => Ok no_alignment
  | _ =>
      let summary := lit "Kognat Hizalama " ++ [214]%N ++ lit "zeti:" ++ newline in
      groups_found <- getitem statistics (lit "groups_found") ;;
      let summary :=
        summary ++ lit "- " ++ py_str rt groups_found ++ lit " grup bulundu"
        ++ newline in
      total_aligned_words <- getitem statistics (lit "total_aligned_words") ;;
      let summary :=
        summary ++ lit "- Toplam " ++ py_str rt total_aligned_words
        ++ lit " kelime hizaland" ++ [305]%N ++ newline in
      average_group_size <- getitem statistics (lit "average_group_size") ;;
      average_group_size <- format average_group_size (lit ".1f") ;;
      let summary :=
        summary ++ lit "- Ortalama grup b" ++ [252]%N ++ lit "y" ++ [252]%N
        ++ lit "kl" ++ [252; 287; 252]%N ++ lit ": " ++ average_group_size
        ++ newline in
      alignment_rate <- getitem statistics (lit "alignment_rate") ;;
      alignment_rate <- format alignment_rate (lit ".1%") ;;
      let summary :=
        summary ++ lit "- Hizalama oran" ++ [305]%N ++ lit ": "
        ++ alignment_rate ++ newline in
      average_confidence <- getitem statistics (lit "average_confidence") ;;
      average_confidence <- format average_confidence (lit ".2f") ;;
      let summary :=
        summary ++ lit "- Ortalama g" ++ [252]%N ++ lit "ven skoru: "
        ++ average_confidence ++ newline in
      dist <- getitem statistics (lit "similarity_distribution") ;;
      high <- getitem dist (lit "high") ;;
      let summary :=
        summary ++ lit "- Y" ++ [252]%N ++ lit "ksek benzerlik: "
        ++ py_str rt high ++ lit " grup" ++ newline in
      medium <- getitem dist (lit "medium") ;;
      let summary :=
        summary ++ lit "- Orta benzerlik: " ++ py_str rt medium ++ lit " grup"
        ++ newline in
      low <- getitem dist (lit "low") ;;
      let summary :=
        summary ++ lit "- D" ++ [252; 351; 252]%N ++ lit "k benzerlik: "
        ++ py_str rt low ++ lit " grup" ++ newline in
      languages <- getitem statistics (lit "language_coverage") ;;
      languages <- iterate languages ;;
      languages <- Transliterator.strings_of languages ;;
      Ok (summary ++ lit "- Kapsanan diller: " ++ join (lit ", ") languages
          ++ newline)
  end.

(** Lines 229-234. *)
Definition validation_error (e : exn) (result : pyval) : pyval :=
  PDict [(lit "groups", PList []);
         (lit "error", PStr (lit "Result validation error: " ++ str_exn rt e));
         (lit "original_result", result)].

(** Lines 201-234.  [result] is followed through its assignments, so that the
    handler reports it as it is when the exception is raised.  The list that
    line 218 stores in [result] is the one the statistics are then given, so
    [result] holds it as the statistics leave it. *)
Definition _validate_and_enrich_result (result : pyval)
    (original_candidates : list pyval) : pyval :=
  match py_in (lit "groups") result with
  | Raise e => validation_error e result
  | Ok has_groups =>
  match (if has_groups then Ok result
         else setitem result (lit "groups") (PList [])) with
  | Raise e => validation_error e result
  | Ok result =>
  match (groups <- getitem result (lit "groups") ;; iterate groups) with
  | Raise e => validation_error e result
  | Ok groups =>
  match validate_loop groups [] 0 with
  | Raise e => validation_error e result
  | Ok validated_groups =>
  let (statistics, validated_groups) :=
    _calculate_alignment_statistics rt original_candidates validated_groups in
  match setitem result (lit "groups") (PList validated_groups) with
  | Raise e => validation_error e result
  | Ok result =>
  match statistics with
  | Raise e => validation_error e result
  | Ok statistics =>
  match setitem result (lit "statistics") statistics with
  | Raise e => validation_error e result
  | Ok result =>
  match _generate_alignment_summary validated_groups statistics with
  | Raise e => validation_error e result
  | Ok summary =>
  match setitem result (lit "summary") (PStr summary) with
  | Raise e => validation_error e result
  | Ok result => result
  end end end end end end end end end.

(** Lines 116-125: a reply that is one group is put in a list of groups. *)
Definition wrap_single_group (result : pyval) (candidates : list candidate)
  : res pyval :=
  has_similarity <- py_in (lit "similarity") result ;;
  single <-
    (if has_similarity
     then has_groups <- py_in (lit "groups") result ;; Ok (negb has_groups)
     else Ok false) ;;
  if (single : bool) then
    items <- py_get result (lit "items") (PList []) ;;
    average_group_size <- py_len items ;;
    Ok (PDict [(lit "groups", PList [result]);
               (lit "statistics",
                 PDict [(lit "total_words",
                          PInt (Z.of_nat (length candidates)));
                        (lit "groups_found", PInt 1);
                        (lit "average_group_size", PInt average_group_size)])])
  else Ok result.

(** Lines 113-137: what follows the call, inside the [try]. *)
Definition after_call (candidates : list candidate) (response : pydict)
  : res pyval :=
  content <-
    match dict_get (lit "content") response with
    | Some (PStr c) => Ok c
    | _ => Raise (Interp CAttributeError (lit "strip"))
    end ;;
  result <- parse_json_response rt content ;;
  result <- wrap_single_group result candidates ;;
  let validated_result :=
    _validate_and_enrich_result result (map candidate_dict candidates) in
  setitem validated_result (lit "llm_metadata") (llm_metadata response).

(** Lines 93-98. *)
Definition no_candidates_result (candidates_input : pystr) : pyval :=
  PDict [(lit "groups", PList []);
         (lit "error",
           PStr (lit "No valid candidate words found. Format: 'language_code:word' (e.g.: tr:"
                 ++ [351]%N ++ lit "ehir)"));
         (lit "input", PStr candidates_input)].

(** Lines 139-144. *)
Definition error_result (e : exn) (candidates : list candidate) : pyval :=
  PDict [(lit "groups", PList []);
         (lit "error", PStr (lit "Cognate alignment error: " ++ str_exn rt e));
         (lit "candidates", PList (map candidate_dict candidates))].

(** Lines 80-144. *)
Definition align_cognates (svc : service) (self : CognateAligner)
    (candidates_input : pystr) : traced pyval :=
  let candidates := _parse_candidates rt candidates_input in
  match candidates with
  | [] => (no_candidates_result candidates_input, [])
  | _ =>
      let user_prompt := _create_user_prompt candidates in
      let (response, calls) :=
        call_llm rt svc (llm self) (system_prompt self) user_prompt
          (3 # 10) 3000 in
      match bind response (after_call candidates) with
      | Ok result => (result, calls)
      | Raise e => (error_result e candidates, calls)
      end
  end.

End Summary.

End CognateTasks.

Module Entries.

Import CognateTasks.

(** An entry [(code, word)] written the way the input format asks for: no
    white space around the code or the word, a code in lower case without a
    colon, and no line feed in either. *)
Definition clean_entry (rt : runtime) (entry : pystr * pystr) : Prop :=
  let (code, word) := entry in
  code <> [] /\ word <> []
  /\ strip code = code /\ strip word = word
  /\ str_lower rt code = code
  /\ ~ In 58%N code /\ ~ In 10%N code /\ ~ In 10%N word.

(** The line [code:word] of an entry. *)
Definition entry_line (entry : pystr * pystr) : pystr :=
  fst entry ++ lit ":" ++ snd entry.

(** The candidate of an entry. *)
Definition entry_candidate (rt : runtime) (entry : pystr * pystr) : candidate :=
  {| lang := fst entry; original := snd entry;
     language_name := language_of rt (fst entry) |}.

Definition sample_entries : list (pystr * pystr) :=
  [(lit "tr", lit "sehir"); (lit "uz", lit "shahar"); (lit "xx", lit "a b")].

End Entries.

Module AlignmentResults.

(** What [align_cognates] answers with: a dict whose groups are a list of
    validated groups, and which has statistics, a summary and metadata
    unless it carries an error. *)
Definition groups_result (result : pyval) : Prop :=
  exists d groups,
    result = PDict d
    /\ dict_get (lit "groups") d = Some (PList groups)
    /\ Forall (fun group => exists g, group = PDict g /\ Shapes.validated_group g)
         groups
    /\ (dict_has (lit "error") d = false
        -> dict_has (lit "statistics") d = true
           /\ dict_has (lit "summary") d = true
           /\ dict_has (lit "llm_metadata") d = true).

End AlignmentResults.

(** ** The batch entry points *)

Module Batches.

(** [results = []; for x in inputs: results.append(task(x))], with the
    requests of the tasks one after the other. *)
Definition run_batch {A} (task : A -> traced pyval) (inputs : list A)
  : traced (list pyval) :=
  fold_left
    (fun acc x =>
       let (result, calls) := task x in
       (fst acc ++ [result], snd acc ++ calls))
    inputs ([], []).

(** modules/transliterator.py, lines 343-359. *)
Definition batch_transliterate (rt : runtime) (svc : service)
    (self : Transliterator.TransliteratorEngine) (texts : list pystr)
    (source_language : pystr) : traced (list pyval) :=
  run_batch
    (fun text => Transliterator.transliterate rt svc self text source_language)
    texts.

(** modules/risk_analyzer.py, lines 254-269. *)
Definition batch_analyze (rt : runtime) (svc : service)
    (self : RiskAnalyzer.RiskAnalyzer) (texts : list pystr)
  : traced (list pyval) :=
  run_batch (fun text => RiskAnalyzer.analyze_risks rt svc self text) texts.

(** modules/cognate_aligner.py, lines 350-365. *)
Definition batch_align (rt : runtime)
    (format : pyval -> pystr -> res pystr) (svc : service)
    (self : CognateTasks.CognateAligner) (candidate_lists : list pystr)
  : traced (list pyval) :=
  run_batch
    (fun candidates => CognateTasks.align_cognates rt format svc self candidates)
    candidate_lists.

(** The texts that are not blank. *)
Definition not_blank (text : pystr) : bool := truthy (PStr (strip text)).

End Batches.

Module Usage.

(** The total of the counts of a dict of counts by letter. *)
Definition counts_total (counts : pydict) : Z :=
  fold_right
    (fun kv total => match snd kv with PInt n => n + total | _ => total end)
    0 counts.

(** Every value of the dict is a count of at least 1. *)
Definition positive_counts (counts : pydict) : Prop :=
  Forall (fun kv => exists n, snd kv = PInt n /\ 1 <= n) counts.

End Usage.

Module Labels.

Import PCEAnalyzer.

(** The three categories of lines 176-180. *)
Definition high_improvement : pystr :=
  lit "Y" ++ [252%N] ++ lit "ksek " ++ iyilestirme.
Definition medium_improvement : pystr := lit "Orta " ++ iyilestirme.
Definition low_improvement : pystr :=
  lit "D" ++ [252; 351; 252]%N ++ lit "k " ++ iyilestirme.

(** The five ratings of lines 205-214. *)
Definition excellent : pystr := lit "M" ++ [252%N] ++ lit "kemmel".
Definition very_good : pystr := [199%N] ++ lit "ok " ++ [304%N] ++ lit "yi".
Definition good : pystr := [304%N] ++ lit "yi".
Definition fair : pystr := lit "Orta".
Definition poor : pystr := lit "D" ++ [252; 351; 252]%N ++ lit "k".

End Labels.

(** * Properties *)

Import Store Spec.

Lemma str_eqb_eq a b : str_eqb a b = true <-> a = b.
Proof.
  unfold str_eqb. destruct (list_eq_dec N.eq_dec a b); split; congruence.
Qed.

Lemma str_eqb_refl a : str_eqb a a = true.
Proof. apply str_eqb_eq. reflexivity. Qed.

Example strip_ex : strip (lit "  {a}  ") = lit "{a}".
Proof. reflexivity. Qed.

Example split_ex :
  split (lit "```") (lit "x```json{}```y") = [lit "x"; lit "json{}"; lit "y"].
Proof. reflexivity. Qed.

Example replace_ex :
  replace (lit "OUTPUT:") [] (lit "OUTPUT: {}") = lit " {}".
Proof. reflexivity. Qed.

Example count_ex : count (lit "aa") (lit "aaaaa") = 2.
Proof. reflexivity. Qed.

Example join_ex : join (lit ", ") [lit "a"; lit "b"; lit "c"] = lit "a, b, c".
Proof. reflexivity. Qed.

Example str_of_int_ex : str_of_int 1203 = lit "1203" /\ str_of_int (-7) = lit "-7" /\ str_of_int 0 = lit "0".
Proof. repeat split; reflexivity. Qed.

Example json_number_ex :
  json_number (lit "-12") = Some (PInt (-12))
  /\ json_number (lit "0.95") = Some (PFloat (FFin (19 # 20)))
  /\ json_number (lit "1e2") = Some (PFloat (FFin 100))
  /\ json_number (lit "1e400") = Some (PFloat (FInf false))
  /\ json_number (lit "01") = None
  /\ json_number (lit "1.") = None
  /\ json_number (lit "-") = None.
Proof. repeat split; vm_compute; reflexivity. Qed.

Example float_of_str_ex :
  float_of_str (lit " 0.95 ") = Some (FFin (19 # 20))
  /\ float_of_str (lit "1_0.") = Some (FFin 10)
  /\ float_of_str (lit ".5e1") = Some (FFin 5)
  /\ float_of_str (lit "-Infinity") = Some (FInf true)
  /\ float_of_str (lit "NaN") = Some FNan
  /\ float_of_str (lit "high") = None
  /\ float_of_str (lit "") = None
  /\ float_of_str (lit "1__0") = None
  /\ float_of_str (lit ".") = None.
Proof. repeat split; vm_compute; reflexivity. Qed.

Example loads_object :
  Json.loads (jlit "{'ok': true, 'n': [1, 2.5, null], 'a': 'x\u0259\n'}")
  = Some (PDict [(lit "ok", PBool true);
                 (lit "n", PList [PInt 1; PFloat (FFin (5 # 2)); PNone]);
                 (lit "a", PStr [120; 601; 10]%N)]).
Proof. vm_compute. reflexivity. Qed.

Example loads_rejects :
  Json.loads (jlit "{'a': 1,}") = None
  /\ Json.loads (jlit "[1 2]") = None
  /\ Json.loads (jlit "{'a' 1}") = None
  /\ Json.loads (jlit "[1]]") = None
  /\ Json.loads (jlit "{'a': {'b': 1}") = None
  /\ Json.loads (jlit "[sic]") = None
  /\ Json.loads (jlit "") = None
  /\ Json.loads (jlit "{a: 1}") = None
  /\ Json.loads (jlit "'a': 1") = None
  /\ Json.loads (jlit "[,1]") = None
  /\ Json.loads (jlit "[1,,2]") = None.
Proof. repeat split; vm_compute; reflexivity. Qed.

Example loads_scalars_and_duplicates :
  Json.loads (jlit " 42 ") = Some (PInt 42)
  /\ Json.loads (jlit "{'a': 1, 'b': 2, 'a': 3}")
     = Some (PDict [(lit "a", PInt 3); (lit "b", PInt 2)])
  /\ Json.loads (jlit "[]") = Some (PList [])
  /\ Json.loads (jlit "{}") = Some (PDict [])
  /\ Json.loads (jlit "'\ud83d\ude00'") = Some (PStr [128512%N]).
Proof. repeat split; vm_compute; reflexivity. Qed.

Example search_lazy :
  Re.search (Re.seq [Re.lbrack; Re.lazy_any] Re.rbrack) (lit "a [b] [c]]")
  = Some (lit "[b]").
Proof. vm_compute. reflexivity. Qed.

Example sorted_desc_stable :
  sorted_desc [(PStr (lit "a"), 1); (PStr (lit "b"), 2); (PStr (lit "c"), 1);
               (PStr (lit "d"), 2)]
  = [(PStr (lit "b"), 2); (PStr (lit "d"), 2); (PStr (lit "a"), 1);
     (PStr (lit "c"), 1)].
Proof. reflexivity. Qed.

Lemma read_only_ret {A} (a : A) : read_only (ret a).
Proof. intro s. reflexivity. Qed.

Lemma read_only_raise {A} (e : exn) : read_only (@raise A e).
Proof. intro s. reflexivity. Qed.

Lemma read_only_lift {A} (r : res A) : read_only (lift r).
Proof. intro s. reflexivity. Qed.

Lemma read_only_size : read_only size.
Proof. intro s. reflexivity. Qed.

Lemma read_only_record_get i key default :
  read_only (record_get i key default).
Proof.
  intro s. unfold record_get.
  destruct (nth_error s i) as [[]|]; reflexivity.
Qed.

Lemma read_only_bind {A B} (m : M A) (k : A -> M B) :
  read_only m -> (forall a, read_only (k a)) -> read_only (bindM m k).
Proof.
  intros Hm Hk s. unfold bindM.
  specialize (Hm s). destruct (m s) as [[a|e] s']; simpl in *; subst.
  - apply Hk.
  - reflexivity.
Qed.

Lemma read_only_for_each {A} (body : nat -> A -> M A) positions :
  (forall i acc, read_only (body i acc)) ->
  forall acc, read_only (for_each body positions acc).
Proof.
  intros Hbody. induction positions as [|i rest IH]; intro acc; simpl.
  - apply read_only_ret.
  - apply read_only_bind; [apply Hbody | exact IH].
Qed.

Lemma read_only_twice {A} (m : M A) s :
  read_only m -> twice m s = (fst (m s), fst (m s), s).
Proof.
  intros H. unfold twice. cbv zeta. rewrite !H. reflexivity.
Qed.

(** ** Strings *)

Section StripFacts.

Lemma lstrip_head_ok s : head_ok (lstrip s).
Proof.
  induction s as [|c s IH]; simpl; [exact I|].
  destruct (is_space c) eqn:E; [exact IH | simpl; exact E].
Qed.

Lemma lstrip_id s : head_ok s -> lstrip s = s.
Proof.
  destruct s as [|c s]; simpl; [reflexivity|].
  intros ->. reflexivity.
Qed.

Lemma lstrip_spaces s : forallb is_space s = true -> lstrip s = [].
Proof.
  induction s as [|c s IH]; simpl; [reflexivity|].
  intros H. apply andb_true_iff in H as [-> H]. auto.
Qed.

Lemma lstrip_nil_spaces s : lstrip s = [] -> forallb is_space s = true.
Proof.
  induction s as [|c s IH]; simpl; [reflexivity|].
  destruct (is_space c); [intros; simpl; auto | discriminate].
Qed.

(** What [lstrip] removes is a prefix. *)
Lemma lstrip_suffix s : exists w, s = w ++ lstrip s.
Proof.
  induction s as [|c s [w IH]]; simpl.
  - exists []. reflexivity.
  - destruct (is_space c).
    + exists (c :: w). simpl. f_equal. exact IH.
    + exists []. reflexivity.
Qed.

Lemma rstrip_head_ok s : head_ok s -> head_ok (rstrip s).
Proof.
  intros H. unfold rstrip.
  destruct (lstrip_suffix (rev s)) as [w Hw].
  assert (Hs : s = rev (lstrip (rev s)) ++ rev w).
  { rewrite <- rev_app_distr, <- Hw, rev_involutive. reflexivity. }
  destruct (rev (lstrip (rev s))) as [|c r]; [exact I|].
  rewrite Hs in H. exact H.
Qed.

Lemma strip_head_ok s : head_ok (strip s).
Proof. apply rstrip_head_ok, lstrip_head_ok. Qed.

Lemma strip_last_ok s : head_ok (rev (strip s)).
Proof.
  unfold strip, rstrip. rewrite rev_involutive. apply lstrip_head_ok.
Qed.

(** A string with no white space at either end is left alone. *)
Lemma strip_id s : head_ok s -> head_ok (rev s) -> strip s = s.
Proof.
  intros H1 H2. unfold strip, rstrip.
  rewrite (lstrip_id s H1), (lstrip_id _ H2). apply rev_involutive.
Qed.

Lemma strip_idempotent s : strip (strip s) = strip s.
Proof. apply strip_id; [apply strip_head_ok | apply strip_last_ok]. Qed.

Lemma strip_spaces s : forallb is_space s = true -> strip s = [].
Proof. intros H. unfold strip. rewrite (lstrip_spaces s H). reflexivity. Qed.

Lemma forallb_rev_space s :
  forallb is_space (rev s) = true -> forallb is_space s = true.
Proof.
  rewrite !forallb_forall. intros H c Hc. apply H, in_rev.
  rewrite rev_involutive. exact Hc.
Qed.

Lemma strip_nil_spaces s : strip s = [] -> forallb is_space s = true.
Proof.
  unfold strip, rstrip. intros H.
  apply (f_equal (@rev char)) in H. rewrite rev_involutive in H. simpl in H.
  apply lstrip_nil_spaces, forallb_rev_space in H.
  apply lstrip_nil_spaces.
  pose proof (lstrip_head_ok s) as Hh.
  destruct (lstrip s) as [|c r]; [reflexivity|].
  simpl in H, Hh. rewrite Hh in H. discriminate.
Qed.

End StripFacts.

(** A string that starts with a brace or ends with one has no white space
    there. *)
Lemma startswith_char c s :
  startswith [c] s = true -> exists t, s = c :: t.
Proof.
  destruct s as [|d s]; cbn [startswith]; [discriminate|].
  intros H. apply andb_true_iff in H as [H _].
  apply N.eqb_eq in H. subst d. eauto.
Qed.

Lemma startswith_lbrace_head_ok s : startswith lbrace s = true -> head_ok s.
Proof.
  intros H. apply startswith_char in H as [t ->]. reflexivity.
Qed.

Lemma endswith_rbrace_last_ok s : endswith rbrace s = true -> head_ok (rev s).
Proof.
  unfold endswith, rbrace. cbn [rev app].
  intros H. apply startswith_char in H as [t ->]. reflexivity.
Qed.

Lemma startswith_lbrace_not_lbrack s :
  startswith lbrace s = true -> startswith lbrack s = false.
Proof.
  intros H. apply startswith_char in H as [t ->]. reflexivity.
Qed.

(** ** Dicts *)

Lemma dict_get_set_same k v d : dict_get k (dict_set k v d) = Some v.
Proof.
  induction d as [|[k' v'] d IH]; simpl.
  - rewrite str_eqb_refl. reflexivity.
  - destruct (str_eqb k k') eqn:E; simpl.
    + rewrite str_eqb_refl. reflexivity.
    + rewrite E. exact IH.
Qed.

Lemma dict_get_set_other k k' v d :
  str_eqb k' k = false -> dict_get k' (dict_set k v d) = dict_get k' d.
Proof.
  intros Hne. induction d as [|[k0 v0] d IH]; simpl.
  - rewrite Hne. reflexivity.
  - destruct (str_eqb k k0) eqn:E; simpl.
    + apply str_eqb_eq in E. subst k0. rewrite Hne. reflexivity.
    + destruct (str_eqb k' k0); [reflexivity | exact IH].
Qed.

Lemma dict_has_set_same k v d : dict_has k (dict_set k v d) = true.
Proof. unfold dict_has. rewrite dict_get_set_same. reflexivity. Qed.

Lemma dict_has_set_other k k' v d :
  str_eqb k' k = false -> dict_has k' (dict_set k v d) = dict_has k' d.
Proof. intros H. unfold dict_has. rewrite dict_get_set_other by exact H. reflexivity. Qed.

Lemma dict_has_set_mono k k' v d :
  dict_has k' d = true -> dict_has k' (dict_set k v d) = true.
Proof.
  intros H. destruct (str_eqb k' k) eqn:E.
  - apply str_eqb_eq in E. subst. apply dict_has_set_same.
  - rewrite dict_has_set_other by exact E. exact H.
Qed.

Lemma dict_get_or_some k default v d :
  dict_get k d = Some v -> dict_get_or k default d = v.
Proof. unfold dict_get_or. intros ->. reflexivity. Qed.

Lemma dict_has_get k d : dict_has k d = true -> exists v, dict_get k d = Some v.
Proof.
  unfold dict_has. destruct (dict_get k d) as [v|]; [eauto | discriminate].
Qed.

(** Rewriting with the facts above on concrete keys. *)
Ltac dict_simpl :=
  repeat first
    [ rewrite dict_get_set_same
    | rewrite dict_has_set_same
    | rewrite dict_get_set_other by reflexivity
    | rewrite dict_has_set_other by reflexivity ].

(** ** The line scan of the response extractor *)

Section LineScan.

Let starts (line : pystr) : bool := startswith lbrace (strip line).

Lemma scan_lines_skips pre rest :
  Forall (fun l => starts l = false) pre ->
  scan_lines false (pre ++ rest) = scan_lines false rest.
Proof.
  induction 1 as [|l pre Hl _ IH]; [reflexivity|].
  unfold starts in Hl. cbn [app scan_lines orb]. cbv zeta.
  rewrite Hl. exact IH.
Qed.

Lemma scan_lines_started body stop post :
  Forall (fun l => closes (strip l) = false) body ->
  closes (strip stop) = true ->
  scan_lines true (body ++ stop :: post) = map strip (body ++ [stop]).
Proof.
  intros Hbody Hstop.
  induction Hbody as [|l body Hl _ IH]; cbn [app scan_lines orb map]; cbv zeta.
  - rewrite Hstop. reflexivity.
  - rewrite Hl. f_equal. exact IH.
Qed.

(** The buffer is a run of (trimmed) lines: it starts at the first line that
    begins with a brace and ends with the first line from there on that
    passes [closes], a test on that line alone. *)
Lemma scan_lines_run pre body stop post first rest :
  Forall (fun l => starts l = false) pre ->
  body ++ [stop] = first :: rest ->
  starts first = true ->
  Forall (fun l => closes (strip l) = false) body ->
  closes (strip stop) = true ->
  scan_lines false (pre ++ body ++ stop :: post) = map strip (body ++ [stop]).
Proof.
  intros Hpre Hfirst Hstart Hbody Hstop.
  rewrite scan_lines_skips by exact Hpre.
  unfold starts in Hstart.
  destruct body as [|b body]; cbn [app] in *.
  - injection Hfirst as <- <-.
    cbn [scan_lines orb map]. cbv zeta. rewrite Hstart, Hstop. reflexivity.
  - injection Hfirst as <- <-.
    cbn [scan_lines orb map]. cbv zeta. rewrite Hstart.
    inversion Hbody as [|? ? Hb Hbody']; subst. rewrite Hb. f_equal.
    apply scan_lines_started; assumption.
Qed.

End LineScan.

(** ** The response extractor *)

Lemma join_cons_head sep x xs :
  exists tail, join sep (x :: xs) = x ++ tail.
Proof.
  destruct xs as [|y ys]; cbn [join].
  - exists []. symmetry. apply app_nil_r.
  - eexists. reflexivity.
Qed.

Lemma join_snoc_last sep l y :
  exists front, join sep (l ++ [y]) = front ++ y.
Proof.
  induction l as [|x l [front IH]].
  - exists []. reflexivity.
  - destruct l as [|x' l'].
    + exists (x ++ sep). cbn [app join]. rewrite <- app_assoc. reflexivity.
    + exists (x ++ sep ++ front). cbn [app join] in *.
      rewrite IH, <- !app_assoc. reflexivity.
Qed.

Lemma startswith_app_char c s t :
  startswith [c] s = true -> startswith [c] (s ++ t) = true.
Proof.
  intros H. apply startswith_char in H as [u ->].
  cbn [app startswith]. rewrite N.eqb_refl. reflexivity.
Qed.

Lemma endswith_app_char c s t :
  endswith [c] s = true -> endswith [c] (t ++ s) = true.
Proof.
  unfold endswith. cbn [rev app]. rewrite rev_app_distr.
  apply startswith_app_char.
Qed.

Lemma closes_endswith line : closes line = true -> endswith rbrace line = true.
Proof. unfold closes. intros H. apply andb_true_iff in H. tauto. Qed.

(** When the line scan finds its run, the body of the [try] parses the run,
    joined by line feeds, and nothing else. *)
Lemma parse_body_line_scan raw content pre body stop post first rest :
  strip_markers (strip raw) = Ok content ->
  split newline content = pre ++ body ++ stop :: post ->
  Forall (fun l => startswith lbrace (strip l) = false) pre ->
  body ++ [stop] = first :: rest ->
  startswith lbrace (strip first) = true ->
  Forall (fun l => closes (strip l) = false) body ->
  closes (strip stop) = true ->
  parse_body raw = json_loads (join newline (map strip (body ++ [stop]))).
Proof.
  intros Hm Hsplit Hpre Hfirst Hstart Hbody Hstop.
  unfold parse_body. rewrite Hm. cbn [bind]. rewrite Hsplit.
  rewrite (scan_lines_run pre body stop post first rest) by assumption.
  set (buffer := map strip (body ++ [stop])).
  assert (Hhead : startswith lbrace (join newline buffer) = true).
  { subst buffer. rewrite Hfirst. cbn [map].
    destruct (join_cons_head newline (strip first) (map strip rest)) as [t ->].
    apply startswith_app_char. exact Hstart. }
  assert (Hlast : endswith rbrace (join newline buffer) = true).
  { subst buffer. rewrite map_app. cbn [map].
    destruct (join_snoc_last newline (map strip body) (strip stop)) as [f ->].
    apply endswith_app_char, closes_endswith. exact Hstop. }
  assert (Hne : match buffer with [] => content | _ => join newline buffer end
                = join newline buffer).
  { subst buffer. rewrite Hfirst. reflexivity. }
  rewrite Hne.
  assert (Hid : strip (join newline buffer) = join newline buffer).
  { apply strip_id.
    - apply startswith_lbrace_head_ok. exact Hhead.
    - apply endswith_rbrace_last_ok. exact Hlast. }
  rewrite !Hid.
  rewrite (startswith_lbrace_not_lbrack _ Hhead), Hhead, Hlast.
  reflexivity.
Qed.

Lemma split_from_head sep k cur s : exists a l, split_from sep k cur s = a :: l.
Proof.
  revert k cur. induction s as [|c s IH]; intros k cur; cbn [split_from].
  - eauto.
  - destruct k; [destruct (startswith sep (c :: s))|]; eauto.
Qed.

Lemma split_from_two sep c0 rest cur s :
  sep = c0 :: rest ->
  contains sep s = true ->
  exists a b l, split_from sep 0 cur s = a :: b :: l.
Proof.
  intros Hsep. revert cur. induction s as [|c s IH]; intros cur H.
  - subst sep. discriminate.
  - cbn [contains] in H. cbn [split_from].
    destruct (startswith sep (c :: s)) eqn:E.
    + destruct (split_from_head sep (length sep - 1) [] s) as (a & l & ->).
      eauto.
    + cbn [orb] in H. apply IH, H.
Qed.

Lemma startswith_contains p s : startswith p s = true -> contains p s = true.
Proof. intros H. destruct s; cbn [contains]; rewrite H; reflexivity. Qed.

(** The two subscripts of lines 106 and 108 are always in range. *)
Lemma strip_markers_ok content : exists c, strip_markers content = Ok c.
Proof.
  unfold strip_markers.
  assert (Hfence : forall s, contains fence s = true ->
            exists c, (inner <- index (split fence s) 1 ;;
                       index (split fence inner) 0) = Ok c).
  { intros s H.
    destruct (split_from_two fence 96%N (lit "``") [] s eq_refl H)
      as (a & b & l & E).
    unfold split. rewrite E. cbn [index nth_error bind].
    destruct (split_from_head fence 0 [] b) as (x & y & E').
    rewrite E'. cbn. eauto. }
  destruct (contains fence_json content) eqn:E1.
  - destruct (split_from_two fence_json 96%N (lit "``json") [] content eq_refl E1)
      as (a & b & l & E).
    unfold split. rewrite E. cbn [index nth_error bind].
    destruct (split_from_head fence 0 [] b) as (x & y & E').
    rewrite E'. cbn. eauto.
  - destruct (startswith fence content) eqn:E2.
    + apply Hfence, startswith_contains, E2.
    + destruct (contains prefix_output content); [eauto|].
      destruct (contains prefix_output_text content); eauto.
Qed.

Lemma json_loads_ok doc v : json_loads doc = Ok v -> Json.loads doc = Some v.
Proof.
  unfold json_loads, Json.loads.
  destruct (Json.decode Json.cpython doc); congruence.
Qed.

Lemma json_loads_some doc v : Json.loads doc = Some v -> json_loads doc = Ok v.
Proof.
  unfold json_loads, Json.loads.
  destruct (Json.decode Json.cpython doc); congruence.
Qed.

(** What [json.loads] raises is its failure on the text it was given. *)
Lemma json_loads_raise doc e :
  json_loads doc = Raise e ->
  exists f, Json.decode Json.cpython doc = inr f
            /\ e = Interp (class_of_failure f) doc.
Proof.
  unfold json_loads.
  destruct (Json.decode Json.cpython doc) as [v|f]; [discriminate|].
  intros [= <-]. exists f. split; reflexivity.
Qed.

Lemma json_loads_none doc e :
  json_loads doc = Raise e -> Json.loads doc = None.
Proof.
  unfold json_loads, Json.loads.
  destruct (Json.decode Json.cpython doc); [discriminate | reflexivity].
Qed.

(** Whatever the body of the [try] answers comes from one call of
    [json.loads]: a complete parse, or its [JSONDecodeError]. *)
Lemma parse_body_cases raw :
  exists doc, parse_body raw = json_loads doc.
Proof.
  unfold parse_body.
  destruct (strip_markers_ok (strip raw)) as [c ->]. cbn [bind].
  repeat match goal with
         | |- context [if ?b then _ else _] => destruct b
         | |- context [match Re.search ?r ?s with _ => _ end] =>
             destruct (Re.search r s)
         end; eauto.
Qed.

Lemma last_resort_ok pattern raw v :
  last_resort pattern raw = Some v -> exists doc, Json.loads doc = Some v.
Proof.
  unfold last_resort. destruct (Re.search pattern raw); [eauto | discriminate].
Qed.

Lemma prefixes_in doc post : doc <> [] -> In doc (prefixes (doc ++ post)).
Proof.
  induction doc as [|c d IH]; [congruence|]. intros _. cbn [app prefixes].
  destruct d as [|c' d']; [left; reflexivity|].
  right. apply in_map, IH. discriminate.
Qed.

Lemma stretches_in pre doc post :
  doc <> [] -> In doc (stretches (pre ++ doc ++ post)).
Proof.
  intros Hne. induction pre as [|p pre IH].
  - destruct doc as [|c d]; [congruence|]. cbn [app stretches].
    apply in_or_app. left. apply (prefixes_in (c :: d) post Hne).
  - cbn [app stretches]. apply in_or_app. right. exact IH.
Qed.

(** [holds_document_b] decides [holds_document]. *)
Lemma holds_document_decide raw :
  holds_document raw -> holds_document_b raw = true.
Proof.
  intros (pre & doc & post & v & -> & Hv & Hs).
  apply existsb_exists. exists doc. split.
  - apply stretches_in. intros ->. discriminate.
  - unfold is_document. rewrite Hv. exact Hs.
Qed.

(** Scenario A of the specification. *)
Example scenario_a_extracts :
  forall rt,
    parse_json_response rt Samples.fenced_response
    = Ok (PDict [(lit "ok", PBool true);
                 (lit "output_text", PStr Samples.harkas);
                 (lit "notes",
                   PList [PStr (lit "a" ++ [231; 305]%N ++ lit "klama")])]).
Proof. intro rt. vm_compute. reflexivity. Qed.

(** An object spread over lines is cut at the first line that closes an
    inner object; here the last-resort pattern then recovers the whole
    document from the raw text. *)
Example nested_response_extracts :
  forall rt,
    parse_json_response rt Samples.nested_response
    = Ok (PDict [(lit "a", PDict [(lit "b", PInt 1)])]).
Proof. intro rt. vm_compute. reflexivity. Qed.

(** With one more level of nesting the last-resort pattern finds an inner
    object first, and that is what the caller gets. *)
Example deeper_nesting_extracts_inner_object :
  forall rt,
    parse_json_response rt
      (join newline [jlit "{"; jlit "  'a': {"; jlit "    'b': {";
                     jlit "      'c': 1"; jlit "    }"; jlit "  }"; jlit "}"])
    = Ok (PDict [(lit "b", PDict [(lit "c", PInt 1)])]).
Proof. intro rt. vm_compute. reflexivity. Qed.


(** C2: on this response the claim asks for an extraction error, and the
    code returns a document.  No stretch of the text is an object or an
    array, and the text has the label [OUTPUT:] in its middle, not at its
    head; line 111, whose comment says that it removes a prefix, removes the
    label wherever it stands, which splices an object together, and that
    object is returned. *)
Theorem parse_json_response_splices_document :
  ~ holds_document Samples.spliced_by_prefix
  /\ startswith prefix_output (strip Samples.spliced_by_prefix) = false
  /\ strip_markers (strip Samples.spliced_by_prefix) = Ok (jlit "{'a': 1}")
  /\ forall rt,
       parse_json_response rt Samples.spliced_by_prefix
       = Ok (PDict [(lit "a", PInt 1)]).
Proof.
  split; [|split; [|split]].
  - intros H. apply holds_document_decide in H. vm_compute in H. discriminate.
  - vm_compute. reflexivity.
  - vm_compute. reflexivity.
  - intro rt. vm_compute. reflexivity.
Qed.

(** A text that is a bare scalar is parsed by the last [json.loads] of the
    cascade. *)
Example scalar_is_returned :
  ~ holds_document (lit "42")
  /\ forall rt, parse_json_response rt (lit "42") = Ok (PInt 42).
Proof.
  split.
  - intros H. apply holds_document_decide in H. vm_compute in H. discriminate.
  - intro rt. vm_compute. reflexivity.
Qed.

(** The three ways a call of [parse_json_response] ends: with the complete
    parse of one text by [json.loads]; with the [ValueError] of line 186,
    whose message ends with the raw response; or with what [json.loads]
    raised in the body of the [try] when that is not a [JSONDecodeError],
    which the handler of line 162 does not catch. *)
Lemma parse_json_response_outcomes rt raw :
  (exists v doc,
     parse_json_response rt raw = Ok v /\ Json.loads doc = Some v)
  \/ (exists head,
        parse_json_response rt raw = Raise (Raised CValueError (head ++ raw)))
  \/ (exists doc f,
        Json.decode Json.cpython doc = inr f /\ f <> Json.Malformed
        /\ parse_json_response rt raw
           = Raise (Interp (class_of_failure f) doc)).
Proof.
  unfold parse_json_response.
  destruct (parse_body_cases raw) as [doc ->].
  destruct (json_loads doc) as [v|e] eqn:E.
  - left. exists v, doc. split; [reflexivity | apply json_loads_ok, E].
  - destruct (json_loads_raise doc e E) as (f & Hf & ->).
    destruct f; cbn [class_of class_of_failure].
    + unfold on_decode_error.
      destruct (last_resort array_pattern raw) as [v|] eqn:E1.
      { left. destruct (last_resort_ok _ _ _ E1) as [d Hd]. eauto. }
      destruct (last_resort obj_pattern raw) as [v|] eqn:E2.
      { left. destruct (last_resort_ok _ _ _ E2) as [d Hd]. eauto. }
      right. left. unfold parse_error_message.
      eexists. rewrite !app_assoc. reflexivity.
    + right. right. exists doc, Json.DigitLimit.
      repeat split; [exact Hf | discriminate].
    + right. right. exists doc, Json.DepthLimit.
      repeat split; [exact Hf | discriminate].
Qed.

(** An integer of 4301 digits: [int] refuses it with a plain [ValueError],
    which leaves [parse_json_response] as it is, without the raw text in a
    message of line 186.  With 4300 digits the limit is not passed. *)
Example digit_limit_is_not_caught :
  Json.over_digit_limit Json.cpython (repeat 49%N 4300) = false
  /\ Json.over_digit_limit Json.cpython (repeat 49%N 4301) = true
  /\ forall rt,
       parse_json_response rt (lit "[" ++ repeat 49%N 4301 ++ lit "]")
       = Raise (Interp CValueError (lit "[" ++ repeat 49%N 4301 ++ lit "]")).
Proof.
  split; [vm_compute; reflexivity|]. split; [vm_compute; reflexivity|].
  intro rt. vm_compute. reflexivity.
Qed.

(** Brackets nested 995 deep: [RecursionError]; 994 deep they are parsed. *)
Example depth_limit_is_not_caught :
  Json.loads (repeat 91%N 994 ++ repeat 93%N 994) <> None
  /\ forall rt,
       parse_json_response rt (repeat 91%N 995 ++ repeat 93%N 995)
       = Raise (Interp CRecursionError
                  (repeat 91%N 995 ++ repeat 93%N 995)).
Proof.
  split.
  - vm_compute. discriminate.
  - intro rt. vm_compute. reflexivity.
Qed.

(** The order of the text decides between the three exceptions. *)
Example decode_stops_at_the_first :
  Json.decode Json.cpython (lit "[" ++ repeat 49%N 4301 ++ lit ", }")
  = inr Json.DigitLimit
  /\ Json.decode Json.cpython (lit "[}, " ++ repeat 49%N 4301 ++ lit "]")
     = inr Json.Malformed
  /\ Json.decode Json.cpython (lit "{" ++ repeat 49%N 4301 ++ lit ": 1}")
     = inr Json.Malformed
  /\ Json.decode Json.cpython (repeat 49%N 4301 ++ lit "abc")
     = inr Json.DigitLimit
  /\ Json.decode Json.cpython (lit "-" ++ repeat 49%N 4301)
     = inr Json.DigitLimit
  /\ Json.decode Json.cpython (lit "0" ++ repeat 49%N 4301)
     = inr Json.Malformed
  /\ Json.over_digit_limit Json.cpython (repeat 49%N 4301 ++ lit ".5")
     = false.
Proof.
  do 6 (split; [vm_compute; reflexivity|]). vm_compute. reflexivity.
Qed.

(** On these three lines the scan stops after the second, where the buffer
    holds two opening braces and one closing brace; with the cumulative
    counts of the specification it would go on to the third. *)
Example line_scan_is_not_cumulative :
  scan_lines false Samples.nested_lines = firstn 2 Samples.nested_lines
  /\ total_count lbrace (firstn 2 Samples.nested_lines) = 2
  /\ total_count rbrace (firstn 2 Samples.nested_lines) = 1
  /\ scan_lines_cumulative false [] Samples.nested_lines = Samples.nested_lines.
Proof. repeat split; vm_compute; reflexivity. Qed.

(** What the loop of lines 118-129 does: it starts at the first line that,
    trimmed, begins with a brace, accumulates the trimmed lines, and stops
    with the first line that ends with a closing brace and has, on that line
    alone, no more opening than closing braces; the buffer joined by line
    feeds is what the body of the [try] then parses. *)
Lemma line_scan_stops_on_line_balance :
  forall raw content pre body stop post first rest,
    strip_markers (strip raw) = Ok content ->
    split newline content = pre ++ body ++ stop :: post ->
    Forall (fun l => startswith lbrace (strip l) = false) pre ->
    body ++ [stop] = first :: rest ->
    startswith lbrace (strip first) = true ->
    Forall (fun l => closes (strip l) = false) body ->
    closes (strip stop) = true ->
    scan_lines false (split newline content) = map strip (body ++ [stop])
    /\ parse_body raw = json_loads (join newline (map strip (body ++ [stop]))).
Proof.
  intros raw content pre body stop post first rest
    Hm Hsplit Hpre Hfirst Hstart Hbody Hstop.
  split.
  - rewrite Hsplit. eapply scan_lines_run; eassumption.
  - eapply parse_body_line_scan; eassumption.
Qed.

(** C6: on a reply in the layout of the aligner's prompt, pretty-printed,
    with two groups, the claim has the scan keep the whole reply, whose
    braces balance on its last line only, and parse it as one object.  The
    code tests the braces of the current line alone (line 128): the scan
    stops at the seventh of the 29 lines, the second item of the first
    group, where the buffer holds four opening and two closing braces; the
    buffer is no document, and the last-resort pattern then returns the
    first group alone.  With the cumulative counts of the claim the buffer
    is the whole reply and its parse the whole document. *)
Theorem line_scan_cuts_nested_reply :
  split newline Samples.two_group_reply = Samples.two_group_lines
  /\ scan_lines false Samples.two_group_lines
     = map strip (firstn 7 Samples.two_group_lines)
  /\ total_count lbrace (scan_lines false Samples.two_group_lines) = 4
  /\ total_count rbrace (scan_lines false Samples.two_group_lines) = 2
  /\ Json.loads (join newline (scan_lines false Samples.two_group_lines))
     = None
  /\ scan_lines_cumulative false [] Samples.two_group_lines
     = map strip Samples.two_group_lines
  /\ Json.loads
       (join newline (scan_lines_cumulative false [] Samples.two_group_lines))
     = Some Samples.two_group_document
  /\ forall rt,
       parse_json_response rt Samples.two_group_reply
       = Ok Samples.first_group.
Proof.
  do 7 (split; [vm_compute; reflexivity|]).
  intro rt. vm_compute. reflexivity.
Qed.

(** ** The risk validator *)

Section RiskValidator.

Import RiskAnalyzer.

Ltac unit_bounds := split; apply Qle_bool_iff; reflexivity.

Lemma clamp_in_unit_interval f : in_unit_interval (clamp f).
Proof.
  unfold clamp, py_min, py_max.
  destruct f as [|[]|q]; cbn [float_ltb]; try unit_bounds.
  destruct (Qcompare q 1) eqn:E1; cbn [float_ltb]; try unit_bounds.
  destruct (Qcompare 0 q) eqn:E0; cbn [in_unit_interval]; try unit_bounds.
  apply Qlt_alt in E1, E0. split; apply Qlt_le_weak; assumption.
Qed.

Lemma half_in_unit_interval : in_unit_interval (FFin (1 # 2)).
Proof. unit_bounds. Qed.

(** Scenario B of the specification: 1.4 is clamped to 1.0. *)
Example clamp_above_one : clamp (FFin (7 # 5)) = FFin 1.
Proof. reflexivity. Qed.

Example clamp_below_zero : clamp (FFin (- (1 # 4))) = FFin 0.
Proof. reflexivity. Qed.

Example clamp_inside : clamp (FFin (19 # 20)) = FFin (19 # 20).
Proof. reflexivity. Qed.

Example clamp_special :
  clamp FNan = FFin 1 /\ clamp (FInf false) = FFin 1
  /\ clamp (FInf true) = FFin 0.
Proof. repeat split. Qed.

Lemma listify_other rt field k d :
  str_eqb k field = false -> dict_get k (listify rt field d) = dict_get k d.
Proof.
  intros H. unfold listify.
  destruct (dict_get field d) as [[]|]; try reflexivity;
    apply dict_get_set_other, H.
Qed.

Lemma listify_has rt field k d :
  dict_has k d = true -> dict_has k (listify rt field d) = true.
Proof.
  intros H. unfold listify.
  destruct (dict_get field d) as [[]|]; try exact H;
    apply dict_has_set_mono, H.
Qed.

Lemma normalized_in_unit_interval c : in_unit_interval (normalized c).
Proof.
  unfold normalized. destruct (py_float c).
  - apply clamp_in_unit_interval.
  - apply half_in_unit_interval.
Qed.

Lemma normalize_confidence_some d c :
  dict_get (lit "confidence") d = Some c ->
  (forall z, c = PInt z -> Z.abs z < float_int_bound) ->
  normalize_confidence d
  = Some (dict_set (lit "confidence") (PFloat (normalized c)) d).
Proof.
  intros Hc Hz. unfold normalize_confidence, normalized.
  rewrite (dict_get_or_some _ _ _ _ Hc).
  destruct c as [| b | z | f | s | l | l | l | m]; cbn [py_float];
    try reflexivity.
  - unfold float_of_int. specialize (Hz z eq_refl).
    apply Z.ltb_lt in Hz. rewrite Hz. reflexivity.
  - destruct (float_of_str s); reflexivity.
Qed.

Lemma normalize_severity_other k d :
  str_eqb k (lit "severity") = false ->
  dict_get k (normalize_severity d) = dict_get k d.
Proof.
  intros H. unfold normalize_severity.
  destruct (dict_get (lit "severity") d) as [s|].
  - destruct (in_strs s severities); [reflexivity|].
    apply dict_get_set_other, H.
  - apply dict_get_set_other, H.
Qed.

Lemma default_context_other rt k d :
  str_eqb k (lit "context") = false ->
  dict_get k (default_context rt d) = dict_get k d.
Proof.
  intros H. unfold default_context.
  destruct (dict_has (lit "context") d); [reflexivity|].
  apply dict_get_set_other, H.
Qed.

Lemma required_all d :
  (forall field, In field required_fields -> dict_has field d = true) ->
  forallb (fun field => dict_has field d) required_fields = true.
Proof. intros H. apply forallb_forall. exact H. Qed.

Lemma required_missing d :
  (exists field, In field required_fields /\ dict_has field d = false) ->
  forallb (fun field => dict_has field d) required_fields = false.
Proof.
  intros (field & Hin & Hf).
  destruct (forallb _ required_fields) eqn:E; [|reflexivity].
  rewrite forallb_forall in E. rewrite (E field Hin) in Hf. discriminate.
Qed.

(** A record that has every required field, a string as letter, and a
    confidence that [float] can take is returned, its confidence
    normalized and every other required field as the listing left it. *)
Lemma validate_risk_returns rt d text letter c :
  (forall field, In field required_fields -> dict_has field d = true) ->
  dict_get (lit "letter") d = Some (PStr letter) ->
  dict_get (lit "confidence") d = Some c ->
  (forall z, c = PInt z -> Z.abs z < float_int_bound) ->
  exists d',
    _validate_and_enrich_risk rt (PDict d) text = Some d'
    /\ dict_get (lit "confidence") d' = Some (PFloat (normalized c))
    /\ dict_get (lit "letter") d' = Some (PStr letter).
Proof.
  intros Hreq Hletter Hc Hz.
  unfold _validate_and_enrich_risk.
  rewrite (required_all d Hreq). cbn [negb].
  set (d1 := listify rt (lit "examples")
               (listify rt (lit "languages")
                  (listify rt (lit "possible_confusions") d))).
  assert (Hc1 : dict_get (lit "confidence") d1 = Some c).
  { subst d1. rewrite !listify_other by reflexivity. exact Hc. }
  assert (Hl1 : dict_get (lit "letter") d1 = Some (PStr letter)).
  { subst d1. rewrite !listify_other by reflexivity. exact Hletter. }
  rewrite (normalize_confidence_some d1 c Hc1 Hz).
  unfold add_frequency.
  rewrite default_context_other, normalize_severity_other by reflexivity.
  rewrite dict_get_set_other by reflexivity. rewrite Hl1.
  eexists. split; [reflexivity|]. split.
  - rewrite dict_get_set_other by reflexivity.
    rewrite default_context_other, normalize_severity_other by reflexivity.
    apply dict_get_set_same.
  - rewrite dict_get_set_other by reflexivity.
    rewrite default_context_other, normalize_severity_other by reflexivity.
    rewrite dict_get_set_other by reflexivity. exact Hl1.
Qed.

End RiskValidator.

(** A record whose letter is not a string is dropped whatever its
    confidence: line 194 calls [lower] on it. *)
Example validate_risk_drops_numeric_letter :
  forallb (fun field => dict_has field RiskSamples.numeric_letter)
    RiskAnalyzer.required_fields = true
  /\ forall rt text,
       RiskAnalyzer._validate_and_enrich_risk rt
         (PDict RiskSamples.numeric_letter) text = None.
Proof. repeat split. Qed.

(** C3 fails on the code at this input: the record has every required
    field and, as confidence, the integer 10^400, which is outside [0,1].
    [float] raises [OverflowError] on it, line 182 catches [ValueError] and
    [TypeError] only, and the record is dropped by the handler of line 199,
    its confidence neither clamped nor defaulted. *)
Lemma validate_risk_drops_huge_confidence :
  forall rt text,
    RiskAnalyzer._validate_and_enrich_risk rt
      (PDict RiskSamples.huge_confidence) text = None.
Proof. intros rt text. vm_compute. reflexivity. Qed.

(** What the validator does apart from that: a record that lacks a required
    field is dropped.  A record that has them all, with a string as letter
    and a confidence that is not an integer beyond the range of a float, is
    returned with a confidence in [0,1]: the float a numeric string denotes,
    or the number itself, clamped into [0,1]; and 0.5 when the confidence is
    not numeric. *)
Theorem validate_risk_confidence :
  forall rt d text,
    ((exists field,
        In field RiskAnalyzer.required_fields /\ dict_has field d = false) ->
     RiskAnalyzer._validate_and_enrich_risk rt (PDict d) text = None)
    /\ (forall letter c,
          (forall field,
             In field RiskAnalyzer.required_fields -> dict_has field d = true) ->
          dict_get (lit "letter") d = Some (PStr letter) ->
          dict_get (lit "confidence") d = Some c ->
          (forall z, c = PInt z -> Z.abs z < float_int_bound) ->
          exists d' f,
            RiskAnalyzer._validate_and_enrich_risk rt (PDict d) text = Some d'
            /\ dict_get (lit "confidence") d' = Some (PFloat f)
            /\ in_unit_interval f
            /\ (forall s x,
                  c = PStr s -> float_of_str s = Some x ->
                  f = RiskAnalyzer.clamp x)
            /\ (forall x, c = PFloat x -> f = RiskAnalyzer.clamp x)
            /\ (forall z,
                  c = PInt z -> f = RiskAnalyzer.clamp (FFin (inject_Z z)))
            /\ (forall b,
                  c = PBool b ->
                  f = RiskAnalyzer.clamp (FFin (inject_Z (int_of_bool b))))
            /\ (forall s,
                  c = PStr s -> float_of_str s = None -> f = FFin (1 # 2))
            /\ (c = PNone \/ (exists l, c = PList l) \/ (exists m, c = PDict m) ->
                f = FFin (1 # 2))).
Proof.
  intros rt d text. split.
  - intros Hmissing. unfold RiskAnalyzer._validate_and_enrich_risk.
    rewrite (required_missing d Hmissing). reflexivity.
  - intros letter c Hreq Hletter Hc Hz.
    destruct (validate_risk_returns rt d text letter c Hreq Hletter Hc Hz)
      as (d' & Hret & Hconf & _).
    exists d', (normalized c).
    split; [exact Hret|]. split; [exact Hconf|].
    split; [apply normalized_in_unit_interval|].
    split; [|split; [|split; [|split; [|split]]]].
    + intros s x -> Hx. unfold normalized. cbn [py_float]. rewrite Hx.
      reflexivity.
    + intros x ->. reflexivity.
    + intros z ->. unfold normalized. cbn [py_float]. unfold float_of_int.
      specialize (Hz z eq_refl). apply Z.ltb_lt in Hz. rewrite Hz.
      reflexivity.
    + intros b ->. reflexivity.
    + intros s -> Hx. unfold normalized. cbn [py_float]. rewrite Hx.
      reflexivity.
    + intros [-> | [[l ->] | [m ->]]]; reflexivity.
Qed.

Lemma required_fields_of_samples :
  forall field,
    In field RiskAnalyzer.required_fields ->
    dict_has field RiskSamples.string_confidence = true.
Proof.
  intros field H. cbn in H.
  repeat (destruct H as [<- | H]; [reflexivity|]). contradiction.
Qed.

(** Scenario B of the specification: the string ["0.95"] validates to the
    float 0.95. *)
Lemma validate_risk_confidence_witness :
  exists d',
    RiskAnalyzer._validate_and_enrich_risk sample_runtime
      (PDict RiskSamples.string_confidence) (lit "qazaq") = Some d'
    /\ dict_get (lit "confidence") d' = Some (PFloat (FFin (19 # 20))).
Proof.
  destruct (proj2 (validate_risk_confidence sample_runtime
                     RiskSamples.string_confidence (lit "qazaq"))
              (lit "q") (PStr (lit "0.95"))
              required_fields_of_samples eq_refl eq_refl)
    as (d' & f & Hret & Hconf & _ & Hstr & _).
  - intros z H. discriminate H.
  - exists d'. split; [exact Hret|].
    rewrite Hconf.
    rewrite (Hstr (lit "0.95") (FFin (19 # 20)) eq_refl eq_refl).
    reflexivity.
Defined.

(** Scenario B, second half: 1.4 validates to 1.0. *)
Example validate_risk_clamps_large_confidence :
  forall rt text,
    option_map (dict_get (lit "confidence"))
      (RiskAnalyzer._validate_and_enrich_risk rt
         (PDict RiskSamples.large_confidence) text)
    = Some (Some (PFloat (FFin 1))).
Proof. intros rt text. vm_compute. reflexivity. Qed.

(** ** The group validator *)

Section GroupValidator.

Import CognateAligner.

Lemma normalize_similarity_other k d :
  str_eqb k (lit "similarity") = false ->
  dict_get k (normalize_similarity d) = dict_get k d.
Proof.
  intros H. unfold normalize_similarity.
  destruct (in_strs _ similarities); [reflexivity|].
  apply dict_get_set_other, H.
Qed.

Lemma normalize_similarity_items d :
  dict_get_or (lit "items") PNone (normalize_similarity d)
  = dict_get_or (lit "items") PNone d.
Proof.
  unfold dict_get_or. rewrite normalize_similarity_other by reflexivity.
  reflexivity.
Qed.

Lemma normalize_similarity_get d sim :
  dict_get (lit "similarity") d = Some sim ->
  dict_get (lit "similarity") (normalize_similarity d) = Some (tier_of sim).
Proof.
  intros H. unfold normalize_similarity, tier_of.
  rewrite (dict_get_or_some _ _ _ _ H).
  destruct (in_strs sim similarities); [exact H | apply dict_get_set_same].
Qed.

Lemma validate_items_length items :
  length (validate_items items) = length (filter valid_item items).
Proof. unfold validate_items. apply length_map. Qed.

Lemma default_confidence_other k d :
  str_eqb k (lit "confidence") = false ->
  dict_get k (default_confidence d) = dict_get k d.
Proof.
  intros H. unfold default_confidence.
  destruct (dict_has (lit "confidence") d); [reflexivity|].
  apply dict_get_set_other, H.
Qed.

Lemma default_root_analysis_other k d :
  str_eqb k (lit "root_analysis") = false ->
  dict_get k (default_root_analysis d) = dict_get k d.
Proof.
  intros H. unfold default_root_analysis.
  destruct (dict_has (lit "root_analysis") d); [reflexivity|].
  apply dict_get_set_other, H.
Qed.

Lemma group_required_all d :
  (forall field, In field required_fields -> dict_has field d = true) ->
  forallb (fun field => dict_has field d) required_fields = true.
Proof. intros H. apply forallb_forall. exact H. Qed.

(** A group with its three required fields and at least two valid items is
    returned; these are its fields afterwards. *)
Lemma validate_group_returns d items sim :
  (forall field, In field required_fields -> dict_has field d = true) ->
  dict_get (lit "similarity") d = Some sim ->
  iterate (dict_get_or (lit "items") PNone d) = Ok items ->
  (2 <= length (filter valid_item items))%nat ->
  exists d',
    _validate_group (PDict d) = Some d'
    /\ dict_get (lit "items") d' = Some (PList (validate_items items))
    /\ dict_get (lit "similarity") d' = Some (tier_of sim)
    /\ dict_get (lit "rationale") d' = dict_get (lit "rationale") d
    /\ dict_get (lit "confidence") d'
       = (if dict_has (lit "confidence") d
          then dict_get (lit "confidence") d
          else Some (PFloat (confidence_map (tier_of sim))))
    /\ dict_get (lit "root_analysis") d'
       = (if dict_has (lit "root_analysis") d
          then dict_get (lit "root_analysis") d
          else Some (PStr root_analysis_placeholder)).
Proof.
  intros Hreq Hsim Hit Hlen. unfold _validate_group.
  rewrite (group_required_all d Hreq). cbn [negb].
  rewrite normalize_similarity_items, Hit.
  rewrite validate_items_length.
  destruct (length (filter valid_item items) <? 2)%nat eqn:E;
    [apply Nat.ltb_lt in E; lia|].
  set (d1 := normalize_similarity d).
  set (d2 := dict_set (lit "items") (PList (validate_items items)) d1).
  assert (Hconf2 : dict_has (lit "confidence") d2 = dict_has (lit "confidence") d).
  { subst d2 d1. unfold dict_has.
    rewrite dict_get_set_other, normalize_similarity_other by reflexivity.
    reflexivity. }
  assert (Hsim2 : dict_get (lit "similarity") d2 = Some (tier_of sim)).
  { subst d2 d1. rewrite dict_get_set_other by reflexivity.
    apply normalize_similarity_get, Hsim. }
  assert (Hroot3 : dict_has (lit "root_analysis") (default_confidence d2)
                   = dict_has (lit "root_analysis") d).
  { subst d2 d1. unfold dict_has.
    rewrite default_confidence_other, dict_get_set_other,
      normalize_similarity_other by reflexivity.
    reflexivity. }
  eexists. split; [reflexivity|].
  split; [|split; [|split; [|split]]].
  - rewrite default_root_analysis_other, default_confidence_other by reflexivity.
    subst d2. apply dict_get_set_same.
  - rewrite default_root_analysis_other, default_confidence_other by reflexivity.
    exact Hsim2.
  - rewrite default_root_analysis_other, default_confidence_other by reflexivity.
    subst d2 d1.
    rewrite dict_get_set_other, normalize_similarity_other by reflexivity.
    reflexivity.
  - rewrite default_root_analysis_other by reflexivity.
    unfold default_confidence. rewrite Hconf2.
    destruct (dict_has (lit "confidence") d) eqn:Ec.
    + subst d2 d1.
      rewrite dict_get_set_other, normalize_similarity_other by reflexivity.
      reflexivity.
    + rewrite (dict_get_or_some _ _ _ _ Hsim2). apply dict_get_set_same.
  - unfold default_root_analysis. rewrite Hroot3.
    destruct (dict_has (lit "root_analysis") d) eqn:Er.
    + rewrite default_confidence_other by reflexivity. subst d2 d1.
      rewrite dict_get_set_other, normalize_similarity_other by reflexivity.
      reflexivity.
    + apply dict_get_set_same.
Qed.

(** The confidence that stands for each tier. *)
Lemma confidence_of_tiers :
  confidence_map (tier_of (PStr (lit "high"))) = FFin (4 # 5)
  /\ confidence_map (tier_of (PStr (lit "medium"))) = FFin (3 # 5)
  /\ confidence_map (tier_of (PStr (lit "low"))) = FFin (2 # 5).
Proof. repeat split. Qed.

Lemma confidence_of_other_tier sim :
  in_strs sim similarities = false ->
  confidence_map (tier_of sim) = FFin (3 # 5).
Proof. intros H. unfold tier_of. rewrite H. reflexivity. Qed.

End GroupValidator.

(** C4, as stated, fails: this group has two well-formed items, but no
    [rationale], which line 240 requires, and it is dropped. *)
Lemma validate_group_drops_without_rationale :
  length (filter CognateAligner.valid_item
            [CognateSamples.item "tr" "sehir"; CognateSamples.item "uz" "shahar"])
  = 2%nat
  /\ dict_get (lit "items") CognateSamples.no_rationale
     = Some (PList [CognateSamples.item "tr" "sehir";
                    CognateSamples.item "uz" "shahar"])
  /\ CognateAligner._validate_group (PDict CognateSamples.no_rationale) = None.
Proof. repeat split. Qed.

(** C4 (amended): a group with fewer than two valid items is dropped.  A
    group that has the fields [similarity], [items] and [rationale] and at
    least two valid items is returned with its valid items; when it has no
    confidence it gets the one of its similarity tier (0.8 for high, 0.4 for
    low, and 0.6 for medium or for a similarity outside the three, which
    line 247 turns into medium), and when it has no [root_analysis] it gets
    the placeholder. *)
Theorem validate_group_keeps_two_items :
  forall d,
    ((forall items,
        iterate (dict_get_or (lit "items") PNone d) = Ok items ->
        (length (filter CognateAligner.valid_item items) < 2)%nat) ->
     CognateAligner._validate_group (PDict d) = None)
    /\ (forall items sim,
          (forall field,
             In field CognateAligner.required_fields ->
             dict_has field d = true) ->
          dict_get (lit "similarity") d = Some sim ->
          iterate (dict_get_or (lit "items") PNone d) = Ok items ->
          (2 <= length (filter CognateAligner.valid_item items))%nat ->
          exists d',
            CognateAligner._validate_group (PDict d) = Some d'
            /\ dict_get (lit "items") d'
               = Some (PList (CognateAligner.validate_items items))
            /\ (dict_has (lit "confidence") d = false ->
                (is_str sim (lit "high") = true ->
                 dict_get (lit "confidence") d' = Some (PFloat (FFin (4 # 5))))
                /\ (is_str sim (lit "low") = true ->
                    dict_get (lit "confidence") d'
                    = Some (PFloat (FFin (2 # 5))))
                /\ (is_str sim (lit "medium") = true
                    \/ in_strs sim CognateAligner.similarities = false ->
                    dict_get (lit "confidence") d'
                    = Some (PFloat (FFin (3 # 5)))))
            /\ (dict_has (lit "confidence") d = true ->
                dict_get (lit "confidence") d' = dict_get (lit "confidence") d)
            /\ (dict_has (lit "root_analysis") d = false ->
                dict_get (lit "root_analysis") d'
                = Some (PStr CognateAligner.root_analysis_placeholder))
            /\ (dict_has (lit "root_analysis") d = true ->
                dict_get (lit "root_analysis") d'
                = dict_get (lit "root_analysis") d)).
Proof.
  intros d. split.
  - intros Hfew. unfold CognateAligner._validate_group.
    destruct (forallb _ CognateAligner.required_fields); [|reflexivity].
    cbn [negb]. rewrite normalize_similarity_items.
    destruct (iterate _) as [items|e] eqn:E; [|reflexivity].
    rewrite validate_items_length.
    specialize (Hfew items eq_refl). apply Nat.ltb_lt in Hfew.
    rewrite Hfew. reflexivity.
  - intros items sim Hreq Hsim Hit Hlen.
    destruct (validate_group_returns d items sim Hreq Hsim Hit Hlen)
      as (d' & Hret & Hitems & _ & _ & Hconf & Hroot).
    exists d'. split; [exact Hret|]. split; [exact Hitems|].
    split; [|split; [|split]].
    + intros Hc. rewrite Hc in Hconf. rewrite Hconf.
      split; [|split].
      * intros H. destruct sim; try discriminate.
        apply str_eqb_eq in H. subst. reflexivity.
      * intros H. destruct sim; try discriminate.
        apply str_eqb_eq in H. subst. reflexivity.
      * intros [H | H].
        -- destruct sim; try discriminate.
           apply str_eqb_eq in H. subst. reflexivity.
        -- rewrite (confidence_of_other_tier sim H). reflexivity.
    + intros Hc. rewrite Hc in Hconf. exact Hconf.
    + intros Hr. rewrite Hr in Hroot. exact Hroot.
    + intros Hr. rewrite Hr in Hroot. exact Hroot.
Qed.

Lemma lone_group_required :
  forall field,
    In field CognateAligner.required_fields ->
    dict_has field CognateSamples.lone_group = true.
Proof.
  intros field H. cbn in H.
  repeat (destruct H as [<- | H]; [reflexivity|]). contradiction.
Qed.

(** Scenario C of the specification: the lone group is kept with its two
    items and a confidence of 0.8. *)
Lemma validate_group_keeps_two_items_witness :
  exists d',
    CognateAligner._validate_group (PDict CognateSamples.lone_group) = Some d'
    /\ dict_get (lit "confidence") d' = Some (PFloat (FFin (4 # 5)))
    /\ dict_get (lit "root_analysis") d'
       = Some (PStr CognateAligner.root_analysis_placeholder).
Proof.
  destruct (proj2 (validate_group_keeps_two_items CognateSamples.lone_group)
              [CognateSamples.item "tr" "sehir"; CognateSamples.item "uz" "shahar"]
              (PStr (lit "high")) lone_group_required eq_refl eq_refl)
    as (d' & Hret & _ & Hconf & _ & Hroot & _).
  - cbn. lia.
  - exists d'. split; [exact Hret|]. split.
    + exact (proj1 (Hconf eq_refl) eq_refl).
    + exact (Hroot eq_refl).
Defined.

(** ** The effectiveness result *)

Section Enrichment.

Import PCEAnalyzer.

(** [_enrich_pce_result] never fails on a dict, and touches three entries
    only: [metadata], [assessment] and [enrichment_error]. *)
Lemma enrich_keeps_entries rt d original_text ota_text dataset_name :
  exists d',
    _enrich_pce_result rt (PDict d) original_text ota_text dataset_name
    = Ok (PDict d')
    /\ forall k,
         str_eqb k (lit "metadata") = false ->
         str_eqb k (lit "assessment") = false ->
         str_eqb k (lit "enrichment_error") = false ->
         dict_get k d' = dict_get k d.
Proof.
  unfold _enrich_pce_result.
  set (m := metadata rt original_text ota_text dataset_name).
  destruct (dict_get (lit "comparison") (dict_set (lit "metadata") m d))
    as [comparison|].
  - destruct (assessment comparison) as [a|e]; eexists; (split; [reflexivity|]);
      intros k H1 H2 H3; rewrite !dict_get_set_other by assumption;
      reflexivity.
  - eexists. split; [reflexivity|]. intros k H1 H2 H3.
    rewrite dict_get_set_other by assumption. reflexivity.
Qed.

End Enrichment.

(** The improvement of scenario D, computed as the specification defines
    it. *)
Example improvement_pct_scenario_d : improvement_pct 100 119 = 19%Q.
Proof. reflexivity. Qed.

Example improvement_pct_zero_original : improvement_pct 0 119 = 0%Q.
Proof. reflexivity. Qed.

(** C5, as stated, fails: with an original weighted score of 100 and a
    normalized one of 119 the specification's formula gives 19, but the
    result keeps the 5 that the service reported; the code divides
    nowhere. *)
Lemma enrich_keeps_reported_improvement :
  improvement_pct 100 119 = 19%Q
  /\ forall rt original_text ota_text dataset_name,
       exists d',
         PCEAnalyzer._enrich_pce_result rt (PDict PCESamples.reported_five)
           original_text ota_text dataset_name = Ok (PDict d')
         /\ dict_get (lit "comparison") d'
            = Some (PDict [(lit "weighted_improvement", PInt 5)]).
Proof.
  split; [reflexivity|].
  intros rt original_text ota_text dataset_name.
  destruct (enrich_keeps_entries rt PCESamples.reported_five
              original_text ota_text dataset_name) as (d' & Hret & Hkeep).
  exists d'. split; [exact Hret|].
  rewrite Hkeep by reflexivity. reflexivity.
Qed.

(** With an original score of 0 and no comparison in the response, the
    result has no improvement value at all. *)
Example enrich_zero_original :
  forall rt original_text ota_text dataset_name,
    exists d',
      PCEAnalyzer._enrich_pce_result rt (PDict PCESamples.zero_original)
        original_text ota_text dataset_name = Ok (PDict d')
      /\ dict_get (lit "comparison") d' = None.
Proof.
  intros rt original_text ota_text dataset_name.
  destruct (enrich_keeps_entries rt PCESamples.zero_original
              original_text ota_text dataset_name) as (d' & Hret & Hkeep).
  exists d'. split; [exact Hret|].
  rewrite Hkeep by reflexivity. reflexivity.
Qed.

(** The assessment is chosen from the two improvements that the comparison
    reports, and from nothing else in it. *)
Lemma assessment_reads_reported comparison :
  PCEAnalyzer.assessment (PDict comparison)
  = PCEAnalyzer.assessment (PDict (reported_improvements comparison)).
Proof. reflexivity. Qed.

(** C5 (amended): the code computes no improvement percentage; the formula
    is only part of the prompt.  Whatever the scores, an original score of 0
    included, [_enrich_pce_result] returns the response with every entry
    other than [metadata], [assessment] and [enrichment_error] exactly as the
    generation service gave it, its [comparison], [original_analysis] and
    [ota_analysis] in particular.  Of the comparison it reads the reported
    [weighted_improvement] and [logarithmic_improvement] only, each 0 when
    absent: the assessment it stores is the one chosen from these two, and
    when none can be chosen the response keeps the [assessment] entry it
    had. *)
Theorem enrich_keeps_comparison :
  forall rt d original_text ota_text dataset_name,
    exists d',
      PCEAnalyzer._enrich_pce_result rt (PDict d)
        original_text ota_text dataset_name = Ok (PDict d')
      /\ (forall k,
            str_eqb k (lit "metadata") = false ->
            str_eqb k (lit "assessment") = false ->
            str_eqb k (lit "enrichment_error") = false ->
            dict_get k d' = dict_get k d)
      /\ dict_get (lit "comparison") d' = dict_get (lit "comparison") d
      /\ dict_get (lit "original_analysis") d'
         = dict_get (lit "original_analysis") d
      /\ dict_get (lit "ota_analysis") d' = dict_get (lit "ota_analysis") d
      /\ dict_get (lit "assessment") d'
         = match dict_get (lit "comparison") d with
           | Some (PDict comparison) =>
               match PCEAnalyzer.assessment
                       (PDict (reported_improvements comparison)) with
               | Ok a => Some a
               | Raise _ => dict_get (lit "assessment") d
               end
           | _ => dict_get (lit "assessment") d
           end.
Proof.
  intros rt d original_text ota_text dataset_name.
  destruct (enrich_keeps_entries rt d original_text ota_text dataset_name)
    as (d' & Hret & Hkeep).
  exists d'. split; [exact Hret|].
  split; [exact Hkeep|].
  do 3 (split; [apply Hkeep; reflexivity|]).
  revert Hret. unfold PCEAnalyzer._enrich_pce_result.
  rewrite dict_get_set_other by reflexivity.
  destruct (dict_get (lit "comparison") d) as [c|].
  - destruct c as [| | | | | | | |comparison];
      try (cbn; intros [= <-]; dict_simpl; reflexivity).
    rewrite <- assessment_reads_reported.
    destruct (PCEAnalyzer.assessment (PDict comparison)) as [a|e];
      intros [= <-]; dict_simpl; reflexivity.
  - intros [= <-]. dict_simpl. reflexivity.
Qed.

(** ** The task entry points *)

Lemma truthy_strip_spaces text :
  forallb is_space text = true -> truthy (PStr (strip text)) = false.
Proof. intros H. rewrite (strip_spaces text H). reflexivity. Qed.

Lemma truthy_strip_text text :
  strip text <> [] -> truthy (PStr (strip text)) = true.
Proof. destruct (strip text); [congruence | reflexivity]. Qed.

(** C8: a primary text that is empty or made of white space only is
    rejected by [transliterate], [analyze_risks] and [analyze_pce] (for
    either of its two texts) with a result that carries an error, and no
    request goes to the generation service. *)
Theorem empty_text_is_rejected :
  forall rt svc text,
    forallb is_space text = true ->
    (forall self source_language,
       exists result,
         Transliterator.transliterate rt svc self text source_language
         = (result, [])
         /\ carries_error result = true)
    /\ (forall self,
          exists result,
            RiskAnalyzer.analyze_risks rt svc self text = (result, [])
            /\ carries_error result = true)
    /\ (forall self other dataset_name,
          exists result,
            PCEAnalyzer.analyze_pce rt svc self text other dataset_name
            = (result, [])
            /\ PCEAnalyzer.analyze_pce rt svc self other text dataset_name
               = (result, [])
            /\ carries_error result = true).
Proof.
  intros rt svc text Hspace.
  pose proof (truthy_strip_spaces text Hspace) as Hfalse.
  split; [|split].
  - intros self source_language.
    exists Transliterator.empty_text_result.
    unfold Transliterator.transliterate. rewrite Hfalse.
    split; reflexivity.
  - intros self. exists RiskAnalyzer.empty_text_result.
    unfold RiskAnalyzer.analyze_risks. rewrite Hfalse.
    split; reflexivity.
  - intros self other dataset_name.
    exists PCEAnalyzer.empty_text_result.
    unfold PCEAnalyzer.analyze_pce. rewrite Hfalse. cbn [negb orb].
    rewrite orb_true_r. repeat split.
Qed.

Lemma empty_text_is_rejected_witness :
  (exists result,
     Transliterator.transliterate sample_runtime TaskSamples.silent_service
       TaskSamples.engine TaskSamples.blank (lit "Turkish") = (result, [])
     /\ carries_error result = true)
  /\ (exists result,
        RiskAnalyzer.analyze_risks sample_runtime TaskSamples.silent_service
          TaskSamples.risk_analyzer TaskSamples.blank = (result, [])
        /\ carries_error result = true).
Proof.
  destruct (empty_text_is_rejected sample_runtime TaskSamples.silent_service
              TaskSamples.blank eq_refl) as (Ht & Hr & _).
  split.
  - exact (Ht TaskSamples.engine (lit "Turkish")).
  - exact (Hr TaskSamples.risk_analyzer).
Defined.

Lemma filter_none {A} (f : A -> bool) (l : list A) :
  (forall x, In x l -> f x = false) -> filter f l = [].
Proof.
  induction l as [|x l IH]; intros H; cbn [filter]; [reflexivity|].
  rewrite (H x (or_introl eq_refl)). apply IH.
  intros y Hy. apply H. right. exact Hy.
Qed.

(** The placeholder record of lines 73-81. *)
Example placeholder_risk_fields :
  exists d,
    RiskAnalyzer.placeholder_risk = PDict d
    /\ dict_get (lit "confidence") d = Some (PFloat (FFin 1))
    /\ dict_get (lit "severity") d = Some (PStr (lit "low")).
Proof. eexists. repeat split. Qed.

(** C7 (amended): for a text that is not blank (not empty once trimmed)
    and has none of the tracked letters, [analyze_risks] sends nothing to the
    generation service and returns a result without [error] whose risks are
    exactly one record, the placeholder, with confidence 1.0 and severity
    [low]. *)
Theorem no_tracked_letter_short_circuits :
  forall rt svc self text,
    strip text <> [] ->
    (forall letter,
       In letter RiskAnalyzer.new_letters -> contains letter text = false) ->
    exists result placeholder,
      RiskAnalyzer.analyze_risks rt svc self text = (PDict result, [])
      /\ dict_has (lit "error") result = false
      /\ dict_get (lit "risks") result = Some (PList [PDict placeholder])
      /\ dict_get (lit "confidence") placeholder = Some (PFloat (FFin 1))
      /\ dict_get (lit "severity") placeholder = Some (PStr (lit "low")).
Proof.
  intros rt svc self text Htext Hnone.
  unfold RiskAnalyzer.analyze_risks.
  rewrite (truthy_strip_text text Htext). cbn [negb].
  unfold RiskAnalyzer._find_new_letters.
  rewrite (filter_none _ _ Hnone). cbn.
  do 2 eexists. repeat split.
Qed.

Lemma no_tracked_letter_short_circuits_witness :
  exists result placeholder,
    RiskAnalyzer.analyze_risks sample_runtime TaskSamples.silent_service
      TaskSamples.risk_analyzer TaskSamples.plain_text = (PDict result, [])
    /\ dict_has (lit "error") result = false
    /\ dict_get (lit "risks") result = Some (PList [PDict placeholder])
    /\ dict_get (lit "confidence") placeholder = Some (PFloat (FFin 1))
    /\ dict_get (lit "severity") placeholder = Some (PStr (lit "low")).
Proof.
  apply (no_tracked_letter_short_circuits sample_runtime
           TaskSamples.silent_service TaskSamples.risk_analyzer
           TaskSamples.plain_text).
  - vm_compute. discriminate.
  - intros letter H. cbn in H.
    repeat (destruct H as [<- | H]; [reflexivity|]). contradiction.
Defined.

(** C7, as stated, fails: a text of white space only is not the empty
    string and has none of the tracked letters, yet it is rejected as empty
    (line 65 tests the trimmed text): the result carries an error and no
    risk record, not the placeholder. *)
Lemma blank_text_gets_no_placeholder :
  TaskSamples.blank <> []
  /\ forallb (fun letter => negb (contains letter TaskSamples.blank))
       RiskAnalyzer.new_letters = true
  /\ (forall rt svc self,
        RiskAnalyzer.analyze_risks rt svc self TaskSamples.blank
        = (RiskAnalyzer.empty_text_result, []))
  /\ exists result,
       RiskAnalyzer.empty_text_result = PDict result
       /\ dict_has (lit "error") result = true
       /\ dict_get (lit "risks") result = Some (PList []).
Proof.
  split; [discriminate|]. split; [reflexivity|].
  split; [intros rt svc self; reflexivity|].
  eexists. repeat split.
Qed.

(** ** The statistics aggregators *)

Ltac read_only_steps :=
  repeat first
    [ apply read_only_ret
    | apply read_only_record_get
    | apply read_only_lift
    | apply read_only_size
    | apply read_only_bind; [|intro] ].

Lemma risk_round_read_only i t : read_only (RiskAnalyzer.risk_round i t).
Proof. unfold RiskAnalyzer.risk_round. read_only_steps. Qed.

Lemma group_round_read_only i t : read_only (CognateAligner.group_round i t).
Proof. unfold CognateAligner.group_round. read_only_steps. Qed.

Lemma risk_statistics_read_only rt text :
  read_only (RiskAnalyzer._calculate_risk_statistics rt text).
Proof.
  unfold RiskAnalyzer._calculate_risk_statistics.
  apply read_only_bind; [apply read_only_size|]. intros [|n].
  - apply read_only_ret.
  - apply read_only_bind.
    + apply read_only_for_each. intros i acc. apply risk_round_read_only.
    + intro t. read_only_steps.
Qed.

Lemma alignment_statistics_read_only rt candidates :
  read_only (CognateAligner._calculate_alignment_statistics rt candidates).
Proof.
  unfold CognateAligner._calculate_alignment_statistics.
  apply read_only_bind; [apply read_only_size|]. intros [|n].
  - apply read_only_ret.
  - apply read_only_bind.
    + apply read_only_for_each. intros i acc. apply group_round_read_only.
    + intro t. read_only_steps.
Qed.

(** C9: two calls in a row of either aggregator on the same collection give
    the same answer both times, and the collection is afterwards what it was
    before. *)
Theorem statistics_twice_agree :
  forall rt text candidates (collection : store),
    twice (RiskAnalyzer._calculate_risk_statistics rt text) collection
    = (fst (RiskAnalyzer._calculate_risk_statistics rt text collection),
       fst (RiskAnalyzer._calculate_risk_statistics rt text collection),
       collection)
    /\ twice (CognateAligner._calculate_alignment_statistics rt candidates)
         collection
       = (fst (CognateAligner._calculate_alignment_statistics rt candidates
                 collection),
          fst (CognateAligner._calculate_alignment_statistics rt candidates
                 collection),
          collection).
Proof.
  intros rt text candidates collection. split.
  - apply read_only_twice, risk_statistics_read_only.
  - apply read_only_twice, alignment_statistics_read_only.
Qed.

(** Risk statistics on two validated records. *)
Example risk_statistics_sample :
  forall rt text,
    fst (RiskAnalyzer._calculate_risk_statistics rt text
           [PDict [(lit "letter", PStr (lit "q"));
                   (lit "languages", PList [PStr (lit "kk")]);
                   (lit "confidence", PFloat (FFin (1 # 2)));
                   (lit "severity", PStr (lit "high"));
                   (lit "frequency_in_text", PInt 2)];
            PDict [(lit "letter", PStr (lit "q"));
                   (lit "languages", PList [PStr (lit "kk")]);
                   (lit "confidence", PFloat (FFin 1));
                   (lit "severity", PStr (lit "low"));
                   (lit "frequency_in_text", PInt 2)]])
    = Ok (PDict
            [(lit "total_risks", PInt 2);
             (lit "severity_distribution",
               PDict [(lit "low", PInt 1); (lit "medium", PInt 0);
                      (lit "high", PInt 1)]);
             (lit "average_confidence", PFloat (FFin (3 # 4)));
             (lit "most_problematic_letters",
               PList [PTuple [PStr (lit "q"); PInt 2]]);
             (lit "language_coverage", PList [PStr (lit "kk")]);
             (lit "total_new_letters_in_text", PInt 4)]).
Proof. intros rt text. vm_compute. reflexivity. Qed.

(** The alignment rate is 0 when there are no candidate words. *)
Example alignment_rate_without_candidates :
  forall rt,
    fst (CognateAligner._calculate_alignment_statistics rt []
           [PDict [(lit "similarity", PStr (lit "high"));
                   (lit "items", PList [CognateSamples.item "tr" "sehir"]);
                   (lit "confidence", PFloat (FFin (4 # 5)))]])
    = Ok (CognateAligner.stats_dict 0 1 1 (PFloat (FFin 1))
            {| low := 0; medium := 0; high := 1 |}
            (PList [PStr (lit "tr")]) (PFloat (FFin (4 # 5))) (PInt 0)).
Proof. intros rt. vm_compute. reflexivity. Qed.

(** ** The character check of the transliteration *)

Section CharacterCheck.

Import Transliterator.

Lemma filter_twice {A} (f g : A -> bool) (l : list A) :
  filter f (filter g l) = filter (fun x => g x && f x) l.
Proof.
  induction l as [|x l IH]; cbn [filter]; [reflexivity|].
  destruct (g x); cbn [filter andb]; [destruct (f x)|]; rewrite IH;
    reflexivity.
Qed.

Lemma filter_all {A} (l : list A) : filter (fun _ => true) l = l.
Proof. induction l as [|x l IH]; cbn [filter]; [|rewrite IH]; reflexivity. Qed.

Lemma char_in_snoc c acc d :
  char_in d (acc ++ [c]) = char_in d acc || N.eqb d c.
Proof.
  unfold char_in. rewrite existsb_app. cbn [existsb].
  rewrite orb_false_r. reflexivity.
Qed.

Lemma char_in_true c acc : char_in c acc = true -> In c acc.
Proof.
  unfold char_in. intros H. apply existsb_exists in H as (x & Hx & E).
  apply N.eqb_eq in E. subst. exact Hx.
Qed.

(** The loop of lines 205-208 adds to [invalid_chars], in order, the first
    occurrence of each invalid character of the text that is not there
    yet. *)
Lemma collect_invalid_from acc text :
  collect_invalid acc text
  = acc ++ filter (fun c => negb (char_in c acc))
             (first_occurrences (filter invalid text)).
Proof.
  revert acc. induction text as [|c rest IH]; intro acc.
  - cbn. symmetry. apply app_nil_r.
  - cbn [collect_invalid filter]. unfold invalid at 1.
    destruct (allowed c) eqn:Ea; cbn [negb andb].
    + apply IH.
    + cbn [first_occurrences filter].
      destruct (char_in c acc) eqn:Ec; cbn [negb].
      * rewrite IH. f_equal. rewrite filter_twice. apply filter_ext.
        intros d. destruct (N.eqb d c) eqn:Ed; cbn [negb andb];
          [|reflexivity].
        apply N.eqb_eq in Ed. subst d. rewrite Ec. reflexivity.
      * rewrite IH, <- app_assoc. cbn [app]. do 2 f_equal.
        rewrite filter_twice. apply filter_ext.
        intros d. rewrite char_in_snoc, negb_orb. apply andb_comm.
Qed.

Lemma collect_invalid_first_occurrences text :
  collect_invalid [] text = first_occurrences (filter invalid text).
Proof. rewrite collect_invalid_from. cbn [app char_in existsb negb]. apply filter_all. Qed.

(** Each character of [first_occurrences] stands there once, and they are
    the characters of the list. *)
Lemma first_occurrences_in l c : In c (first_occurrences l) <-> In c l.
Proof.
  induction l as [|x l IH]; cbn [first_occurrences]; [tauto|].
  cbn [In]. rewrite filter_In, IH. split.
  - intros [H | [H _]]; auto.
  - intros [H | H]; [auto|].
    destruct (N.eqb c x) eqn:E.
    + left. apply N.eqb_eq in E. auto.
    + right. split; [exact H | reflexivity].
Qed.

Lemma first_occurrences_nodup l : NoDup (first_occurrences l).
Proof.
  induction l as [|x l IH]; cbn [first_occurrences]; constructor.
  - rewrite filter_In. intros [_ H]. rewrite N.eqb_refl in H. discriminate.
  - apply NoDup_filter, IH.
Qed.

Lemma strings_of_chars l :
  strings_of (map (fun c => PStr [c]) l) = Ok (map (fun c => [c]) l).
Proof.
  induction l as [|c l IH]; cbn [map strings_of]; [reflexivity|].
  rewrite IH. reflexivity.
Qed.

Lemma count_letters_str s letters counts :
  exists r, count_letters (PStr s) letters counts = Ok r.
Proof.
  revert counts. induction letters as [|letter rest IH]; intro counts;
    cbn [count_letters text_count bind]; [eauto | apply IH].
Qed.

(** The quality control of a result whose [ok] is true and whose output is
    a non-empty string with characters outside the alphabet, when its notes
    are a list or absent. *)
Lemma quality_control_warns input_text source_language response d output notes :
  dict_get (lit "ok") d = Some (PBool true) ->
  dict_get (lit "output_text") d = Some (PStr output) ->
  filter invalid output <> [] ->
  dict_get_or (lit "notes") (PList []) d = PList notes ->
  exists d',
    quality_control input_text source_language response (PDict d)
    = Ok (PDict d')
    /\ dict_get (lit "ok") d' = Some (PBool true)
    /\ dict_has (lit "error") d' = dict_has (lit "error") d
    /\ dict_get (lit "notes") d'
       = Some (PList (notes ++ [warning_note output])).
Proof.
  intros Hok Hout Hinv Hnotes. unfold quality_control.
  rewrite (dict_get_or_some _ _ _ _ Hok), (dict_get_or_some _ _ _ _ Hout).
  assert (Hne : output <> []) by (intros ->; apply Hinv; reflexivity).
  destruct output as [|c0 out0] eqn:Eo; [congruence|]. rewrite <- Eo in *.
  assert (Ht : truthy (PStr output) = true) by (rewrite Eo; reflexivity).
  rewrite Ht. cbn [truthy andb].
  unfold validate_output, validate_ota_characters.
  rewrite collect_invalid_first_occurrences.
  destruct (first_occurrences (filter invalid output)) as [|i0 inv] eqn:Ei.
  { exfalso. destruct (filter invalid output) as [|x l]; [congruence|].
    discriminate Ei. }
  cbn [bind]. unfold add_warning. rewrite Hnotes.
  rewrite strings_of_chars. cbn [bind].
  unfold statistics. cbn [py_len bind].
  unfold _count_new_letters.
  destruct (count_letters_str output new_letters []) as [r ->]. cbn [bind].
  eexists. split; [reflexivity|].
  split; [|split].
  - rewrite !dict_get_set_other by reflexivity. exact Hok.
  - unfold dict_has. rewrite !dict_get_set_other by reflexivity. reflexivity.
  - rewrite !dict_get_set_other by reflexivity.
    rewrite dict_get_set_same. unfold warning_note. rewrite Ei. reflexivity.
Qed.

End CharacterCheck.

(** C10, as stated, fails: the parsed response has [ok] true and a non-empty
    output, but its notes are a string; the characters outside the alphabet
    make line 304 call [append] on it, and the task ends in a failure.  With
    an output inside the alphabet the same response goes through. *)
Lemma invalid_characters_fail_on_string_notes :
  Json.loads TaskSamples.marked_output_string_notes
  = Some (PDict [(lit "ok", PBool true);
                 (lit "output_text", PStr (lit "a#b@c#"));
                 (lit "notes", PStr (lit "n"))])
  /\ (forall rt, exists d' calls,
        Transliterator.transliterate rt
          (fun _ => inl (TaskSamples.reply_with
                           TaskSamples.marked_output_string_notes))
          TaskSamples.engine (lit "herkes") (lit "Turkish")
        = (PDict d', calls)
        /\ dict_get (lit "ok") d' = Some (PBool false)
        /\ dict_has (lit "error") d' = true)
  /\ (forall rt, exists d' calls,
        Transliterator.transliterate rt
          (fun _ => inl (TaskSamples.reply_with
                           TaskSamples.clean_output_string_notes))
          TaskSamples.engine (lit "herkes") (lit "Turkish")
        = (PDict d', calls)
        /\ dict_get (lit "ok") d' = Some (PBool true)
        /\ dict_has (lit "error") d' = false).
Proof.
  split; [vm_compute; reflexivity|].
  split; intro rt; do 2 eexists; vm_compute; repeat split.
Qed.

(** C10 (amended): when the parsed response has [ok] true, a non-empty
    string as output with characters outside the allowed set, and notes that
    are a list or absent, [transliterate] returns a result that keeps [ok]
    true and gains no [error], and whose notes are the former ones followed by
    one warning that lists the invalid characters, each once, in the order of
    their first occurrence. *)
Theorem invalid_characters_only_warn :
  forall rt svc self input_text source_language rp d output notes,
    strip input_text <> [] ->
    client (Transliterator.llm self) = true ->
    svc {| rq_model := model (Transliterator.llm self);
           rq_system := Transliterator.system_prompt self;
           rq_user := Transliterator.user_prompt input_text source_language;
           rq_temperature := 1 # 10;
           rq_max_tokens := 2000 |} = inl rp ->
    parse_json_response rt (rp_content rp) = Ok (PDict d) ->
    dict_get (lit "ok") d = Some (PBool true) ->
    dict_get (lit "output_text") d = Some (PStr output) ->
    filter invalid output <> [] ->
    dict_get_or (lit "notes") (PList []) d = PList notes ->
    exists d' calls,
      Transliterator.transliterate rt svc self input_text source_language
      = (PDict d', calls)
      /\ dict_get (lit "ok") d' = Some (PBool true)
      /\ dict_has (lit "error") d' = dict_has (lit "error") d
      /\ dict_get (lit "notes") d'
         = Some (PList
                   (notes
                    ++ [PStr (Transliterator.warning_prefix
                              ++ join (lit ", ")
                                   (map (fun c => [c])
                                      (first_occurrences
                                         (filter invalid output))))])).
Proof.
  intros rt svc self input_text source_language rp d output notes
    Htext Hclient Hsvc Hparse Hok Hout Hinv Hnotes.
  unfold Transliterator.transliterate.
  rewrite (truthy_strip_text input_text Htext). cbn [negb].
  unfold call_llm. rewrite Hclient. cbn [negb]. rewrite Hsvc.
  cbn [bind]. unfold Transliterator.after_call.
  change (dict_get (lit "content") (reply_dict rp))
    with (Some (PStr (rp_content rp))).
  cbn [bind]. rewrite Hparse. cbn [bind].
  destruct (quality_control_warns input_text source_language (reply_dict rp)
              d output notes Hok Hout Hinv Hnotes)
    as (d' & -> & Hok' & Herr & Hnotes').
  exists d'. eexists. split; [reflexivity|].
  split; [exact Hok'|]. split; [exact Herr | exact Hnotes'].
Qed.

Lemma invalid_characters_only_warn_witness :
  exists d' calls,
    Transliterator.transliterate sample_runtime
      (fun _ => inl (TaskSamples.reply_with TaskSamples.marked_output))
      TaskSamples.engine (lit "herkes") (lit "Turkish")
    = (PDict d', calls)
    /\ dict_get (lit "ok") d' = Some (PBool true)
    /\ dict_has (lit "error") d' = false
    /\ dict_get (lit "notes") d'
       = Some (PList [PStr (lit "n");
                      PStr (lit "Warning: Invalid characters detected: #, @")]).
Proof.
  apply (invalid_characters_only_warn sample_runtime
           (fun _ => inl (TaskSamples.reply_with TaskSamples.marked_output))
           TaskSamples.engine (lit "herkes") (lit "Turkish")
           (TaskSamples.reply_with TaskSamples.marked_output)
           [(lit "ok", PBool true); (lit "output_text", PStr (lit "a#b@c#"));
            (lit "notes", PList [PStr (lit "n")])]
           (lit "a#b@c#") [PStr (lit "n")]).
  - vm_compute. discriminate.
  - reflexivity.
  - reflexivity.
  - vm_compute. reflexivity.
  - reflexivity.
  - reflexivity.
  - vm_compute. discriminate.
  - reflexivity.
Defined.

(** * Further properties of the code *)

From Stdlib Require Import Permutation Lqa.

Import Shapes.

(** ** [validate_ota_characters] *)

Lemma first_occurrences_nil l : first_occurrences l = [] -> l = [].
Proof. destruct l; [reflexivity | discriminate]. Qed.

Lemma filter_invalid_nil text :
  filter invalid text = [] <-> forallb allowed text = true.
Proof.
  induction text as [|c text IH]; cbn [filter forallb]; [tauto|].
  unfold invalid at 1. destruct (allowed c); cbn [negb andb].
  - exact IH.
  - split; discriminate.
Qed.

(** X1: the check answers [True] exactly when every character of the text
    is allowed, and the characters it reports are the characters of the text
    that are not allowed, each once. *)
Theorem validate_ota_characters_reports_invalid :
  forall text,
    (fst (validate_ota_characters text) = true
     <-> forallb allowed text = true)
    /\ NoDup (snd (validate_ota_characters text))
    /\ forall c,
         In c (snd (validate_ota_characters text))
         <-> In c text /\ allowed c = false.
Proof.
  intros text. unfold validate_ota_characters. cbn [fst snd].
  rewrite collect_invalid_first_occurrences. split; [|split].
  - rewrite <- filter_invalid_nil.
    destruct (first_occurrences (filter invalid text)) eqn:E.
    + apply first_occurrences_nil in E. rewrite E. tauto.
    + split; [discriminate|]. intros H. rewrite H in E. discriminate.
  - apply first_occurrences_nodup.
  - intros c. rewrite first_occurrences_in, filter_In. unfold invalid.
    rewrite negb_true_iff. tauto.
Qed.

(** ** What the validators return *)

Import Settled.

Lemma dict_set_id k v d : dict_get k d = Some v -> dict_set k v d = d.
Proof.
  induction d as [|[k' v'] d IH]; cbn [dict_get dict_set]; [discriminate|].
  destruct (str_eqb k k') eqn:E.
  - intros [= ->]. apply str_eqb_eq in E. subst. reflexivity.
  - intros H. rewrite IH by exact H. reflexivity.
Qed.

Lemma count_from_nonneg sub k s : 0 <= count_from sub k s.
Proof.
  revert k. induction s as [|c s IH]; intro k; cbn [count_from]; [lia|].
  destruct k; [|apply IH].
  destruct (startswith sub (c :: s)); [|apply IH].
  specialize (IH (length sub - 1)%nat). lia.
Qed.

Lemma count_nonneg sub s : 0 <= count sub s.
Proof. unfold count. destruct sub; [lia | apply count_from_nonneg]. Qed.

Lemma in_strs_inv v l :
  in_strs v l = true -> exists s, v = PStr s /\ In s l.
Proof.
  unfold in_strs. intros H. apply existsb_exists in H as (s & Hs & E).
  destruct v; try discriminate. apply str_eqb_eq in E. subst. eauto.
Qed.

Lemma in_strs_intro s l : In s l -> in_strs (PStr s) l = true.
Proof.
  intros H. apply existsb_exists. exists s. split; [exact H|].
  apply str_eqb_refl.
Qed.

Section RiskShape.

Import RiskAnalyzer.

Lemma clamp_fixed f : clamp (clamp f) = clamp f.
Proof.
  unfold clamp, py_min, py_max.
  destruct f as [|[]|q]; cbn [float_ltb]; try reflexivity.
  destruct (Qcompare q 1) eqn:E1; cbn [float_ltb]; try reflexivity.
  destruct (Qcompare 0 q) eqn:E0; cbn [float_ltb]; try reflexivity.
  rewrite E1. cbn [float_ltb]. rewrite E0. reflexivity.
Qed.

Lemma clamp_fixed_in_unit f : clamp f = f -> in_unit_interval f.
Proof. intros H. rewrite <- H. apply clamp_in_unit_interval. Qed.

Lemma listify_is_list rt field d :
  dict_has field d = true ->
  is_list (dict_get field (listify rt field d)) = true.
Proof.
  unfold dict_has, listify. destruct (dict_get field d) as [v|] eqn:E;
    [|discriminate].
  intros _. destruct v; try (rewrite dict_get_set_same; reflexivity).
  rewrite E. reflexivity.
Qed.

Lemma listify_fixed rt field d :
  is_list (dict_get field d) = true -> listify rt field d = d.
Proof.
  unfold listify. destruct (dict_get field d) as [[]|]; try discriminate.
  reflexivity.
Qed.

Lemma normalize_confidence_inv d d2 :
  normalize_confidence d = Some d2 ->
  exists f, d2 = dict_set (lit "confidence") (PFloat f) d /\ clamp f = f.
Proof.
  unfold normalize_confidence.
  destruct (py_float _) as [x|e].
  - intros [= <-]. exists (clamp x). split; [reflexivity | apply clamp_fixed].
  - destruct (caught_by _ e); [|discriminate].
    intros [= <-]. exists (FFin (1 # 2)). split; reflexivity.
Qed.

Lemma normalize_severity_get d :
  exists s,
    dict_get (lit "severity") (normalize_severity d) = Some s
    /\ in_strs s severities = true.
Proof.
  unfold normalize_severity.
  destruct (dict_get (lit "severity") d) as [s|] eqn:E.
  - destruct (in_strs s severities) eqn:Es.
    + eauto.
    + rewrite dict_get_set_same. eexists. split; reflexivity.
  - rewrite dict_get_set_same. eexists. split; reflexivity.
Qed.

Lemma normalize_severity_fixed d s :
  dict_get (lit "severity") d = Some s ->
  in_strs s severities = true ->
  normalize_severity d = d.
Proof. unfold normalize_severity. intros -> ->. reflexivity. Qed.

Lemma default_context_has rt d :
  dict_has (lit "context") (default_context rt d) = true.
Proof.
  unfold default_context. destruct (dict_has (lit "context") d) eqn:E;
    [exact E | apply dict_has_set_same].
Qed.

Lemma normalize_severity_has k d :
  dict_has k d = true -> dict_has k (normalize_severity d) = true.
Proof.
  intros H. unfold normalize_severity.
  destruct (dict_get (lit "severity") d) as [s|].
  - destruct (in_strs s severities); [exact H | apply dict_has_set_mono, H].
  - apply dict_has_set_mono, H.
Qed.

Lemma default_context_keeps rt k d :
  dict_has k d = true -> dict_has k (default_context rt d) = true.
Proof.
  intros H. unfold default_context.
  destruct (dict_has (lit "context") d); [exact H | apply dict_has_set_mono, H].
Qed.

Lemma forallb_has_mono (f : pydict -> pydict) fields d :
  (forall k, dict_has k d = true -> dict_has k (f d) = true) ->
  forallb (fun field => dict_has field d) fields = true ->
  forallb (fun field => dict_has field (f d)) fields = true.
Proof.
  intros Hf H. rewrite forallb_forall in *. intros k Hk. apply Hf, H, Hk.
Qed.

(** Whatever the validator returns is settled. *)
Lemma validate_risk_settles rt risk text d' :
  _validate_and_enrich_risk rt risk text = Some d' ->
  settled_risk rt text d'.
Proof.
  unfold _validate_and_enrich_risk.
  destruct risk as [| | | | | | | |d]; try discriminate.
  destruct (forallb (fun field => dict_has field d) required_fields) eqn:Hreq;
    cbn [negb]; [|discriminate].
  set (d1 := listify rt (lit "examples")
               (listify rt (lit "languages")
                  (listify rt (lit "possible_confusions") d))).
  destruct (normalize_confidence d1) as [d2|] eqn:Hn; [|discriminate].
  apply normalize_confidence_inv in Hn as (f & -> & Hf).
  unfold add_frequency.
  set (d4 := default_context rt
               (normalize_severity (dict_set (lit "confidence") (PFloat f) d1))).
  destruct (dict_get (lit "letter") d4) as [[| | | |letter| | | |]|] eqn:Hl;
    try discriminate.
  intros [= <-].
  assert (Hhas : forall k, dict_has k d = true -> dict_has k d4 = true).
  { intros k H. subst d4 d1.
    apply default_context_keeps, normalize_severity_has, dict_has_set_mono.
    do 3 apply listify_has. exact H. }
  assert (Hpc : dict_has (lit "possible_confusions") d = true)
    by (rewrite forallb_forall in Hreq; apply Hreq; cbn; tauto).
  assert (Hla : dict_has (lit "languages") d = true)
    by (rewrite forallb_forall in Hreq; apply Hreq; cbn; tauto).
  assert (Hex : dict_has (lit "examples") d = true)
    by (rewrite forallb_forall in Hreq; apply Hreq; cbn; tauto).
  split; [|split; [|split; [|split; [|split; [|split; [|split]]]]]].
  - apply (forallb_has_mono (fun _ => _) required_fields d).
    + intros k H. apply dict_has_set_mono, Hhas, H.
    + exact Hreq.
  - rewrite dict_get_set_other by reflexivity. subst d4 d1.
    rewrite default_context_other, normalize_severity_other by reflexivity.
    rewrite dict_get_set_other by reflexivity.
    rewrite !listify_other by reflexivity.
    apply listify_is_list, Hpc.
  - rewrite dict_get_set_other by reflexivity. subst d4 d1.
    rewrite default_context_other, normalize_severity_other by reflexivity.
    rewrite dict_get_set_other by reflexivity.
    rewrite listify_other by reflexivity.
    apply listify_is_list, listify_has, Hla.
  - rewrite dict_get_set_other by reflexivity. subst d4 d1.
    rewrite default_context_other, normalize_severity_other by reflexivity.
    rewrite dict_get_set_other by reflexivity.
    apply listify_is_list. do 2 apply listify_has. exact Hex.
  - exists f. split; [|exact Hf].
    rewrite dict_get_set_other by reflexivity. subst d4.
    rewrite default_context_other, normalize_severity_other by reflexivity.
    apply dict_get_set_same.
  - rewrite dict_get_set_other by reflexivity. subst d4.
    rewrite default_context_other by reflexivity.
    apply normalize_severity_get.
  - apply dict_has_set_mono. subst d4. apply default_context_has.
  - exists letter. split.
    + rewrite dict_get_set_other by reflexivity. exact Hl.
    + apply dict_get_set_same.
Qed.

(** On a settled risk every step of the validator changes nothing. *)
Lemma settled_risk_fixed rt text d :
  settled_risk rt text d ->
  _validate_and_enrich_risk rt (PDict d) text = Some d.
Proof.
  intros (Hreq & Hpc & Hla & Hex & (f & Hc & Hf) & (s & Hs & Hin) & Hctx
          & (letter & Hl & Hfreq)).
  unfold _validate_and_enrich_risk. rewrite Hreq. cbn [negb].
  rewrite (listify_fixed rt _ d Hpc), (listify_fixed rt _ d Hla),
    (listify_fixed rt _ d Hex).
  unfold normalize_confidence. rewrite (dict_get_or_some _ _ _ _ Hc).
  cbn [py_float]. rewrite Hf, (dict_set_id _ _ _ Hc).
  rewrite (normalize_severity_fixed d s Hs Hin).
  unfold default_context. rewrite Hctx.
  unfold add_frequency. rewrite Hl, (dict_set_id _ _ _ Hfreq). reflexivity.
Qed.

Lemma settled_risk_validated rt text d :
  settled_risk rt text d -> validated_risk d.
Proof.
  intros (Hreq & Hpc & Hla & Hex & (f & Hc & Hf) & (s & Hs & Hin) & Hctx
          & (letter & Hl & Hfreq)).
  apply in_strs_inv in Hin as (s' & -> & Hin).
  repeat split; eauto.
  - exists f. split; [exact Hc | apply clamp_fixed_in_unit, Hf].
  - eexists. split; [exact Hfreq|].
    pose proof (count_nonneg (str_lower rt letter) text).
    pose proof (count_nonneg (str_upper rt letter) text). lia.
Qed.

End RiskShape.

(** X2: whatever it is given, a record that [_validate_and_enrich_risk]
    returns has a string as letter, lists as possible_confusions, languages
    and examples, a float confidence in [0,1], a severity among low, medium
    and high, a context, and a frequency that is a non-negative integer. *)
Theorem validated_risk_shape :
  forall rt risk text d',
    RiskAnalyzer._validate_and_enrich_risk rt risk text = Some d' ->
    validated_risk d'.
Proof.
  intros rt risk text d' H.
  apply (settled_risk_validated rt text), (validate_risk_settles rt risk), H.
Qed.

Lemma validated_risk_shape_witness :
  validated_risk
    (dict_set (lit "frequency_in_text") (PInt 4)
       (dict_set (lit "context")
          (PStr (lit "Phonetic ambiguity for letter 'q'"))
          (dict_set (lit "severity") (PStr (lit "medium"))
             (dict_set (lit "confidence") (PFloat (FFin (19 # 20)))
                RiskSamples.string_confidence)))).
Proof.
  apply (validated_risk_shape sample_runtime
           (PDict RiskSamples.string_confidence) (lit "qazaq Qazaq")).
  vm_compute. reflexivity.
Defined.

(** X3: validating again, against the same text, a record that the
    validator returned gives that record back unchanged. *)
Theorem validate_risk_idempotent :
  forall rt risk text d',
    RiskAnalyzer._validate_and_enrich_risk rt risk text = Some d' ->
    RiskAnalyzer._validate_and_enrich_risk rt (PDict d') text = Some d'.
Proof.
  intros rt risk text d' H.
  apply settled_risk_fixed, (validate_risk_settles rt risk), H.
Qed.

Lemma validate_risk_idempotent_witness :
  exists d',
    RiskAnalyzer._validate_and_enrich_risk sample_runtime
      (PDict RiskSamples.large_confidence) (lit "qazaq") = Some d'
    /\ RiskAnalyzer._validate_and_enrich_risk sample_runtime (PDict d')
         (lit "qazaq") = Some d'.
Proof.
  eexists. split.
  - vm_compute. reflexivity.
  - apply (validate_risk_idempotent sample_runtime
             (PDict RiskSamples.large_confidence)).
    vm_compute. reflexivity.
Defined.

Section GroupShape.

Import CognateAligner.

Lemma fill_ota_validated item :
  valid_item item = true -> validated_item (fill_ota item) = true.
Proof.
  destruct item as [| | | | | | | |d]; try discriminate.
  cbn [valid_item fill_ota]. intros H.
  apply andb_true_iff in H as [Hl Ho].
  destruct (dict_has (lit "ota") d) eqn:E; cbn [validated_item].
  - rewrite Hl, Ho, E. reflexivity.
  - rewrite (dict_has_set_mono _ _ _ _ Hl), (dict_has_set_mono _ _ _ _ Ho),
      dict_has_set_same. reflexivity.
Qed.

Lemma validate_items_validated items :
  forallb validated_item (validate_items items) = true.
Proof.
  unfold validate_items. induction items as [|x l IH]; [reflexivity|].
  cbn [filter]. destruct (valid_item x) eqn:E; [|exact IH].
  cbn [map forallb]. rewrite (fill_ota_validated x E). exact IH.
Qed.

Lemma validated_item_fixed item :
  validated_item item = true ->
  valid_item item = true /\ fill_ota item = item.
Proof.
  destruct item as [| | | | | | | |d]; try discriminate.
  cbn [validated_item valid_item fill_ota]. intros H.
  apply andb_true_iff in H as [H Ho]. rewrite H, Ho. split; reflexivity.
Qed.

Lemma validate_items_fixed items :
  forallb validated_item items = true -> validate_items items = items.
Proof.
  unfold validate_items. induction items as [|x l IH]; [reflexivity|].
  cbn [forallb filter]. intros H. apply andb_true_iff in H as [Hx Hl].
  destruct (validated_item_fixed x Hx) as [Hv Hf].
  rewrite Hv. cbn [map]. rewrite Hf, (IH Hl). reflexivity.
Qed.

Lemma normalize_similarity_has k d :
  dict_has k d = true -> dict_has k (normalize_similarity d) = true.
Proof.
  intros H. unfold normalize_similarity.
  destruct (in_strs _ similarities); [exact H | apply dict_has_set_mono, H].
Qed.

Lemma normalize_similarity_tier d :
  dict_has (lit "similarity") d = true ->
  exists s,
    dict_get (lit "similarity") (normalize_similarity d) = Some s
    /\ in_strs s similarities = true.
Proof.
  intros H. apply dict_has_get in H as [sim Hsim].
  rewrite (normalize_similarity_get d sim Hsim). exists (tier_of sim).
  split; [reflexivity|]. unfold tier_of.
  destruct (in_strs sim similarities) eqn:E; [exact E | reflexivity].
Qed.

Lemma default_confidence_has d :
  dict_has (lit "confidence") (default_confidence d) = true.
Proof.
  unfold default_confidence. destruct (dict_has (lit "confidence") d) eqn:E;
    [exact E | apply dict_has_set_same].
Qed.

Lemma default_confidence_keeps k d :
  dict_has k d = true -> dict_has k (default_confidence d) = true.
Proof.
  intros H. unfold default_confidence.
  destruct (dict_has (lit "confidence") d);
    [exact H | apply dict_has_set_mono, H].
Qed.

Lemma default_root_analysis_has d :
  dict_has (lit "root_analysis") (default_root_analysis d) = true.
Proof.
  unfold default_root_analysis.
  destruct (dict_has (lit "root_analysis") d) eqn:E;
    [exact E | apply dict_has_set_same].
Qed.

Lemma default_root_analysis_keeps k d :
  dict_has k d = true -> dict_has k (default_root_analysis d) = true.
Proof.
  intros H. unfold default_root_analysis.
  destruct (dict_has (lit "root_analysis") d);
    [exact H | apply dict_has_set_mono, H].
Qed.

(** Whatever the group validator returns is settled. *)
Lemma validate_group_settles group d' :
  _validate_group group = Some d' -> settled_group d'.
Proof.
  unfold _validate_group.
  destruct group as [| | | | | | | |d]; try discriminate.
  destruct (forallb (fun field => dict_has field d) required_fields) eqn:Hreq;
    cbn [negb]; [|discriminate].
  destruct (iterate _) as [items|e]; [|discriminate].
  destruct (length (validate_items items) <? 2)%nat eqn:Hlen; [discriminate|].
  apply Nat.ltb_ge in Hlen. intros [= <-].
  set (d1 := normalize_similarity d).
  set (d2 := dict_set (lit "items") (PList (validate_items items)) d1).
  assert (Hhas : forall k, dict_has k d = true ->
            dict_has k (default_root_analysis (default_confidence d2)) = true).
  { intros k H. apply default_root_analysis_keeps, default_confidence_keeps.
    subst d2 d1. apply dict_has_set_mono, normalize_similarity_has, H. }
  split; [|split; [|split; [|split]]].
  - apply (forallb_has_mono (fun _ => _) required_fields d); assumption.
  - assert (Hs : dict_has (lit "similarity") d = true)
      by (rewrite forallb_forall in Hreq; apply Hreq; cbn; tauto).
    destruct (normalize_similarity_tier d Hs) as (s & Hget & Hin).
    exists s. split; [|exact Hin].
    rewrite default_root_analysis_other, default_confidence_other
      by reflexivity.
    subst d2 d1. rewrite dict_get_set_other by reflexivity. exact Hget.
  - exists (validate_items items). split; [|split].
    + rewrite default_root_analysis_other, default_confidence_other
        by reflexivity.
      subst d2. apply dict_get_set_same.
    + exact Hlen.
    + apply validate_items_validated.
  - apply default_root_analysis_keeps, default_confidence_has.
  - apply default_root_analysis_has.
Qed.

(** On a settled group every step of the validator changes nothing. *)
Lemma settled_group_fixed d :
  settled_group d -> _validate_group (PDict d) = Some d.
Proof.
  intros (Hreq & (s & Hs & Hin) & (items & Hi & Hlen & Hall) & Hc & Hr).
  unfold _validate_group. rewrite Hreq. cbn [negb].
  assert (Hn : normalize_similarity d = d).
  { unfold normalize_similarity. rewrite (dict_get_or_some _ _ _ _ Hs), Hin.
    reflexivity. }
  rewrite Hn, (dict_get_or_some _ _ _ _ Hi). cbn [iterate].
  rewrite (validate_items_fixed items Hall).
  destruct (length items <? 2)%nat eqn:E; [apply Nat.ltb_lt in E; lia|].
  rewrite (dict_set_id _ _ _ Hi).
  unfold default_confidence. rewrite Hc.
  unfold default_root_analysis. rewrite Hr. reflexivity.
Qed.

Lemma settled_group_validated d : settled_group d -> validated_group d.
Proof.
  intros (Hreq & (s & Hs & Hin) & Hitems & Hc & Hr).
  apply in_strs_inv in Hin as (s' & -> & Hin).
  repeat split; eauto.
  rewrite forallb_forall in Hreq. apply Hreq. cbn. tauto.
Qed.

End GroupShape.

(** X4: whatever it is given, a group that [_validate_group] returns has a
    similarity among high, medium and low, at least two items, each a dict
    with lang, original and ota, and a rationale, a confidence and a
    root_analysis. *)
Theorem validated_group_shape :
  forall group d',
    CognateAligner._validate_group group = Some d' -> validated_group d'.
Proof.
  intros group d' H.
  apply settled_group_validated, (validate_group_settles group), H.
Qed.

Lemma validated_group_shape_witness :
  exists d',
    CognateAligner._validate_group (PDict CognateSamples.lone_group) = Some d'
    /\ validated_group d'.
Proof.
  eexists. split; [vm_compute; reflexivity|].
  apply (validated_group_shape (PDict CognateSamples.lone_group)).
  vm_compute. reflexivity.
Defined.

(** X5: validating again a group that the validator returned gives that
    group back unchanged. *)
Theorem validate_group_idempotent :
  forall group d',
    CognateAligner._validate_group group = Some d' ->
    CognateAligner._validate_group (PDict d') = Some d'.
Proof.
  intros group d' H.
  apply settled_group_fixed, (validate_group_settles group), H.
Qed.

Lemma validate_group_idempotent_witness :
  exists d',
    CognateAligner._validate_group (PDict CognateSamples.lone_group) = Some d'
    /\ CognateAligner._validate_group (PDict d') = Some d'.
Proof.
  eexists. split; [vm_compute; reflexivity|].
  apply (validate_group_idempotent (PDict CognateSamples.lone_group)).
  vm_compute. reflexivity.
Defined.

(** ** Sets and the letters found in a text *)

Lemma key_eqb_str a v : key_eqb (PStr a) v = true -> v = PStr a.
Proof.
  destruct v; cbn; try discriminate.
  intros H. apply str_eqb_eq in H. subst. reflexivity.
Qed.

Lemma key_eqb_str_refl a : key_eqb (PStr a) (PStr a) = true.
Proof. cbn. apply str_eqb_refl. Qed.

Lemma set_add_str_in a s x :
  In x (set_add (PStr a) s) <-> x = PStr a \/ In x s.
Proof.
  unfold set_add. destruct (existsb (key_eqb (PStr a)) s) eqn:E.
  - split; [tauto|]. intros [-> | H]; [|exact H].
    apply existsb_exists in E as (y & Hy & Hk).
    apply key_eqb_str in Hk. subst y. exact Hy.
  - rewrite in_app_iff. cbn [In]. intuition congruence.
Qed.

Lemma set_add_str_nodup a s : NoDup s -> NoDup (set_add (PStr a) s).
Proof.
  intros H. unfold set_add.
  destruct (existsb (key_eqb (PStr a)) s) eqn:E; [exact H|].
  apply NoDup_app; [exact H | repeat constructor; intros [] |].
  intros x Hx [<- | []].
  assert (existsb (key_eqb (PStr a)) s = true); [|congruence].
  apply existsb_exists. exists (PStr a). split; [exact Hx|].
  apply key_eqb_str_refl.
Qed.

Lemma set_of_strs_from l s x :
  In x (fold_left (fun s v => set_add v s) (map PStr l) s)
  <-> In x s \/ exists a, x = PStr a /\ In a l.
Proof.
  revert s. induction l as [|a l IH]; intro s; cbn [map fold_left].
  - split; [tauto|]. intros [H | (a & _ & [])]. exact H.
  - rewrite IH, set_add_str_in. cbn [In]. split.
    + intros [[-> | H] | (b & -> & Hb)]; eauto.
    + intros [H | (b & -> & [<- | Hb])]; eauto.
Qed.

Lemma set_of_strs_nodup l s :
  NoDup s -> NoDup (fold_left (fun s v => set_add v s) (map PStr l) s).
Proof.
  revert s. induction l as [|a l IH]; intros s H; cbn [map fold_left];
    [exact H | apply IH, set_add_str_nodup, H].
Qed.

Lemma insert_ranked_perm rank v l : Permutation (v :: l) (insert_ranked rank v l).
Proof.
  induction l as [|x l IH]; cbn [insert_ranked]; [reflexivity|].
  destruct (rank v <? rank x)%N; [reflexivity|].
  rewrite perm_swap. constructor. exact IH.
Qed.

Lemma list_of_set_from rt s acc :
  Permutation (s ++ acc)
    (fold_left (fun acc v => insert_ranked (set_rank rt) v acc) s acc).
Proof.
  revert acc. induction s as [|v s IH]; intro acc; cbn [fold_left app];
    [reflexivity|].
  rewrite <- IH. rewrite <- insert_ranked_perm.
  apply Permutation_middle.
Qed.

(** [list(s)] holds the elements of the set, each once, in some order. *)
Lemma list_of_set_perm rt s : Permutation s (list_of_set rt s).
Proof.
  unfold list_of_set. rewrite <- list_of_set_from, app_nil_r. reflexivity.
Qed.

Lemma find_new_letters_nodup rt text :
  NoDup (RiskAnalyzer._find_new_letters rt text).
Proof.
  unfold RiskAnalyzer._find_new_letters, set_of_list.
  eapply Permutation_NoDup; [apply list_of_set_perm|].
  apply set_of_strs_nodup. constructor.
Qed.

Lemma find_new_letters_in rt text v :
  In v (RiskAnalyzer._find_new_letters rt text)
  <-> exists letter,
        v = PStr letter
        /\ In letter RiskAnalyzer.new_letters
        /\ contains letter text = true.
Proof.
  unfold RiskAnalyzer._find_new_letters, set_of_list.
  set (found := filter (fun letter => contains letter text)
                  RiskAnalyzer.new_letters).
  pose proof (list_of_set_perm rt
                (fold_left (fun s v => set_add v s) (map PStr found) []))
    as P.
  split.
  - intros H. apply (Permutation_in _ (Permutation_sym P)) in H.
    apply set_of_strs_from in H as [[] | (a & -> & Ha)].
    subst found. apply filter_In in Ha. eauto.
  - intros (letter & -> & Hin & Hc). apply (Permutation_in _ P).
    apply set_of_strs_from. right. exists letter. split; [reflexivity|].
    subst found. apply filter_In. auto.
Qed.

(** X6: [_find_new_letters] returns, without repetition, exactly the
    tracked letters that occur in the text. *)
Theorem find_new_letters_exact :
  forall rt text,
    NoDup (RiskAnalyzer._find_new_letters rt text)
    /\ forall v,
         In v (RiskAnalyzer._find_new_letters rt text)
         <-> exists letter,
               v = PStr letter
               /\ In letter RiskAnalyzer.new_letters
               /\ contains letter text = true.
Proof.
  intros rt text.
  split; [apply find_new_letters_nodup | apply find_new_letters_in].
Qed.

(** ** The letters counted in an output *)

Lemma count_letters_get s letters counts k :
  exists r,
    Transliterator.count_letters (PStr s) letters counts = Ok r
    /\ dict_get k r
       = if existsb (str_eqb k) letters && (0 <? count k s)
         then Some (PInt (count k s))
         else dict_get k counts.
Proof.
  revert counts. induction letters as [|letter rest IH]; intro counts;
    cbn [Transliterator.count_letters Transliterator.text_count bind existsb].
  - eexists. split; reflexivity.
  - destruct (IH (if 0 <? count letter s
                  then dict_set letter (PInt (count letter s)) counts
                  else counts)) as (r & -> & Hr).
    exists r. split; [reflexivity|]. rewrite Hr.
    destruct (existsb (str_eqb k) rest && (0 <? count k s)) eqn:E.
    + rewrite orb_comm in *. apply andb_true_iff in E as [E1 E2].
      rewrite E1, E2. destruct (str_eqb k letter); reflexivity.
    + destruct (str_eqb k letter) eqn:Ek; cbn [orb].
      * apply str_eqb_eq in Ek. subst letter.
        destruct (0 <? count k s) eqn:Ec; cbn [andb].
        -- apply dict_get_set_same.
        -- reflexivity.
      * apply andb_false_iff in E.
        assert (Hsame : dict_get k (if 0 <? count letter s
                                    then dict_set letter (PInt (count letter s)) counts
                                    else counts) = dict_get k counts).
        { destruct (0 <? count letter s); [|reflexivity].
          apply dict_get_set_other, Ek. }
        rewrite Hsame. destruct E as [-> | ->]; cbn [andb];
          [reflexivity | rewrite andb_false_r; reflexivity].
Qed.

(** X7: for a string, [_count_new_letters] reports a letter exactly when it
    is one of its twelve tracked letters and occurs in the text, with the
    number of its occurrences; the schwa, small or capital, is not one of
    them and is never reported. *)
Theorem count_new_letters_exact :
  forall text,
    exists counts,
      Transliterator._count_new_letters (PStr text) = Ok counts
      /\ (forall letter,
            dict_get letter counts
            = if existsb (str_eqb letter) Transliterator.new_letters
                 && (0 <? count letter text)
              then Some (PInt (count letter text))
              else None)
      /\ dict_get [601%N] counts = None
      /\ dict_get [399%N] counts = None.
Proof.
  intros text. unfold Transliterator._count_new_letters.
  assert (H : forall k, exists r,
            Transliterator.count_letters (PStr text)
              Transliterator.new_letters [] = Ok r
            /\ dict_get k r
               = if existsb (str_eqb k) Transliterator.new_letters
                    && (0 <? count k text)
                 then Some (PInt (count k text)) else None).
  { intro k. apply (count_letters_get text Transliterator.new_letters [] k). }
  destruct (H []) as (r & Hr & _). exists r. split; [exact Hr|].
  assert (Hall : forall letter,
            dict_get letter r
            = if existsb (str_eqb letter) Transliterator.new_letters
                 && (0 <? count letter text)
              then Some (PInt (count letter text)) else None).
  { intros letter. destruct (H letter) as (r' & Hr' & Hget).
    rewrite Hr in Hr'. injection Hr' as <-. exact Hget. }
  split; [exact Hall|]. rewrite !Hall. split; reflexivity.
Qed.

(** ** What the statistics add up to *)

Import Totals.

Lemma bindM_ok {A B} (m : M A) (k : A -> M B) s b s' :
  bindM m k s = (Ok b, s')
  -> exists a s1, m s = (Ok a, s1) /\ k a s1 = (Ok b, s').
Proof.
  unfold bindM. destruct (m s) as [[a|e] s1]; [eauto | discriminate].
Qed.

Lemma lift_ok {A} (r : res A) s a s' :
  lift r s = (Ok a, s') -> r = Ok a /\ s' = s.
Proof. unfold lift. intros H. injection H as -> ->. auto. Qed.

Lemma ret_ok {A} (a : A) s b s' : ret a s = (Ok b, s') -> b = a /\ s' = s.
Proof. unfold ret. intros H. injection H as -> ->. auto. Qed.

Lemma record_get_ok i key default s v s' :
  record_get i key default s = (Ok v, s')
  -> s' = s
     /\ exists d, nth_error s i = Some (PDict d)
                  /\ v = dict_get_or key default d.
Proof.
  unfold record_get. destruct (nth_error s i) as [[]|]; try discriminate.
  intros H. injection H as <- <-. eauto.
Qed.

Ltac run_round H :=
  repeat match type of H with
    | bindM (record_get _ _ _) _ _ = (Ok _, _) =>
        let a := fresh "v" in let s1 := fresh "s" in
        let H1 := fresh "Hget" in let d := fresh "d" in
        apply bindM_ok in H as (a & s1 & H1 & H);
        apply record_get_ok in H1 as (-> & d & H1 & ->)
    | bindM (lift _) _ _ = (Ok _, _) =>
        let a := fresh "v" in let s1 := fresh "s" in
        let H1 := fresh "Hrun" in
        apply bindM_ok in H as (a & s1 & H1 & H);
        apply lift_ok in H1 as (H1 & ->)
    | ret _ _ = (Ok _, _) => apply ret_ok in H as (-> & ->)
    end.

Lemma bump_tier_ok v c c' :
  bump_tier v c = Ok c'
  -> tier_sum c' = tier_sum c + 1
     /\ low c <= low c' /\ medium c <= medium c' /\ high c <= high c'
     /\ in_strs v RiskAnalyzer.severities = true.
Proof.
  unfold bump_tier, tier_sum, in_strs, RiskAnalyzer.severities.
  cbn [existsb].
  destruct (negb (hashable v)); [discriminate|].
  destruct (is_str v (lit "low")); [intros H; injection H as <-; cbn; lia|].
  destruct (is_str v (lit "medium")); [intros H; injection H as <-; cbn; lia|].
  destruct (is_str v (lit "high")); [intros H; injection H as <-; cbn; lia|].
  discriminate.
Qed.

Lemma count_incr_sum key m : count_sum (count_incr key m) = count_sum m + 1.
Proof.
  unfold count_sum. induction m as [|[k n] m IH]; cbn [count_incr]; [reflexivity|].
  destruct (key_eqb key k); cbn [map fold_right snd] in *; lia.
Qed.

Lemma count_incr_positive key m :
  Forall (fun kv => 1 <= snd kv) m
  -> Forall (fun kv => 1 <= snd kv) (count_incr key m).
Proof.
  induction 1 as [|[k n] m Hk Hm IH]; cbn [count_incr].
  - constructor; [cbn; lia | constructor].
  - destruct (key_eqb key k); constructor; cbn [snd] in *; auto; lia.
Qed.

Lemma count_key_ok key m m' :
  count_key key m = Ok m'
  -> count_sum m' = count_sum m + 1
     /\ (Forall (fun kv => 1 <= snd kv) m -> Forall (fun kv => 1 <= snd kv) m').
Proof.
  unfold count_key. destruct (hashable key); [|discriminate].
  intros H. injection H as <-.
  split; [apply count_incr_sum | apply count_incr_positive].
Qed.

Lemma insert_desc_perm x l : Permutation (x :: l) (insert_desc x l).
Proof.
  induction l as [|y l IH]; cbn [insert_desc]; [reflexivity|].
  destruct (snd y <? snd x); [reflexivity|].
  rewrite perm_swap. constructor. exact IH.
Qed.

Lemma insert_desc_hd y x l :
  HdRel by_count_desc y l -> by_count_desc y x
  -> HdRel by_count_desc y (insert_desc x l).
Proof.
  intros H Hx. destruct l as [|z l]; cbn [insert_desc].
  - constructor. exact Hx.
  - destruct (snd z <? snd x); constructor; [exact Hx|].
    inversion H; assumption.
Qed.

Lemma insert_desc_sorted x l :
  Sorted by_count_desc l -> Sorted by_count_desc (insert_desc x l).
Proof.
  induction 1 as [|y l Hs IH Hh]; cbn [insert_desc].
  - repeat constructor.
  - destruct (snd y <? snd x) eqn:E.
    + constructor; [constructor; assumption|].
      constructor. unfold by_count_desc. apply Z.ltb_lt in E. lia.
    + constructor; [exact IH|]. apply insert_desc_hd; [exact Hh|].
      unfold by_count_desc. apply Z.ltb_ge in E. exact E.
Qed.

Lemma sorted_desc_from l acc :
  Permutation (l ++ acc) (fold_left (fun acc x => insert_desc x acc) l acc)
  /\ (Sorted by_count_desc acc
      -> Sorted by_count_desc
           (fold_left (fun acc x => insert_desc x acc) l acc)).
Proof.
  revert acc. induction l as [|x l IH]; intro acc; cbn [fold_left app].
  - split; [reflexivity | auto].
  - destruct (IH (insert_desc x acc)) as [P S]. split.
    + rewrite <- P, <- insert_desc_perm. apply Permutation_middle.
    + intros H. apply S, insert_desc_sorted, H.
Qed.

(** [sorted(..., reverse=True)] reorders the table by decreasing count. *)
Lemma sorted_desc_ok l :
  Permutation l (sorted_desc l) /\ Sorted by_count_desc (sorted_desc l).
Proof.
  unfold sorted_desc. destruct (sorted_desc_from l []) as [P S].
  rewrite app_nil_r in P. split; [exact P | apply S; constructor].
Qed.

Lemma firstn_sorted {A} (R : A -> A -> Prop) n l :
  Sorted R l -> Sorted R (firstn n l).
Proof.
  revert l. induction n as [|n IH]; intros l H; cbn [firstn]; [constructor|].
  destruct H as [|x l Hs Hh]; [constructor|].
  constructor; [apply IH, Hs|].
  destruct Hh; destruct n; cbn [firstn]; constructor. assumption.
Qed.

Lemma In_firstn_carrier {A} n (l : list A) x : In x (firstn n l) -> In x l.
Proof.
  revert l. induction n as [|n IH]; intros [|y l]; cbn [firstn In];
    try tauto.
  intros [H | H]; auto.
Qed.

Lemma count_sum_perm l m : Permutation l m -> count_sum l = count_sum m.
Proof.
  unfold count_sum. induction 1; cbn [map fold_right]; lia.
Qed.

Lemma count_sum_firstn n l :
  Forall (fun kv => 1 <= snd kv) l -> count_sum (firstn n l) <= count_sum l.
Proof.
  unfold count_sum. intros H. revert n.
  induction H as [|x l Hx Hl IH]; intros [|n]; cbn [firstn map fold_right];
    try lia.
  - assert (0 <= fold_right Z.add 0 (map snd l)); [|lia].
    clear IH. induction Hl; cbn [map fold_right]; lia.
  - specialize (IH n). lia.
Qed.

Section RiskTotals.

Import RiskAnalyzer.

Lemma risk_round_ok i t s t' s' :
  risk_round i t s = (Ok t', s')
  -> s' = s
     /\ tier_sum (severity_distribution t')
        = tier_sum (severity_distribution t) + 1
     /\ low (severity_distribution t) <= low (severity_distribution t')
     /\ medium (severity_distribution t) <= medium (severity_distribution t')
     /\ high (severity_distribution t) <= high (severity_distribution t')
     /\ count_sum (letter_risk_count t') = count_sum (letter_risk_count t) + 1
     /\ (Forall (fun kv => 1 <= snd kv) (letter_risk_count t)
         -> Forall (fun kv => 1 <= snd kv) (letter_risk_count t'))
     /\ exists d,
          nth_error s i = Some (PDict d)
          /\ in_strs (dict_get_or (lit "severity") (PStr (lit "medium")) d)
               severities = true.
Proof.
  unfold risk_round. intros H. run_round H.
  apply bump_tier_ok in Hrun as (Hsum & Hl & Hm & Hh & Hsev).
  apply count_key_ok in Hrun1 as (Hc & Hp).
  cbn [severity_distribution letter_risk_count].
  repeat (split; [assumption || reflexivity|]).
  eauto.
Qed.

Lemma risk_rounds_ok positions t s t' s' :
  for_each risk_round positions t s = (Ok t', s')
  -> s' = s
     /\ tier_sum (severity_distribution t')
        = tier_sum (severity_distribution t) + Z.of_nat (length positions)
     /\ low (severity_distribution t) <= low (severity_distribution t')
     /\ medium (severity_distribution t) <= medium (severity_distribution t')
     /\ high (severity_distribution t) <= high (severity_distribution t')
     /\ count_sum (letter_risk_count t')
        = count_sum (letter_risk_count t) + Z.of_nat (length positions)
     /\ (Forall (fun kv => 1 <= snd kv) (letter_risk_count t)
         -> Forall (fun kv => 1 <= snd kv) (letter_risk_count t'))
     /\ Forall
          (fun i =>
             exists d,
               nth_error s i = Some (PDict d)
               /\ in_strs (dict_get_or (lit "severity") (PStr (lit "medium")) d)
                    severities = true)
          positions.
Proof.
  revert t s. induction positions as [|i rest IH]; intros t s H;
    cbn [for_each] in H.
  - apply ret_ok in H as (-> & ->). cbn [length]. repeat split; auto; lia.
  - apply bindM_ok in H as (t1 & s1 & H1 & H).
    apply risk_round_ok in H1 as (-> & A1 & A2 & A3 & A4 & A5 & A6 & A7).
    apply IH in H as (-> & B1 & B2 & B3 & B4 & B5 & B6 & B7).
    cbn [length]. repeat split; auto; try lia.
Qed.

End RiskTotals.

(** X8: when [_calculate_risk_statistics] returns for a non-empty list of
    risks, every risk is a dict whose severity (medium when absent) is one of
    low, medium and high; total_risks is the number of risks; the three
    counters of severity_distribution are not negative and add up to it;
    and most_problematic_letters holds at most three (letter, count) pairs,
    by decreasing count, each count at least 1, adding up to no more than
    the number of risks. *)
Theorem risk_statistics_counts :
  forall rt text risks stats risks',
    risks <> [] ->
    RiskAnalyzer._calculate_risk_statistics rt text risks = (Ok stats, risks') ->
    Forall
      (fun risk =>
         exists d,
           risk = PDict d
           /\ in_strs (dict_get_or (lit "severity") (PStr (lit "medium")) d)
                RiskAnalyzer.severities = true)
      risks
    /\ exists d dist top,
         stats = PDict d
         /\ dict_get (lit "total_risks") d
            = Some (PInt (Z.of_nat (length risks)))
         /\ dict_get (lit "severity_distribution") d
            = Some (RiskAnalyzer.tiers_dict dist)
         /\ 0 <= low dist /\ 0 <= medium dist /\ 0 <= high dist
         /\ tier_sum dist = Z.of_nat (length risks)
         /\ dict_get (lit "most_problematic_letters") d = Some (ranking top)
         /\ (length top <= 3)%nat
         /\ Sorted by_count_desc top
         /\ Forall (fun kv => 1 <= snd kv) top
         /\ count_sum top <= Z.of_nat (length risks).
Proof.
  intros rt text risks stats risks' Hne H.
  unfold RiskAnalyzer._calculate_risk_statistics in H.
  apply bindM_ok in H as (n & s1 & Hn & H).
  unfold size in Hn. injection Hn as <- <-.
  destruct (length risks) as [|m] eqn:Elen.
  { destruct risks; [contradiction | discriminate]. }
  rewrite <- Elen in H |- *.
  apply bindM_ok in H as (t & s2 & Hloop & H).
  apply risk_rounds_ok in Hloop
    as (-> & A1 & A2 & A3 & A4 & A5 & A6 & A7).
  rewrite length_seq in A1, A5.
  apply bindM_ok in H as (average & s3 & Hav & H).
  apply lift_ok in Hav as (Hav & ->).
  apply ret_ok in H as (-> & ->).
  destruct (sorted_desc_ok (RiskAnalyzer.letter_risk_count t)) as [P S].
  assert (Hpos : Forall (fun kv => 1 <= snd kv)
                   (sorted_desc (RiskAnalyzer.letter_risk_count t))).
  { eapply Permutation_Forall; [exact P|]. apply A6. constructor. }
  split.
  - apply Forall_forall. intros risk Hin.
    apply In_nth_error in Hin as (i & Hi).
    assert (Hlt : (i < length risks)%nat).
    { apply nth_error_Some. congruence. }
    rewrite Forall_forall in A7.
    destruct (A7 i) as (d & Hd & Hsev).
    { apply in_seq. lia. }
    exists d. split; [congruence | exact Hsev].
  - eexists _, (RiskAnalyzer.severity_distribution t),
      (firstn 3 (sorted_desc (RiskAnalyzer.letter_risk_count t))).
    split; [reflexivity|].
    split; [reflexivity|].
    split; [reflexivity|].
    cbn [RiskAnalyzer.no_totals RiskAnalyzer.severity_distribution
         RiskAnalyzer.letter_risk_count no_tiers low medium high] in A2, A3, A4.
    split; [exact A2|]. split; [exact A3|]. split; [exact A4|].
    split; [exact A1|].
    split; [reflexivity|].
    split; [apply firstn_le_length|].
    split; [apply firstn_sorted, S|].
    split.
    { apply Forall_forall. intros kv Hkv. rewrite Forall_forall in Hpos.
      apply Hpos. eapply In_firstn_carrier, Hkv. }
    etransitivity; [apply count_sum_firstn, Hpos|].
    rewrite <- (count_sum_perm _ _ P), A5. cbn. lia.
Qed.

Lemma risk_statistics_counts_witness :
  StatsSamples.three_risks <> []
  /\ exists stats d dist top,
       RiskAnalyzer._calculate_risk_statistics sample_runtime (lit "qx")
         StatsSamples.three_risks
       = (Ok stats, StatsSamples.three_risks)
       /\ stats = PDict d
       /\ dict_get (lit "severity_distribution") d
          = Some (RiskAnalyzer.tiers_dict dist)
       /\ tier_sum dist = 3
       /\ dict_get (lit "most_problematic_letters") d = Some (ranking top)
       /\ (length top <= 3)%nat.
Proof.
  split; [discriminate|].
  destruct (risk_statistics_counts sample_runtime (lit "qx")
              StatsSamples.three_risks
              (match fst (RiskAnalyzer._calculate_risk_statistics
                            sample_runtime (lit "qx")
                            StatsSamples.three_risks) with
               | Ok v => v
               | Raise _ => PNone
               end)
              StatsSamples.three_risks)
    as (_ & d & dist & top & H1 & _ & H3 & _ & _ & _ & H7 & H8 & H9 & _).
  - discriminate.
  - vm_compute. reflexivity.
  - eexists _, d, dist, top. repeat split; eassumption.
Defined.

Import Inputs.

Lemma set_update_ok s items :
  forallb hashable items = true -> exists s', set_update s items = Ok s'.
Proof.
  revert s. induction items as [|x rest IH]; intros s H; cbn [set_update].
  - eauto.
  - cbn [forallb] in H. apply andb_true_iff in H as [-> H]. apply IH, H.
Qed.

Section RiskAverages.

Import RiskAnalyzer.

(** The running total of the confidences after [k] rounds. *)
Let float_total (k : Z) (v : pyval) : Prop :=
  exists q, v = PFloat (FFin q) /\ (0 <= q /\ q <= inject_Z k)%Q.

Let start_total (k : Z) (v : pyval) : Prop :=
  v = PInt 0 \/ float_total k v.

Let int_total (v : pyval) : Prop := exists z, v = PInt z /\ 0 <= z.

Lemma add_confidence k total f :
  0 <= k -> start_total k total -> Spec.in_unit_interval f
  -> exists total', py_add total (PFloat f) = Ok total'
                    /\ float_total (k + 1) total'.
Proof.
  intros Hk Ht Hf. destruct f as [| |q]; try contradiction.
  cbn [Spec.in_unit_interval] in Hf. destruct Hf as [Hq0 Hq1].
  destruct Ht as [-> | (p & -> & Hp0 & Hp1)].
  - eexists. split; [reflexivity|]. eexists. split; [reflexivity|].
    rewrite Qred_correct, inject_Z_plus.
    assert (0 <= inject_Z k)%Q
      by (change 0%Q with (inject_Z 0); rewrite <- Zle_Qle; exact Hk).
    change (inject_Z 0) with 0%Q. change (inject_Z 1) with 1%Q.
    split; lra.
  - eexists. split; [reflexivity|]. eexists. split; [reflexivity|].
    rewrite Qred_correct, inject_Z_plus. change (inject_Z 1) with 1%Q.
    split; lra.
Qed.

Lemma risk_round_runs k i t s risk :
  0 <= k ->
  nth_error s i = Some risk -> countable_risk risk ->
  start_total k (total_confidence t) ->
  int_total (total_new_letters_in_text t) ->
  exists t',
    risk_round i t s = (Ok t', s)
    /\ float_total (k + 1) (total_confidence t')
    /\ int_total (total_new_letters_in_text t').
Proof.
  intros Hk Hnth (d & langs & -> & Hv & Hlangs & Hhash) Htotal (z & Hz & Hz0).
  destruct Hv as ((letter & Hletter) & _ & _ & _ & (f & Hf & Hunit)
                  & (sv & Hsv & Hin) & _ & (n & Hn & Hn0)).
  destruct (add_confidence k _ f Hk Htotal Hunit) as (total' & Hadd & Htotal').
  destruct (set_update_ok (language_coverage t) langs Hhash) as (cov & Hcov).
  assert (Hbump : exists dist,
             bump_tier (PStr sv) (severity_distribution t) = Ok dist).
  { cbn in Hin. destruct Hin as [<- | [<- | [<- | []]]]; eexists; reflexivity. }
  destruct Hbump as (dist & Hbump).
  unfold risk_round, bindM, record_get, lift, ret. rewrite Hnth.
  rewrite (dict_get_or_some _ _ _ _ Hsv), Hbump. cbv beta iota.
  rewrite Hnth, (dict_get_or_some _ _ _ _ Hf), Hadd. cbv beta iota.
  rewrite Hnth, (dict_get_or_some _ _ _ _ Hletter).
  cbn [count_key hashable]. cbv beta iota.
  rewrite Hnth, (dict_get_or_some _ _ _ _ Hlangs).
  cbn [iterate]. cbv beta iota. rewrite Hcov. cbv beta iota.
  rewrite Hnth, (dict_get_or_some _ _ _ _ Hn), Hz.
  cbn [py_add as_number]. cbv beta iota.
  eexists. split; [reflexivity|].
  cbn [total_confidence total_new_letters_in_text].
  split; [exact Htotal'|]. eexists. split; [reflexivity | lia].
Qed.

Lemma risk_rounds_run positions k t s :
  0 <= k ->
  Forall (fun i => exists risk, nth_error s i = Some risk /\ countable_risk risk)
    positions ->
  float_total k (total_confidence t) ->
  int_total (total_new_letters_in_text t) ->
  exists t',
    for_each risk_round positions t s = (Ok t', s)
    /\ float_total (k + Z.of_nat (length positions)) (total_confidence t')
    /\ int_total (total_new_letters_in_text t').
Proof.
  revert k t. induction positions as [|i rest IH]; intros k t Hk Hall Ht Hz.
  - exists t. cbn [for_each length]. rewrite Z.add_0_r.
    split; [reflexivity|]. split; assumption.
  - inversion Hall as [|? ? (risk & Hnth & Hrisk) Hrest]; subst.
    destruct (risk_round_runs k i t s risk Hk Hnth Hrisk (or_intror Ht) Hz)
      as (t1 & Hround & Ht1 & Hz1).
    destruct (IH (k + 1) t1) as (t' & Hloop & A & C);
      [lia | exact Hrest | exact Ht1 | exact Hz1 |].
    exists t'. cbn [for_each]. unfold bindM at 1. rewrite Hround.
    replace (k + Z.of_nat (length (i :: rest)))
      with (k + 1 + Z.of_nat (length rest)) by (cbn [length]; lia).
    split; [exact Hloop|]. split; assumption.
Qed.

(** The loop of lines 219-237 over validated risks. *)
Lemma risk_loop_runs s :
  s <> [] -> Forall countable_risk s ->
  exists t q z,
    for_each risk_round (seq 0 (length s)) no_totals s = (Ok t, s)
    /\ total_confidence t = PFloat (FFin q)
    /\ (0 <= q /\ q <= inject_Z (Z.of_nat (length s)))%Q
    /\ total_new_letters_in_text t = PInt z /\ 0 <= z.
Proof.
  intros Hne Hall.
  assert (Hpos : Forall
            (fun i => exists risk,
                 nth_error s i = Some risk /\ countable_risk risk)
            (seq 0 (length s))).
  { apply Forall_forall. intros i Hi. apply in_seq in Hi.
    destruct (nth_error s i) as [risk|] eqn:E.
    - exists risk. split; [reflexivity|].
      rewrite Forall_forall in Hall. eapply Hall, nth_error_In, E.
    - apply nth_error_None in E. lia. }
  destruct (length s) as [|m] eqn:Elen.
  { destruct s; [contradiction | discriminate]. }
  cbn [seq] in *.
  inversion Hpos as [|? ? (risk & Hnth & Hrisk) Hrest]; subst.
  destruct (risk_round_runs 0 0%nat no_totals s risk) as (t1 & Hround & Ht1 & Hz1);
    [lia | exact Hnth | exact Hrisk | left; reflexivity
    | exists 0; split; [reflexivity | lia] |].
  destruct (risk_rounds_run (seq 1 m) (0 + 1) t1 s)
    as (t & Hloop & (q & Hq & Hq01) & (z & Hz & Hz0));
    [lia | exact Hrest | exact Ht1 | exact Hz1 |].
  exists t, q, z. cbn [for_each]. unfold bindM at 1. rewrite Hround.
  split; [exact Hloop|]. split; [exact Hq|]. rewrite length_seq in Hq01.
  replace (Z.of_nat (S m)) with (0 + 1 + Z.of_nat m) by lia.
  split; [exact Hq01 | split; assumption].
Qed.

End RiskAverages.

(** X9: on a non-empty list of validated risks whose languages can be put in
    a set, [_calculate_risk_statistics] returns: nothing is raised, the list
    is left as it was, the average confidence lies between 0 and 1 and the
    total of the frequencies is not negative. *)
Theorem risk_statistics_on_validated :
  forall rt text risks,
    risks <> [] ->
    Forall countable_risk risks ->
    exists d q z,
      RiskAnalyzer._calculate_risk_statistics rt text risks
      = (Ok (PDict d), risks)
      /\ dict_get (lit "average_confidence") d = Some (PFloat (FFin q))
      /\ (0 <= q /\ q <= 1)%Q
      /\ dict_get (lit "total_new_letters_in_text") d = Some (PInt z)
      /\ 0 <= z.
Proof.
  intros rt text risks Hne Hall.
  destruct (risk_loop_runs risks Hne Hall)
    as (t & q & z & Hloop & Hq & [Hq0 Hqn] & Hz & Hz0).
  unfold RiskAnalyzer._calculate_risk_statistics, bindM at 1, size.
  destruct (length risks) as [|m] eqn:Elen.
  { destruct risks; [contradiction | discriminate]. }
  unfold bindM at 1. rewrite Hloop.
  unfold bindM, lift, ret. rewrite Hq, Hz. cbn [py_truediv_len as_number].
  eexists _, _, z. split; [reflexivity|].
  split; [reflexivity|]. split; [|split; [reflexivity | exact Hz0]].
  rewrite Qred_correct.
  assert (Hn : (0 < inject_Z (Z.of_nat (S m)))%Q).
  { change 0%Q with (inject_Z 0). rewrite <- Zlt_Qlt. lia. }
  split.
  - apply Qle_shift_div_l; [exact Hn | lra].
  - apply Qle_shift_div_r; [exact Hn | lra].
Qed.

Lemma risk_statistics_on_validated_witness :
  exists d q z,
    RiskAnalyzer._calculate_risk_statistics sample_runtime (lit "qx")
      StatsSamples.three_risks
    = (Ok (PDict d), StatsSamples.three_risks)
    /\ dict_get (lit "average_confidence") d = Some (PFloat (FFin q))
    /\ (0 <= q /\ q <= 1)%Q
    /\ dict_get (lit "total_new_letters_in_text") d = Some (PInt z)
    /\ 0 <= z.
Proof.
  apply (risk_statistics_on_validated sample_runtime (lit "qx")
           StatsSamples.three_risks).
  - discriminate.
  - repeat constructor;
      (eexists _, _; split; [reflexivity|];
       split; [|split; [reflexivity | reflexivity]];
       unfold Shapes.validated_risk;
       repeat match goal with
         | |- _ /\ _ => split
         | |- exists _, _ => eexists
         end;
       try reflexivity; try (cbn; tauto); try lia;
       try (split; apply Qle_bool_iff; reflexivity)).
Defined.

Import Words.

Lemma py_len_nonneg v n : py_len v = Ok n -> 0 <= n.
Proof.
  destruct v; cbn [py_len]; try discriminate; intros H; injection H as <-; lia.
Qed.

Lemma aligned_words_nonneg groups : 0 <= aligned_words groups.
Proof.
  unfold aligned_words. induction groups as [|g groups IH];
    cbn [map fold_right]; [lia|].
  assert (0 <= group_size g); [|lia].
  unfold group_size. destruct g; try lia.
  destruct (py_len _) eqn:E; [eapply py_len_nonneg, E | lia].
Qed.

(** Going through a list by position visits its items in order. *)
Lemma sum_by_position {A} (g : A -> Z) (pre s : list A) :
  fold_right Z.add 0
    (map (fun i => match nth_error (pre ++ s) i with
                   | Some x => g x
                   | None => 0
                   end)
       (seq (length pre) (length s)))
  = fold_right Z.add 0 (map g s).
Proof.
  revert pre. induction s as [|x s IH]; intro pre; cbn [length seq map fold_right];
    [reflexivity|].
  rewrite nth_error_app2, Nat.sub_diag by lia. cbn [nth_error].
  specialize (IH (pre ++ [x])). rewrite <- app_assoc in IH. cbn [app] in IH.
  rewrite length_app, Nat.add_comm in IH. cbn [length Nat.add] in IH.
  rewrite IH. reflexivity.
Qed.

Section GroupTotals.

Import CognateAligner.

Lemma group_round_ok i t s t' s' :
  group_round i t s = (Ok t', s')
  -> s' = s
     /\ tier_sum (similarity_distribution t')
        = tier_sum (similarity_distribution t) + 1
     /\ low (similarity_distribution t) <= low (similarity_distribution t')
     /\ medium (similarity_distribution t) <= medium (similarity_distribution t')
     /\ high (similarity_distribution t) <= high (similarity_distribution t')
     /\ exists group d,
          nth_error s i = Some group /\ group = PDict d
          /\ total_words t' = total_words t + group_size group
          /\ in_strs (dict_get_or (lit "similarity") (PStr (lit "medium")) d)
               similarities = true.
Proof.
  unfold group_round. intros H. run_round H.
  rewrite Hget in Hget0. injection Hget0 as <-.
  apply bump_tier_ok in Hrun0 as (Hsum & Hl & Hm & Hh & Hsev).
  cbn [similarity_distribution total_words].
  repeat (split; [assumption || reflexivity|]).
  exists (PDict d), d. split; [exact Hget|]. split; [reflexivity|].
  split; [unfold group_size; rewrite Hrun; reflexivity|].
  apply in_strs_inv in Hsev as (sv & -> & Hin). apply in_strs_intro.
  cbn in Hin |- *. tauto.
Qed.

Lemma group_rounds_ok positions t s t' s' :
  for_each group_round positions t s = (Ok t', s')
  -> s' = s
     /\ tier_sum (similarity_distribution t')
        = tier_sum (similarity_distribution t) + Z.of_nat (length positions)
     /\ low (similarity_distribution t) <= low (similarity_distribution t')
     /\ medium (similarity_distribution t) <= medium (similarity_distribution t')
     /\ high (similarity_distribution t) <= high (similarity_distribution t')
     /\ total_words t'
        = total_words t
          + fold_right Z.add 0
              (map (fun i => match nth_error s i with
                             | Some group => group_size group
                             | None => 0
                             end) positions)
     /\ Forall
          (fun i =>
             exists d,
               nth_error s i = Some (PDict d)
               /\ in_strs (dict_get_or (lit "similarity") (PStr (lit "medium")) d)
                    similarities = true)
          positions.
Proof.
  revert t s. induction positions as [|i rest IH]; intros t s H;
    cbn [for_each] in H.
  - apply ret_ok in H as (-> & ->). cbn [length map fold_right].
    repeat split; auto; lia.
  - apply bindM_ok in H as (t1 & s1 & H1 & H).
    apply group_round_ok in H1
      as (-> & A1 & A2 & A3 & A4 & group & d & Hnth & -> & A5 & A6).
    apply IH in H as (-> & B1 & B2 & B3 & B4 & B5 & B6).
    cbn [length map fold_right]. rewrite Hnth.
    repeat split; eauto; try lia.
Qed.

End GroupTotals.

(** X10: when [_calculate_alignment_statistics] returns for a non-empty list
    of groups, every group is a dict whose similarity (medium when absent)
    is one of high, medium and low; groups_found is the number of groups;
    the three counters of similarity_distribution are not negative and add
    up to it; total_input_words is the number of candidates;
    total_aligned_words is the number of items of all the groups; and with
    no candidates the alignment rate is the integer 0. *)
Theorem alignment_statistics_counts :
  forall rt candidates groups stats groups',
    groups <> [] ->
    CognateAligner._calculate_alignment_statistics rt candidates groups
    = (Ok stats, groups') ->
    Forall
      (fun group =>
         exists d,
           group = PDict d
           /\ in_strs (dict_get_or (lit "similarity") (PStr (lit "medium")) d)
                CognateAligner.similarities = true)
      groups
    /\ exists d dist,
         stats = PDict d
         /\ dict_get (lit "groups_found") d
            = Some (PInt (Z.of_nat (length groups)))
         /\ dict_get (lit "total_input_words") d
            = Some (PInt (Z.of_nat (length candidates)))
         /\ dict_get (lit "total_aligned_words") d
            = Some (PInt (aligned_words groups))
         /\ 0 <= aligned_words groups
         /\ dict_get (lit "similarity_distribution") d
            = Some (CognateAligner.tiers_dict dist)
         /\ 0 <= low dist /\ 0 <= medium dist /\ 0 <= high dist
         /\ tier_sum dist = Z.of_nat (length groups)
         /\ (candidates = []
             -> dict_get (lit "alignment_rate") d = Some (PInt 0)).
Proof.
  intros rt candidates groups stats groups' Hne H.
  unfold CognateAligner._calculate_alignment_statistics in H.
  apply bindM_ok in H as (n & s1 & Hn & H).
  unfold size in Hn. injection Hn as <- <-.
  destruct (length groups) as [|m] eqn:Elen.
  { destruct groups; [contradiction | discriminate]. }
  rewrite <- Elen in H |- *.
  apply bindM_ok in H as (t & s2 & Hloop & H).
  apply group_rounds_ok in Hloop as (-> & A1 & A2 & A3 & A4 & A5 & A6).
  rewrite length_seq in A1.
  pose proof (sum_by_position group_size [] groups) as Hsum.
  cbn [app length] in Hsum. rewrite Hsum in A5.
  run_round H.
  split.
  - apply Forall_forall. intros group Hin.
    apply In_nth_error in Hin as (i & Hi).
    assert (Hlt : (i < length groups)%nat).
    { apply nth_error_Some. congruence. }
    rewrite Forall_forall in A6.
    destruct (A6 i) as (d & Hd & Hsev).
    { apply in_seq. lia. }
    exists d. split; [congruence | exact Hsev].
  - eexists _, (CognateAligner.similarity_distribution t).
    split; [reflexivity|].
    cbn [CognateAligner.no_totals CognateAligner.similarity_distribution
         CognateAligner.total_words no_tiers low medium high] in A2, A3, A4, A5.
    rewrite Z.add_0_l in A5. fold (aligned_words groups) in A5.
    rewrite <- A5.
    split; [reflexivity|]. split; [reflexivity|]. split; [reflexivity|].
    split; [rewrite A5; apply aligned_words_nonneg|].
    split; [reflexivity|].
    split; [exact A2|]. split; [exact A3|]. split; [exact A4|].
    split; [exact A1|].
    intros ->. injection Hrun1 as <-. reflexivity.
Qed.

Lemma alignment_statistics_counts_witness :
  GroupSamples.two_groups <> []
  /\ exists stats d dist,
       CognateAligner._calculate_alignment_statistics sample_runtime []
         GroupSamples.two_groups
       = (Ok stats, GroupSamples.two_groups)
       /\ stats = PDict d
       /\ dict_get (lit "total_aligned_words") d = Some (PInt 5)
       /\ dict_get (lit "similarity_distribution") d
          = Some (CognateAligner.tiers_dict dist)
       /\ tier_sum dist = 2
       /\ dict_get (lit "alignment_rate") d = Some (PInt 0).
Proof.
  split; [discriminate|].
  destruct (alignment_statistics_counts sample_runtime []
              GroupSamples.two_groups
              (match fst (CognateAligner._calculate_alignment_statistics
                            sample_runtime [] GroupSamples.two_groups) with
               | Ok v => v
               | Raise _ => PNone
               end)
              GroupSamples.two_groups)
    as (_ & d & dist & H1 & _ & _ & H4 & _ & H6 & _ & _ & _ & H10 & H11).
  - discriminate.
  - vm_compute. reflexivity.
  - specialize (H11 eq_refl).
    exists (match fst (CognateAligner._calculate_alignment_statistics
                         sample_runtime [] GroupSamples.two_groups) with
            | Ok v => v
            | Raise _ => PNone
            end), d, dist.
    split; [vm_compute; reflexivity|].
    repeat split; eassumption.
Defined.

(** ** What the tasks answer with *)

Import Results.

Lemma call_llm_calls rt svc self sp up temp mt :
  (length (snd (call_llm rt svc self sp up temp mt)) <= 1)%nat.
Proof.
  unfold call_llm. destruct (negb (client self)); [cbn; lia|].
  destruct (svc _); cbn; lia.
Qed.

Lemma bind_ok {A B} (m : res A) (k : A -> res B) b :
  bind m k = Ok b -> exists a, m = Ok a /\ k a = Ok b.
Proof. destruct m as [a|e]; cbn [bind]; [eauto | discriminate]. Qed.

Lemma validate_all_validated rt items text :
  Forall (fun risk => exists r, risk = PDict r /\ validated_risk r)
    (RiskAnalyzer.validate_all rt items text).
Proof.
  unfold RiskAnalyzer.validate_all. apply Forall_forall. intros risk H.
  apply in_flat_map in H as (x & _ & H).
  destruct (RiskAnalyzer._validate_and_enrich_risk rt x text) as [r|] eqn:E;
    [|contradiction].
  destruct (truthy (PDict r)); [|contradiction].
  destruct H as [<- | []]. exists r. split; [reflexivity|].
  apply (settled_risk_validated rt text), (validate_risk_settles rt x), E.
Qed.

Lemma risk_after_call_ok rt text response result :
  RiskAnalyzer.after_call rt text response = Ok result ->
  exists items stats,
    result = PDict [(lit "risks", PList (RiskAnalyzer.validate_all rt items text));
                    (lit "statistics", stats);
                    (lit "llm_metadata", llm_metadata response)].
Proof.
  unfold RiskAnalyzer.after_call. intros H.
  apply bind_ok in H as (content & _ & H).
  apply bind_ok in H as (risks & _ & H).
  apply bind_ok in H as (items & _ & H).
  pose proof (risk_statistics_read_only rt text
                (RiskAnalyzer.validate_all rt items text)) as Hro.
  destruct (RiskAnalyzer._calculate_risk_statistics rt text
              (RiskAnalyzer.validate_all rt items text)) as [stats s'].
  cbn [snd] in Hro. subst s'.
  apply bind_ok in H as (st & _ & H). injection H as <-. eauto.
Qed.

(** X11: whatever the text and whatever the service replies,
    [analyze_risks] sends at most one request and answers with a dict whose
    risks are a list; every risk in it is a validated record or the
    placeholder; with an error the list is empty, and without one the dict
    has statistics and metadata. *)
Theorem analyze_risks_result :
  forall rt svc self ota_text,
    risks_result (fst (RiskAnalyzer.analyze_risks rt svc self ota_text))
    /\ (length (snd (RiskAnalyzer.analyze_risks rt svc self ota_text)) <= 1)%nat.
Proof.
  intros rt svc self ota_text. unfold RiskAnalyzer.analyze_risks.
  destruct (negb (truthy (PStr (strip ota_text)))).
  { split; [|cbn; lia]. eexists _, []. split; [reflexivity|].
    split; [reflexivity|]. split; [constructor|].
    split; [reflexivity | discriminate]. }
  destruct (negb (truthy (PList (RiskAnalyzer._find_new_letters rt ota_text)))).
  { split; [|cbn; lia]. eexists _, [_]. split; [reflexivity|].
    split; [reflexivity|]. split; [repeat constructor|].
    split; [discriminate | split; reflexivity]. }
  pose proof (call_llm_calls rt svc (RiskAnalyzer.llm self)
                (RiskAnalyzer.system_prompt self)
                (RiskAnalyzer.user_prompt rt ota_text
                   (RiskAnalyzer._find_new_letters rt ota_text))
                (1 # 5) 2000) as Hcalls.
  destruct (call_llm _ _ _ _ _ _ _) as [response calls]. cbn [snd] in Hcalls.
  destruct (bind response (RiskAnalyzer.after_call rt ota_text)) as [result|e]
    eqn:E; cbn [fst snd]; (split; [|exact Hcalls]).
  - apply bind_ok in E as (r & _ & E).
    apply risk_after_call_ok in E as (items & stats & ->).
    eexists _, _. split; [reflexivity|]. split; [reflexivity|].
    split.
    + eapply Forall_impl; [|apply validate_all_validated]. cbv beta. eauto.
    + split; [discriminate | split; reflexivity].
  - eexists _, []. split; [reflexivity|]. split; [reflexivity|].
    split; [constructor|]. split; [reflexivity | discriminate].
Qed.

Lemma call_llm_no_client rt svc self sp up temp mt :
  client self = false
  -> call_llm rt svc self sp up temp mt
     = (Raise (Raised CValueError no_api_key_message), []).
Proof. unfold call_llm. intros ->. reflexivity. Qed.

Lemma call_llm_failure rt svc self sp up temp mt e :
  client self = true -> (forall rq, svc rq = inr e)
  -> call_llm rt svc self sp up temp mt
     = (Raise (Raised CException (call_failed_prefix ++ str_exn rt e)),
        [{| rq_model := model self; rq_system := sp; rq_user := up;
            rq_temperature := temp; rq_max_tokens := mt |}]).
Proof. unfold call_llm. intros -> H. rewrite H. reflexivity. Qed.

Lemma found_letters_truthy rt text :
  (exists letter,
     In letter RiskAnalyzer.new_letters /\ contains letter text = true)
  -> truthy (PList (RiskAnalyzer._find_new_letters rt text)) = true.
Proof.
  intros (letter & Hin & Hc).
  assert (H : In (PStr letter) (RiskAnalyzer._find_new_letters rt text)).
  { apply find_new_letters_in. eauto. }
  destruct (RiskAnalyzer._find_new_letters rt text); [destruct H | reflexivity].
Qed.

(** X12: without an API key no task sends a request: for texts that are not
    blank (and, for the risk analysis, hold a tracked letter),
    [analyze_risks], [analyze_pce] and [transliterate] answer with an error
    that ends with the message about the missing key. *)
Theorem tasks_need_api_key :
  forall rt svc risk pce engine text original name lang,
    client (RiskAnalyzer.llm risk) = false ->
    client (PCEAnalyzer.llm pce) = false ->
    client (Transliterator.llm engine) = false ->
    strip text <> [] ->
    strip original <> [] ->
    (exists letter,
       In letter RiskAnalyzer.new_letters /\ contains letter text = true) ->
    (snd (RiskAnalyzer.analyze_risks rt svc risk text) = []
     /\ error_of (fst (RiskAnalyzer.analyze_risks rt svc risk text))
        = Some (PStr (lit "Risk analysis error: " ++ no_api_key_message)))
    /\ (snd (PCEAnalyzer.analyze_pce rt svc pce original text name) = []
        /\ error_of (fst (PCEAnalyzer.analyze_pce rt svc pce original text name))
           = Some (PStr (lit "PCE analizi hatas" ++ [305%N] ++ lit ": "
                         ++ no_api_key_message)))
    /\ (snd (Transliterator.transliterate rt svc engine text lang) = []
        /\ error_of (fst (Transliterator.transliterate rt svc engine text lang))
           = Some (PStr (lit "Transliteration error: " ++ no_api_key_message))).
Proof.
  intros rt svc risk pce engine text original name lang Hr Hp He Ht Ho Hl.
  unfold RiskAnalyzer.analyze_risks, PCEAnalyzer.analyze_pce,
    Transliterator.transliterate.
  rewrite (truthy_strip_text text Ht), (truthy_strip_text original Ho),
    (found_letters_truthy rt text Hl).
  cbn [negb orb].
  rewrite !call_llm_no_client by assumption.
  cbn [bind fst snd]. repeat split; reflexivity.
Qed.

Lemma tasks_need_api_key_witness :
  (snd (RiskAnalyzer.analyze_risks sample_runtime TaskSamples.silent_service
          FailureSamples.risk_analyzer FailureSamples.text) = []
   /\ error_of
        (fst (RiskAnalyzer.analyze_risks sample_runtime
                TaskSamples.silent_service FailureSamples.risk_analyzer
                FailureSamples.text))
      = Some (PStr (lit "Risk analysis error: " ++ no_api_key_message)))
  /\ (snd (PCEAnalyzer.analyze_pce sample_runtime TaskSamples.silent_service
             FailureSamples.pce_analyzer (lit "Kazak halki")
             FailureSamples.text (lit "d")) = []
      /\ error_of
           (fst (PCEAnalyzer.analyze_pce sample_runtime
                   TaskSamples.silent_service FailureSamples.pce_analyzer
                   (lit "Kazak halki") FailureSamples.text (lit "d")))
         = Some (PStr (lit "PCE analizi hatas" ++ [305%N] ++ lit ": "
                       ++ no_api_key_message)))
  /\ (snd (Transliterator.transliterate sample_runtime
             TaskSamples.silent_service FailureSamples.engine
             FailureSamples.text (lit "kk")) = []
      /\ error_of
           (fst (Transliterator.transliterate sample_runtime
                   TaskSamples.silent_service FailureSamples.engine
                   FailureSamples.text (lit "kk")))
         = Some (PStr (lit "Transliteration error: " ++ no_api_key_message))).
Proof.
  apply (tasks_need_api_key sample_runtime TaskSamples.silent_service
           FailureSamples.risk_analyzer FailureSamples.pce_analyzer
           FailureSamples.engine FailureSamples.text (lit "Kazak halki")
           (lit "d") (lit "kk")); try reflexivity.
  - vm_compute. discriminate.
  - vm_compute. discriminate.
  - exists [81%N]. split; [cbn; tauto | vm_compute; reflexivity].
Defined.

(** X13: when the service fails, each task has sent exactly one request and
    answers with an error that ends with the failure message of [call_llm]
    followed by the text of the exception. *)
Theorem tasks_report_service_failure :
  forall rt svc risk pce engine text original name lang e,
    client (RiskAnalyzer.llm risk) = true ->
    client (PCEAnalyzer.llm pce) = true ->
    client (Transliterator.llm engine) = true ->
    (forall rq, svc rq = inr e) ->
    strip text <> [] ->
    strip original <> [] ->
    (exists letter,
       In letter RiskAnalyzer.new_letters /\ contains letter text = true) ->
    (length (snd (RiskAnalyzer.analyze_risks rt svc risk text)) = 1%nat
     /\ error_of (fst (RiskAnalyzer.analyze_risks rt svc risk text))
        = Some (PStr (lit "Risk analysis error: " ++ call_failed_prefix
                      ++ str_exn rt e)))
    /\ (length (snd (PCEAnalyzer.analyze_pce rt svc pce original text name))
        = 1%nat
        /\ error_of (fst (PCEAnalyzer.analyze_pce rt svc pce original text name))
           = Some (PStr (lit "PCE analizi hatas" ++ [305%N] ++ lit ": "
                         ++ call_failed_prefix ++ str_exn rt e)))
    /\ (length (snd (Transliterator.transliterate rt svc engine text lang))
        = 1%nat
        /\ error_of (fst (Transliterator.transliterate rt svc engine text lang))
           = Some (PStr (lit "Transliteration error: " ++ call_failed_prefix
                         ++ str_exn rt e))).
Proof.
  intros rt svc risk pce engine text original name lang e Hr Hp He Hsvc Ht Ho Hl.
  unfold RiskAnalyzer.analyze_risks, PCEAnalyzer.analyze_pce,
    Transliterator.transliterate.
  rewrite (truthy_strip_text text Ht), (truthy_strip_text original Ho),
    (found_letters_truthy rt text Hl).
  cbn [negb orb].
  rewrite !(call_llm_failure rt svc _ _ _ _ _ e) by assumption.
  cbn [bind fst snd length]. repeat split; reflexivity.
Qed.

Lemma tasks_report_service_failure_witness :
  (length (snd (RiskAnalyzer.analyze_risks sample_runtime FailureSamples.down
                  TaskSamples.risk_analyzer FailureSamples.text)) = 1%nat
   /\ error_of
        (fst (RiskAnalyzer.analyze_risks sample_runtime FailureSamples.down
                TaskSamples.risk_analyzer FailureSamples.text))
      = Some (PStr (lit "Risk analysis error: " ++ call_failed_prefix
                    ++ lit "Request timed out.")))
  /\ (length (snd (PCEAnalyzer.analyze_pce sample_runtime FailureSamples.down
                     TaskSamples.pce_analyzer (lit "Kazak halki")
                     FailureSamples.text (lit "d"))) = 1%nat
      /\ error_of
           (fst (PCEAnalyzer.analyze_pce sample_runtime FailureSamples.down
                   TaskSamples.pce_analyzer (lit "Kazak halki")
                   FailureSamples.text (lit "d")))
         = Some (PStr (lit "PCE analizi hatas" ++ [305%N] ++ lit ": "
                       ++ call_failed_prefix ++ lit "Request timed out.")))
  /\ (length (snd (Transliterator.transliterate sample_runtime
                     FailureSamples.down TaskSamples.engine
                     FailureSamples.text (lit "kk"))) = 1%nat
      /\ error_of
           (fst (Transliterator.transliterate sample_runtime
                   FailureSamples.down TaskSamples.engine
                   FailureSamples.text (lit "kk")))
         = Some (PStr (lit "Transliteration error: " ++ call_failed_prefix
                       ++ lit "Request timed out."))).
Proof.
  apply (tasks_report_service_failure sample_runtime FailureSamples.down
           TaskSamples.risk_analyzer TaskSamples.pce_analyzer
           TaskSamples.engine FailureSamples.text (lit "Kazak halki")
           (lit "d") (lit "kk") FailureSamples.timeout); try reflexivity.
  - vm_compute. discriminate.
  - vm_compute. discriminate.
  - exists [81%N]. split; [cbn; tauto | vm_compute; reflexivity].
Defined.

(** ** The assessment of a comparison *)

Import Comparisons.

Section Assessment.

Import PCEAnalyzer.

Lemma py_gt_number a b x y :
  as_number a = Some x -> as_number b = Some y
  -> py_gt a b = Ok (number_ltb y x).
Proof. unfold py_gt. intros -> ->. reflexivity. Qed.

Lemma py_lt_number a b x y :
  as_number a = Some x -> as_number b = Some y
  -> py_lt a b = Ok (number_ltb x y).
Proof. unfold py_lt. intros -> ->. reflexivity. Qed.

Lemma py_gt_other a b : as_number a = None -> exists e, py_gt a b = Raise e.
Proof. unfold py_gt. intros ->. eauto. Qed.

Lemma improvement_category_number w x :
  as_number w = Some x -> exists s, improvement_category w = Ok s.
Proof.
  intros H. unfold improvement_category.
  rewrite !(py_gt_number w (PInt _) x _ H eq_refl). cbn [bind].
  repeat (destruct (number_ltb _ x); cbn [bind]; eauto).
Qed.

Lemma rate_effectiveness_number w x :
  as_number w = Some x -> exists s, _rate_effectiveness w = Ok s.
Proof.
  intros H. unfold _rate_effectiveness.
  rewrite !(py_gt_number w (PInt _) x _ H eq_refl). cbn [bind].
  repeat (destruct (number_ltb _ x); cbn [bind]; eauto).
Qed.

Lemma assessment_ok comparison :
  assessable comparison = true -> exists a, assessment comparison = Ok a.
Proof.
  destruct comparison as [| | | | | | | |c]; try discriminate.
  unfold assessable, is_number. intros H. apply andb_true_iff in H as [Hw Hl].
  destruct (as_number (dict_get_or (lit "weighted_improvement") (PInt 0) c))
    as [x|] eqn:Ew; [|discriminate].
  destruct (as_number (dict_get_or (lit "logarithmic_improvement") (PInt 0) c))
    as [y|] eqn:El; [|discriminate].
  unfold assessment. cbn [comparison_get bind].
  destruct (improvement_category_number _ x Ew) as (s1 & ->).
  destruct (rate_effectiveness_number _ x Ew) as (s2 & ->).
  unfold _generate_recommendations. cbn [comparison_get bind].
  rewrite (py_gt_number _ (PInt 15) x _ Ew eq_refl).
  rewrite (py_gt_number _ (PInt 10) y _ El eq_refl).
  rewrite (py_lt_number _ (PInt 10) x _ Ew eq_refl).
  cbn [bind]. eauto.
Qed.

Lemma assessment_raise comparison :
  assessable comparison = false -> exists e, assessment comparison = Raise e.
Proof.
  unfold assessment.
  destruct comparison as [| | | | | | | |c];
    try (intros _; cbn [comparison_get bind]; eauto; fail).
  unfold assessable, is_number. intros H. cbn [comparison_get bind].
  destruct (as_number (dict_get_or (lit "weighted_improvement") (PInt 0) c))
    as [x|] eqn:Ew.
  - destruct (as_number
                (dict_get_or (lit "logarithmic_improvement") (PInt 0) c))
      as [y|] eqn:El; [discriminate|].
    destruct (improvement_category_number _ x Ew) as (s1 & ->).
    destruct (rate_effectiveness_number _ x Ew) as (s2 & ->).
    unfold _generate_recommendations. cbn [comparison_get bind].
    rewrite (py_gt_number _ (PInt 15) x _ Ew eq_refl). cbn [bind].
    destruct (py_gt_other _ (PInt 10) El) as (e & ->). cbn [bind]. eauto.
  - unfold improvement_category.
    destruct (py_gt_other _ (PInt 15) Ew) as (e & ->). cbn [bind]. eauto.
Qed.

End Assessment.

(** X14: [_enrich_pce_result] never fails on a dict.  With a comparison it
    can assess (a dict whose weighted and logarithmic improvements are
    numbers, 0 when absent) it adds an assessment and reports no error; with
    any other comparison, a percentage written as a text for example, it
    adds no assessment and stores the text of the exception as
    enrichment_error; in both cases the metadata is set. *)
Theorem enrich_assesses_or_reports :
  forall rt d comparison original_text ota_text dataset_name,
    dict_get (lit "comparison") d = Some comparison ->
    exists d',
      PCEAnalyzer._enrich_pce_result rt (PDict d)
        original_text ota_text dataset_name = Ok (PDict d')
      /\ dict_get (lit "metadata") d'
         = Some (PCEAnalyzer.metadata rt original_text ota_text dataset_name)
      /\ if assessable comparison
         then dict_has (lit "assessment") d' = true
              /\ dict_get (lit "enrichment_error") d'
                 = dict_get (lit "enrichment_error") d
         else (exists msg,
                 dict_get (lit "enrichment_error") d' = Some (PStr msg))
              /\ dict_get (lit "assessment") d'
                 = dict_get (lit "assessment") d.
Proof.
  intros rt d comparison original_text ota_text dataset_name Hc.
  unfold PCEAnalyzer._enrich_pce_result.
  rewrite dict_get_set_other by reflexivity. rewrite Hc.
  destruct (assessable comparison) eqn:E.
  - destruct (assessment_ok comparison E) as (a & ->).
    eexists. split; [reflexivity|].
    dict_simpl. repeat split.
  - destruct (assessment_raise comparison E) as (e & ->).
    eexists. split; [reflexivity|].
    dict_simpl. repeat split. eauto.
Qed.

Lemma enrich_assesses_or_reports_witness :
  exists d',
    PCEAnalyzer._enrich_pce_result sample_runtime (PDict percent_text)
      (lit "Kazak") (lit "Qazaq") (lit "d") = Ok (PDict d')
    /\ dict_get (lit "metadata") d'
       = Some (PCEAnalyzer.metadata sample_runtime (lit "Kazak") (lit "Qazaq")
                 (lit "d"))
    /\ (exists msg, dict_get (lit "enrichment_error") d' = Some (PStr msg))
    /\ dict_get (lit "assessment") d' = None.
Proof.
  apply (enrich_assesses_or_reports sample_runtime percent_text
           (PDict [(lit "weighted_improvement", PStr (lit "18.5%"))])
           (lit "Kazak") (lit "Qazaq") (lit "d")).
  reflexivity.
Defined.

(** ** Text made safe for the PDF fonts *)

Section PdfSafe.

Import ReportGenerator.

Lemma replace_char o r s :
  replace [o] [r] s = map (fun c => if (o =? c)%N then r else c) s.
Proof.
  unfold replace. induction s as [|c s IH]; [reflexivity|].
  cbn [replace_from startswith length Nat.sub map].
  rewrite andb_true_r. destruct (o =? c)%N; cbn [app]; rewrite IH; reflexivity.
Qed.

(** What becomes of one character. *)
Let safe_char (c : N) : N :=
  fold_left
    (fun c kv =>
       match fst kv, snd kv with
       | [o], [r] => if (o =? c)%N then r else c
       | _, _ => c
       end)
    replacements c.

Lemma make_pdf_safe_map text : _make_pdf_safe text = map safe_char text.
Proof.
  unfold _make_pdf_safe, safe_char.
  change replacements
    with [([601%N], [101%N]); ([241%N], [110%N]); ([251%N], [117%N]);
          ([242%N], [111%N]); ([226%N], [97%N]); ([238%N], [105%N]);
          ([244%N], [111%N])].
  cbn [fold_left fst snd].
  rewrite !replace_char, !map_map. reflexivity.
Qed.

Lemma safe_char_cases c :
  (In c replaced_chars -> ~ In (safe_char c) replaced_chars)
  /\ (~ In c replaced_chars -> safe_char c = c)
  /\ safe_char (safe_char c) = safe_char c.
Proof.
  assert (H : In c replaced_chars \/ ~ In c replaced_chars).
  { destruct (in_dec N.eq_dec c replaced_chars); auto. }
  destruct H as [H | H].
  - cbn in H.
    repeat (destruct H as [<- | H];
            [split; [intros _; vm_compute; intuition discriminate
                    | split; [intros H'; exfalso; apply H'; vm_compute; tauto
                             | reflexivity]]|]).
    contradiction.
  - assert (E : safe_char c = c).
    { unfold safe_char.
      change replacements
        with [([601%N], [101%N]); ([241%N], [110%N]); ([251%N], [117%N]);
              ([242%N], [111%N]); ([226%N], [97%N]); ([238%N], [105%N]);
              ([244%N], [111%N])].
      cbn [fold_left fst snd]. cbn in H.
      repeat match goal with
        | |- context [(?o =? c)%N] =>
            destruct (N.eqb_spec o c); [exfalso; apply H; subst; tauto|]
        end.
      reflexivity. }
    split; [tauto|]. split; [intros _; exact E | rewrite E; exact E].
Qed.

(** X15: [_make_pdf_safe] keeps the length of the text, leaves none of the
    seven characters of its table in the result, leaves every other
    character (their capitals included) where it was, and changes nothing
    when applied again. *)
Theorem make_pdf_safe_replaces :
  forall text,
    length (ReportGenerator._make_pdf_safe text) = length text
    /\ (forall c,
          In c (ReportGenerator._make_pdf_safe text)
          -> ~ In c ReportGenerator.replaced_chars)
    /\ (forall i c,
          nth_error text i = Some c -> ~ In c ReportGenerator.replaced_chars
          -> nth_error (ReportGenerator._make_pdf_safe text) i = Some c)
    /\ ReportGenerator._make_pdf_safe (ReportGenerator._make_pdf_safe text)
       = ReportGenerator._make_pdf_safe text.
Proof.
  intros text.
  rewrite !make_pdf_safe_map. split; [apply length_map|]. split; [|split].
  - intros c H. apply in_map_iff in H as (c0 & <- & _).
    destruct (safe_char_cases c0) as (A & B & _).
    destruct (in_dec N.eq_dec c0 replaced_chars) as [Hin | Hout];
      [apply A, Hin | rewrite (B Hout); exact Hout].
  - intros i c Hnth Hout. rewrite nth_error_map.
    apply (f_equal (option_map safe_char)) in Hnth. cbn [option_map] in Hnth.
    destruct (safe_char_cases c) as (_ & B & _). rewrite (B Hout) in Hnth.
    exact Hnth.
  - rewrite map_map. apply map_ext. intros c. apply safe_char_cases.
Qed.

End PdfSafe.

(** ** The candidates of a cognate alignment *)

Section Candidates.

Import CognateTasks.

Lemma truthy_str_nonempty s : truthy (PStr s) = true -> s <> [].
Proof. destruct s; [discriminate | discriminate]. Qed.

Lemma parse_line_fields rt line :
  (length (parse_line rt line) <= 1)%nat
  /\ Forall
       (fun c =>
          lang c <> [] /\ original c <> []
          /\ strip (original c) = original c
          /\ language_name c = language_of rt (lang c))
       (parse_line rt line).
Proof.
  unfold parse_line.
  destruct (negb (truthy (PStr (strip line)))
            || negb (contains (lit ":") (strip line)));
    [split; [cbn; lia | constructor]|].
  destruct (split_once (lit ":") (strip line)) as [|lang_code [|word [|x l]]];
    try (split; [cbn; lia | constructor]).
  destruct (truthy (PStr (str_lower rt (strip lang_code)))) eqn:El;
    [|split; [cbn; lia | constructor]].
  destruct (truthy (PStr (strip word))) eqn:Ew;
    [|split; [cbn; lia | constructor]].
  cbn [andb]. split; [cbn; lia|]. constructor; [|constructor].
  cbn [lang original language_name].
  split; [apply truthy_str_nonempty, El|].
  split; [apply truthy_str_nonempty, Ew|].
  split; [apply strip_idempotent | reflexivity].
Qed.

Lemma parse_lines_fields rt lines :
  (length (flat_map (parse_line rt) lines) <= length lines)%nat
  /\ Forall
       (fun c =>
          lang c <> [] /\ original c <> []
          /\ strip (original c) = original c
          /\ language_name c = language_of rt (lang c))
       (flat_map (parse_line rt) lines).
Proof.
  induction lines as [|line lines [IHn IHf]]; cbn [flat_map length].
  - split; [lia | constructor].
  - destruct (parse_line_fields rt line) as [Hn Hf].
    rewrite length_app. split; [lia|]. apply Forall_app. auto.
Qed.

(** X16: every candidate that [_parse_candidates] returns has a language
    code and a word that are not empty, a word without white space around
    it, and the name of its language (the code in capitals when it is not a
    supported one); there are no more candidates than lines, and none for a
    blank input. *)
Theorem parse_candidates_fields :
  forall rt input_text,
    Forall
      (fun c =>
         lang c <> [] /\ original c <> []
         /\ strip (original c) = original c
         /\ language_name c = language_of rt (lang c))
      (_parse_candidates rt input_text)
    /\ (length (_parse_candidates rt input_text)
        <= length (split newline (strip input_text)))%nat
    /\ (forallb is_space input_text = true
        -> _parse_candidates rt input_text = []).
Proof.
  intros rt input_text. unfold _parse_candidates.
  destruct (parse_lines_fields rt (split newline (strip input_text)))
    as [Hn Hf].
  split; [exact Hf|]. split; [exact Hn|].
  intros H. rewrite (strip_spaces input_text H). reflexivity.
Qed.

End Candidates.

Section RoundTrip.

Import CognateTasks Entries.

Lemma head_ok_app s t : s <> [] -> head_ok s -> head_ok (s ++ t).
Proof. destruct s; [congruence | auto]. Qed.

Lemma startswith_char_cons c d s :
  startswith [c] (d :: s) = (c =? d)%N.
Proof. cbn [startswith]. apply andb_true_r. Qed.

Lemma split_line_from c cur line :
  ~ In c line -> split_from [c] 0 cur line = [rev cur ++ line].
Proof.
  revert cur. induction line as [|d line IH]; intros cur H; cbn [split_from].
  - rewrite app_nil_r. reflexivity.
  - rewrite startswith_char_cons.
    destruct (N.eqb_spec c d) as [->|_]; [exfalso; apply H; left; reflexivity|].
    rewrite IH by (intros Hin; apply H; right; exact Hin).
    cbn [rev]. rewrite <- app_assoc. reflexivity.
Qed.

Lemma split_line_sep_from c cur line t :
  ~ In c line
  -> split_from [c] 0 cur (line ++ [c] ++ t)
     = (rev cur ++ line) :: split_from [c] 0 [] t.
Proof.
  revert cur. induction line as [|d line IH]; intros cur H;
    cbn [split_from app].
  - rewrite startswith_char_cons, N.eqb_refl. cbn [length Nat.sub].
    rewrite app_nil_r. reflexivity.
  - rewrite startswith_char_cons.
    destruct (N.eqb_spec c d) as [->|_]; [exfalso; apply H; left; reflexivity|].
    rewrite IH by (intros Hin; apply H; right; exact Hin).
    cbn [rev]. rewrite <- app_assoc. reflexivity.
Qed.

(** Splitting what was joined gives the lines back. *)
Lemma split_join c lines :
  lines <> [] -> Forall (fun line => ~ In c line) lines
  -> split [c] (join [c] lines) = lines.
Proof.
  unfold split. intros Hne H. induction H as [|line rest Hl Hrest IH];
    [congruence|].
  destruct rest as [|line' rest'].
  - cbn [join]. apply (split_line_from c [] line Hl).
  - change (join [c] (line :: line' :: rest'))
      with (line ++ [c] ++ join [c] (line' :: rest')).
    rewrite split_line_sep_from by exact Hl. cbn [rev app].
    rewrite IH by discriminate. reflexivity.
Qed.

Lemma contains_app_sep c s t : contains [c] (s ++ [c] ++ t) = true.
Proof.
  induction s as [|d s IH]; cbn [contains app].
  - rewrite startswith_char_cons, N.eqb_refl. reflexivity.
  - cbn [app] in IH. rewrite IH. apply orb_true_r.
Qed.

Lemma split_once_sep_from c cur s t :
  ~ In c s
  -> split_once_from [c] cur (s ++ [c] ++ t) = [rev cur ++ s; t].
Proof.
  revert cur. induction s as [|d s IH]; intros cur H;
    cbn [split_once_from app].
  - rewrite startswith_char_cons, N.eqb_refl. cbn [length skipn].
    rewrite app_nil_r. reflexivity.
  - rewrite startswith_char_cons.
    destruct (N.eqb_spec c d) as [->|_]; [exfalso; apply H; left; reflexivity|].
    rewrite IH by (intros Hin; apply H; right; exact Hin).
    cbn [rev]. rewrite <- app_assoc. reflexivity.
Qed.

Lemma entry_line_bounds rt entry :
  clean_entry rt entry
  -> entry_line entry <> [] /\ head_ok (entry_line entry)
     /\ head_ok (rev (entry_line entry)) /\ ~ In 10%N (entry_line entry).
Proof.
  destruct entry as [code word]. unfold entry_line. cbn [fst snd clean_entry].
  intros (Hc & Hw & Hsc & Hsw & _ & _ & Hnc & Hnw).
  split; [destruct code; [congruence | discriminate]|].
  split; [apply head_ok_app; [exact Hc | rewrite <- Hsc; apply strip_head_ok]|].
  split.
  - rewrite !rev_app_distr, <- app_assoc. apply head_ok_app.
    + intros E. apply (f_equal (@rev char)) in E.
      rewrite rev_involutive in E. exact (Hw E).
    + rewrite <- Hsw. apply strip_last_ok.
  - rewrite !in_app_iff. cbn [lit In map list_ascii_of_string N_of_ascii].
    intros [H | [[H | []] | H]]; [exact (Hnc H) | discriminate H | exact (Hnw H)].
Qed.

Lemma parse_entry_line rt entry :
  clean_entry rt entry
  -> parse_line rt (entry_line entry) = [entry_candidate rt entry].
Proof.
  intros H. destruct (entry_line_bounds rt entry H) as (Hne & Hh & Hl & _).
  destruct entry as [code word]. cbn [clean_entry] in H.
  destruct H as (Hc & Hw & Hsc & Hsw & Hlow & Hcolon & _ & _).
  unfold parse_line. rewrite (strip_id _ Hh Hl).
  assert (Ht : truthy (PStr (entry_line (code, word))) = true)
    by (destruct (entry_line (code, word)); [congruence | reflexivity]).
  rewrite Ht.
  unfold entry_line, entry_candidate in *. cbn [fst snd] in *.
  change (lit ":") with (@cons char 58%N (@nil char)).
  rewrite contains_app_sep. cbn [negb orb]. unfold split_once.
  rewrite (split_once_sep_from 58%N [] code word Hcolon). cbn [rev app].
  rewrite Hsc, Hsw, Hlow.
  destruct code; [congruence|]. destruct word; [congruence|]. reflexivity.
Qed.

(** X17: a list of entries written one per line as [code:word], with no
    white space around the codes and words, codes in lower case without a
    colon and no line feed inside, is read back by [_parse_candidates] as
    these entries, in order, each with the name of its language. *)
Theorem parse_candidates_round_trip :
  forall rt entries,
    Forall (clean_entry rt) entries ->
    _parse_candidates rt (join newline (map entry_line entries))
    = map (entry_candidate rt) entries.
Proof.
  intros rt entries H. unfold _parse_candidates.
  destruct entries as [|entry entries]; [reflexivity|].
  remember (map entry_line (entry :: entries)) as lines eqn:Elines.
  assert (Hlines : Forall (fun line =>
                             line <> [] /\ head_ok line /\ head_ok (rev line)
                             /\ ~ In 10%N line) lines).
  { subst lines. apply Forall_map. eapply Forall_impl; [|exact H].
    intros e. apply entry_line_bounds. }
  assert (Hsome : lines <> []) by (subst lines; discriminate).
  assert (Hstrip : strip (join newline lines) = join newline lines).
  { apply strip_id.
    - inversion Hlines as [E0|line rest (Hne & Hh & _) _ E0];
        [exfalso; apply Hsome; symmetry; exact E0|].
      destruct (join_cons_head newline line rest) as (tail & Et).
      refine (eq_ind_r head_ok _ Et). apply head_ok_app; assumption.
    - destruct (exists_last Hsome) as (front & line & E).
      rewrite E in Hlines |- *. apply Forall_app in Hlines as [_ Hlast].
      inversion Hlast as [|? ? (Hne & _ & Hl & _) _]; subst.
      destruct (join_snoc_last newline front line) as (pre & Et).
      refine (eq_ind_r (fun x => head_ok (rev x)) _ Et).
      rewrite rev_app_distr. apply head_ok_app; [|exact Hl].
      intros E'. apply (f_equal (@rev char)) in E'.
      rewrite rev_involutive in E'. exact (Hne E'). }
  rewrite Hstrip. unfold newline.
  rewrite split_join;
    [| exact Hsome
     | eapply Forall_impl; [|exact Hlines]; cbv beta; tauto].
  subst lines. clear Hlines Hstrip Hsome.
  induction H as [|e rest He Hrest IH]; [reflexivity|].
  cbn [map flat_map]. rewrite (parse_entry_line rt e He), IH. reflexivity.
Qed.

Lemma parse_candidates_round_trip_witness :
  _parse_candidates sample_runtime (join newline (map entry_line sample_entries))
  = map (entry_candidate sample_runtime) sample_entries.
Proof.
  apply (parse_candidates_round_trip sample_runtime sample_entries).
  repeat constructor; try discriminate; try reflexivity;
    cbn; intuition discriminate.
Defined.

End RoundTrip.

(** ** What the cognate alignment answers with *)

Section Alignment.

Import CognateTasks AlignmentResults.

Variable rt : runtime.
Variable format : pyval -> pystr -> res pystr.

Let validated (group : pyval) : Prop :=
  exists g, group = PDict g /\ validated_group g.

Lemma validate_loop_validated groups acc total_words :
  Forall validated acc
  -> exists validated_groups,
       validate_loop groups acc total_words = Ok validated_groups
       /\ Forall validated validated_groups.
Proof.
  revert acc total_words.
  induction groups as [|group rest IH]; intros acc total_words Hacc;
    cbn [validate_loop]; [eauto|].
  destruct (CognateAligner._validate_group group) as [g|] eqn:E; [|auto].
  destruct (truthy (PDict g)); [|auto].
  pose proof (settled_group_validated g (validate_group_settles group g E))
    as Hg.
  destruct Hg as (Hsim & (items & Hitems & Hlen) & Hrest).
  cbn [getitem]. rewrite Hitems. cbn [bind py_len].
  apply IH. apply Forall_app. split; [exact Hacc|].
  constructor; [|constructor]. exists g. split; [reflexivity|].
  repeat split; eauto; apply Hrest.
Qed.

Lemma validation_error_result e result :
  exists d,
    validation_error rt e result = PDict d
    /\ dict_get (lit "groups") d = Some (PList [])
    /\ dict_has (lit "error") d = true.
Proof. eexists. repeat split. Qed.

Lemma setitem_ok v key x r :
  setitem v key x = Ok r -> exists d, v = PDict d /\ r = PDict (dict_set key x d).
Proof.
  destruct v; try discriminate. cbn [setitem]. intros H. injection H as <-.
  eauto.
Qed.

(** What [_validate_and_enrich_result] returns: a dict whose groups are
    validated, with statistics and a summary unless it reports an error. *)
Lemma validate_result_shape result original_candidates :
  exists d groups,
    _validate_and_enrich_result rt format result original_candidates = PDict d
    /\ dict_get (lit "groups") d = Some (PList groups)
    /\ Forall validated groups
    /\ (dict_has (lit "error") d = false
        -> dict_has (lit "statistics") d = true
           /\ dict_has (lit "summary") d = true).
Proof.
  assert (Herr : forall e r,
             exists d groups,
               validation_error rt e r = PDict d
               /\ dict_get (lit "groups") d = Some (PList groups)
               /\ Forall validated groups
               /\ (dict_has (lit "error") d = false
                   -> dict_has (lit "statistics") d = true
                      /\ dict_has (lit "summary") d = true)).
  { intros e r. eexists _, []. split; [reflexivity|].
    split; [reflexivity|]. split; [constructor | discriminate]. }
  unfold _validate_and_enrich_result.
  destruct (py_in (lit "groups") result) as [has_groups|e]; [|apply Herr].
  destruct (if has_groups then Ok result
            else setitem result (lit "groups") (PList [])) as [r1|e];
    [|apply Herr].
  destruct (bind (getitem r1 (lit "groups")) (fun groups => iterate groups))
    as [groups|e]; [|apply Herr].
  destruct (validate_loop_validated groups [] 0 (Forall_nil _))
    as (validated_groups & -> & Hv).
  pose proof (alignment_statistics_read_only rt original_candidates
                validated_groups) as Hro.
  destruct (CognateAligner._calculate_alignment_statistics rt
              original_candidates validated_groups) as [statistics s'].
  cbn [snd] in Hro. subst s'.
  destruct (setitem r1 (lit "groups") (PList validated_groups)) as [r2|e] eqn:E2;
    [|apply Herr].
  apply setitem_ok in E2 as (d1 & -> & ->).
  destruct statistics as [statistics|e]; [|apply Herr].
  cbn [setitem].
  destruct (_generate_alignment_summary rt format validated_groups statistics)
    as [summary|e]; [|apply Herr].
  eexists _, validated_groups. split; [reflexivity|].
  dict_simpl. repeat split. exact Hv.
Qed.

End Alignment.

(** X18: whatever the input and whatever the service replies,
    [align_cognates] sends at most one request, and none when the input
    holds no candidate; it answers with a dict whose groups are a list of
    validated groups, with statistics, a summary and metadata unless the
    dict carries an error. *)
Theorem align_cognates_result :
  forall rt format svc self candidates_input,
    AlignmentResults.groups_result
      (fst (CognateTasks.align_cognates rt format svc self candidates_input))
    /\ (length (snd (CognateTasks.align_cognates rt format svc self
                       candidates_input)) <= 1)%nat
    /\ (CognateTasks._parse_candidates rt candidates_input = []
        -> snd (CognateTasks.align_cognates rt format svc self
                  candidates_input) = []).
Proof.
  intros rt format svc self candidates_input.
  unfold CognateTasks.align_cognates.
  destruct (CognateTasks._parse_candidates rt candidates_input)
    as [|c candidates].
  { split; [|split; [cbn; lia | reflexivity]].
    eexists _, []. split; [reflexivity|]. split; [reflexivity|].
    split; [constructor | discriminate]. }
  pose proof (call_llm_calls rt svc (CognateTasks.llm self)
                (CognateTasks.system_prompt self)
                (CognateTasks._create_user_prompt (c :: candidates))
                (3 # 10) 3000) as Hcalls.
  destruct (call_llm _ _ _ _ _ _ _) as [response calls]. cbn [snd] in Hcalls.
  destruct (bind response (CognateTasks.after_call rt format (c :: candidates)))
    as [result|e] eqn:E; cbn [fst snd];
    (split; [|split; [exact Hcalls | discriminate]]).
  - apply bind_ok in E as (r & _ & E).
    unfold CognateTasks.after_call in E.
    apply bind_ok in E as (content & _ & E).
    apply bind_ok in E as (parsed & _ & E).
    apply bind_ok in E as (wrapped & _ & E).
    destruct (validate_result_shape rt format wrapped
                (map CognateTasks.candidate_dict (c :: candidates)))
      as (d & groups & Hd & Hg & Hv & Hs).
    rewrite Hd in E. cbn [CognateTasks.setitem] in E. injection E as <-.
    eexists _, groups. split; [reflexivity|].
    rewrite dict_get_set_other by reflexivity. split; [exact Hg|].
    split; [exact Hv|].
    rewrite dict_has_set_other by reflexivity. intros He.
    destruct (Hs He) as [H1 H2].
    rewrite !dict_has_set_other by reflexivity. rewrite dict_has_set_same.
    auto.
  - eexists _, []. split; [reflexivity|]. split; [reflexivity|].
    split; [constructor | discriminate].
Qed.

(** ** The other tasks never fail *)

Lemma pce_after_call_dict rt original_text ota_text dataset_name response result :
  PCEAnalyzer.after_call rt original_text ota_text dataset_name response
  = Ok result
  -> is_dict result = true.
Proof.
  unfold PCEAnalyzer.after_call. intros H.
  apply bind_ok in H as (content & _ & H).
  apply bind_ok in H as (parsed & _ & H).
  apply bind_ok in H as (enriched & _ & H).
  destruct enriched; try discriminate. injection H as <-. reflexivity.
Qed.

Lemma quality_control_dict input_text source_language response parsed result :
  Transliterator.quality_control input_text source_language response parsed
  = Ok result
  -> is_dict result = true.
Proof.
  unfold Transliterator.quality_control.
  destruct parsed as [| | | | | | | |d]; try discriminate.
  destruct (truthy (dict_get_or (lit "ok") PNone d)
            && truthy (dict_get_or (lit "output_text") PNone d));
    [|intros H; injection H as <-; reflexivity].
  intros H. apply bind_ok in H as ([is_valid invalid_chars] & _ & H).
  apply bind_ok in H as (noted & _ & H).
  apply bind_ok in H as (stats & _ & H).
  injection H as <-. reflexivity.
Qed.

(** X19: whatever the texts and whatever the service replies, [analyze_pce]
    and [transliterate] raise nothing: each answers with a dict, after at
    most one request. *)
Theorem tasks_answer_with_dict :
  forall rt svc pce engine original_text ota_text dataset_name input_text
         source_language,
    (is_dict (fst (PCEAnalyzer.analyze_pce rt svc pce original_text ota_text
                     dataset_name)) = true
     /\ (length (snd (PCEAnalyzer.analyze_pce rt svc pce original_text ota_text
                        dataset_name)) <= 1)%nat)
    /\ (is_dict (fst (Transliterator.transliterate rt svc engine input_text
                        source_language)) = true
        /\ (length (snd (Transliterator.transliterate rt svc engine input_text
                           source_language)) <= 1)%nat).
Proof.
  intros rt svc pce engine original_text ota_text dataset_name input_text
    source_language.
  split.
  - unfold PCEAnalyzer.analyze_pce.
    destruct (negb (truthy (PStr (strip original_text)))
              || negb (truthy (PStr (strip ota_text))));
      [split; [reflexivity | cbn; lia]|].
    pose proof (call_llm_calls rt svc (PCEAnalyzer.llm pce)
                  (PCEAnalyzer.system_prompt pce)
                  (PCEAnalyzer.user_prompt original_text ota_text dataset_name)
                  (1 # 10) 3000) as Hcalls.
    destruct (call_llm _ _ _ _ _ _ _) as [response calls]. cbn [snd] in Hcalls.
    destruct (bind response _) as [result|e] eqn:E; cbn [fst snd];
      (split; [|exact Hcalls]); [|reflexivity].
    apply bind_ok in E as (r & _ & E). eapply pce_after_call_dict, E.
  - unfold Transliterator.transliterate.
    destruct (negb (truthy (PStr (strip input_text))));
      [split; [reflexivity | cbn; lia]|].
    pose proof (call_llm_calls rt svc (Transliterator.llm engine)
                  (Transliterator.system_prompt engine)
                  (Transliterator.user_prompt input_text source_language)
                  (1 # 10) 2000) as Hcalls.
    destruct (call_llm _ _ _ _ _ _ _) as [response calls]. cbn [snd] in Hcalls.
    destruct (bind response _) as [result|e] eqn:E; cbn [fst snd];
      (split; [|exact Hcalls]); [|reflexivity].
    apply bind_ok in E as (r & _ & E).
    unfold Transliterator.after_call in E.
    apply bind_ok in E as (content & _ & E).
    apply bind_ok in E as (parsed & _ & E).
    eapply quality_control_dict, E.
Qed.

(** ** A reply with nothing in it *)

Section BlankResponse.

Import LLMInterface.

Lemma rmatch_first_char c b s k :
  ~ In c s -> Re.rmatch (Re.RSeq (Re.chr c) b) s k = None.
Proof.
  destruct s as [|d s]; cbn [Re.rmatch Re.chr Re.cset_mem]; [reflexivity|].
  intros H. destruct (N.eqb_spec d c) as [->|_]; [|reflexivity].
  exfalso. apply H. left. reflexivity.
Qed.

(** A pattern that starts with a character finds nothing in a text that
    does not hold it. *)
Lemma search_first_char c b s :
  ~ In c s -> Re.search (Re.RSeq (Re.chr c) b) s = None.
Proof.
  induction s as [|d s IH]; intros H; cbn [Re.search];
    rewrite (rmatch_first_char c b _ Some H); [reflexivity|].
  apply IH. intros Hin. apply H. right. exact Hin.
Qed.

Lemma spaces_hold_no c s :
  is_space c = false -> forallb is_space s = true -> ~ In c s.
Proof.
  intros Hc Hs Hin. rewrite forallb_forall in Hs.
  rewrite (Hs c Hin) in Hc. discriminate.
Qed.

(** X20: a reply that is empty or made of white space only is never
    parsed: [parse_json_response] raises the [ValueError] of line 186, whose
    message ends with the reply. *)
Theorem blank_response_is_rejected :
  forall rt response_content,
    forallb is_space response_content = true ->
    parse_json_response rt response_content
    = Raise (Raised CValueError
               (parse_error_message rt (Interp CJSONDecodeError [])
                  response_content)).
Proof.
  intros rt response_content H.
  assert (Hbody : parse_body response_content
                  = Raise (Interp CJSONDecodeError [])).
  { unfold parse_body. rewrite (strip_spaces response_content H).
    vm_compute. reflexivity. }
  unfold parse_json_response. rewrite Hbody. cbn [class_of].
  unfold on_decode_error, last_resort, array_pattern, obj_pattern,
    Re.seq, Re.lbrack, Re.lbrace.
  cbn [fold_right].
  rewrite !search_first_char
    by (apply spaces_hold_no; [reflexivity | exact H]).
  reflexivity.
Qed.

Lemma blank_response_is_rejected_witness :
  parse_json_response sample_runtime TaskSamples.blank
  = Raise (Raised CValueError
             (parse_error_message sample_runtime (Interp CJSONDecodeError [])
                TaskSamples.blank)).
Proof.
  apply (blank_response_is_rejected sample_runtime TaskSamples.blank).
  reflexivity.
Defined.

End BlankResponse.

(** ** The letters detected in a normalized text *)

Lemma existsb_perm {A} (f : A -> bool) l m :
  Permutation l m -> existsb f l = existsb f m.
Proof.
  induction 1; cbn [existsb]; try congruence.
  - destruct (f x), (f y); reflexivity.
Qed.

Section Detection.

Import PCEAnalyzer.

Variable rt : runtime.
Variable text : pystr.

Let step (new_letter_counts : pydict) (letter : pyval) : pydict :=
  match letter with
  | PStr letter =>
      let n := count (str_lower rt letter) (str_lower rt text) in
      if 0 <? n then dict_set letter (PInt n) new_letter_counts
      else new_letter_counts
  | _ => new_letter_counts
  end.

Lemma detect_get letters counts k :
  dict_get k (fold_left step letters counts)
  = if existsb (fun v => is_str v k) letters
       && (0 <? count (str_lower rt k) (str_lower rt text))
    then Some (PInt (count (str_lower rt k) (str_lower rt text)))
    else dict_get k counts.
Proof.
  revert counts. induction letters as [|letter rest IH]; intro counts;
    cbn [fold_left existsb]; [reflexivity|].
  rewrite IH.
  destruct (existsb (fun v => is_str v k) rest
            && (0 <? count (str_lower rt k) (str_lower rt text))) eqn:E.
  - apply andb_true_iff in E as [E1 E2]. rewrite E1, E2, orb_true_r.
    reflexivity.
  - assert (Hrest : (is_str letter k || existsb (fun v => is_str v k) rest)
                    && (0 <? count (str_lower rt k) (str_lower rt text))
                    = is_str letter k
                      && (0 <? count (str_lower rt k) (str_lower rt text))).
    { apply andb_false_iff in E as [-> | ->];
        [rewrite orb_false_r | rewrite !andb_false_r]; reflexivity. }
    rewrite Hrest. clear Hrest E IH.
    destruct letter as [| | | |l| | | |]; cbn [is_str step andb];
      try reflexivity.
    destruct (str_eqb l k) eqn:El; cbn [andb].
    + apply str_eqb_eq in El. subst l.
      destruct (0 <? count (str_lower rt k) (str_lower rt text));
        [apply dict_get_set_same | reflexivity].
    + destruct (0 <? count (str_lower rt l) (str_lower rt text));
        [|reflexivity].
      apply dict_get_set_other.
      destruct (str_eqb k l) eqn:E; [|reflexivity].
      apply str_eqb_eq in E. subst. rewrite str_eqb_refl in El. discriminate.
Qed.

(** X21: [_detect_new_letters] reports a letter exactly when it is one of
    its six tracked letters and occurs in the text once both are put in
    lower case, with the number of these occurrences: capitals are counted
    with their small letter, whatever the order in which the set of letters
    is gone through. *)
Theorem detect_new_letters_exact :
  forall letter,
    dict_get letter (_detect_new_letters rt text)
    = if existsb (fun v => is_str v letter) new_ota_letters
         && (0 <? count (str_lower rt letter) (str_lower rt text))
      then Some (PInt (count (str_lower rt letter) (str_lower rt text)))
      else None.
Proof.
  intros letter. unfold _detect_new_letters.
  change (fold_left _ (list_of_set rt new_ota_letters) [])
    with (fold_left step (list_of_set rt new_ota_letters) []).
  rewrite detect_get.
  rewrite <- (existsb_perm _ _ _ (list_of_set_perm rt new_ota_letters)).
  reflexivity.
Qed.

End Detection.

(** ** Batches *)

Section BatchRuns.

Import Batches.

Lemma run_batch_from {A} (task : A -> traced pyval) inputs results calls :
  fold_left
    (fun acc x =>
       let (result, calls) := task x in
       (fst acc ++ [result], snd acc ++ calls))
    inputs (results, calls)
  = (results ++ map (fun x => fst (task x)) inputs,
     calls ++ flat_map (fun x => snd (task x)) inputs).
Proof.
  revert results calls. induction inputs as [|x inputs IH];
    intros results calls; cbn [fold_left map flat_map].
  - rewrite !app_nil_r. reflexivity.
  - destruct (task x) as [result c]. cbn [fst snd]. rewrite IH.
    rewrite <- !app_assoc. reflexivity.
Qed.

(** A batch gives the result of each input, in order, and sends the
    requests of each. *)
Lemma run_batch_map {A} (task : A -> traced pyval) inputs :
  run_batch task inputs
  = (map (fun x => fst (task x)) inputs,
     flat_map (fun x => snd (task x)) inputs).
Proof. unfold run_batch. rewrite run_batch_from. reflexivity. Qed.

Lemma batch_calls_bound {A} (task : A -> traced pyval) (sends : A -> bool)
    inputs :
  (forall x, (length (snd (task x)) <= 1)%nat)
  -> (forall x, sends x = false -> snd (task x) = [])
  -> (length (flat_map (fun x => snd (task x)) inputs)
      <= length (filter sends inputs))%nat.
Proof.
  intros Hone Hnone. induction inputs as [|x inputs IH];
    cbn [flat_map filter]; [cbn; lia|].
  rewrite length_app. destruct (sends x) eqn:E.
  - cbn [length]. specialize (Hone x). lia.
  - rewrite (Hnone x E). cbn [length]. lia.
Qed.

Lemma transliterate_calls rt svc self text source_language :
  (length (snd (Transliterator.transliterate rt svc self text source_language))
   <= 1)%nat
  /\ (not_blank text = false
      -> snd (Transliterator.transliterate rt svc self text source_language)
         = []).
Proof.
  unfold Transliterator.transliterate, not_blank.
  destruct (truthy (PStr (strip text))); cbn [negb];
    [|split; [cbn; lia | reflexivity]].
  split; [|discriminate].
  pose proof (call_llm_calls rt svc (Transliterator.llm self)
                (Transliterator.system_prompt self)
                (Transliterator.user_prompt text source_language)
                (1 # 10) 2000) as Hcalls.
  destruct (call_llm _ _ _ _ _ _ _) as [response calls].
  destruct (bind response _); exact Hcalls.
Qed.

Lemma analyze_risks_calls rt svc self text :
  (length (snd (RiskAnalyzer.analyze_risks rt svc self text)) <= 1)%nat
  /\ (not_blank text = false
      -> snd (RiskAnalyzer.analyze_risks rt svc self text) = []).
Proof.
  unfold RiskAnalyzer.analyze_risks, not_blank.
  destruct (truthy (PStr (strip text))); cbn [negb];
    [|split; [cbn; lia | reflexivity]].
  split; [|discriminate].
  destruct (negb (truthy (PList (RiskAnalyzer._find_new_letters rt text))));
    [cbn; lia|].
  pose proof (call_llm_calls rt svc (RiskAnalyzer.llm self)
                (RiskAnalyzer.system_prompt self)
                (RiskAnalyzer.user_prompt rt text
                   (RiskAnalyzer._find_new_letters rt text))
                (1 # 5) 2000) as Hcalls.
  destruct (call_llm _ _ _ _ _ _ _) as [response calls].
  destruct (bind response _); exact Hcalls.
Qed.

Lemma align_cognates_calls rt format svc self text :
  (length (snd (CognateTasks.align_cognates rt format svc self text)) <= 1)%nat
  /\ (not_blank text = false
      -> snd (CognateTasks.align_cognates rt format svc self text) = []).
Proof.
  unfold CognateTasks.align_cognates, not_blank.
  destruct (CognateTasks._parse_candidates rt text) as [|c candidates] eqn:E;
    [split; [cbn; lia | reflexivity]|].
  pose proof (call_llm_calls rt svc (CognateTasks.llm self)
                (CognateTasks.system_prompt self)
                (CognateTasks._create_user_prompt (c :: candidates))
                (3 # 10) 3000) as Hcalls.
  destruct (call_llm _ _ _ _ _ _ _) as [response calls].
  assert (Hsnd : forall r : res pyval,
             snd (match r with
                  | Ok result => (result, calls)
                  | Raise e =>
                      (CognateTasks.error_result rt e (c :: candidates), calls)
                  end) = calls).
  { intros [|]; reflexivity. }
  rewrite Hsnd. split; [exact Hcalls|].
  intros Hblank. exfalso.
  unfold CognateTasks._parse_candidates in E.
  destruct (strip text); [discriminate E | discriminate Hblank].
Qed.

(** X22: a batch returns one result per input, in order, each the result
    of the task on that input alone, and sends at most one request per
    input that is not blank: so for [batch_transliterate], [batch_analyze]
    and [batch_align]. *)
Theorem batches_run_each_input :
  forall rt format svc engine risk aligner texts source_language,
    (fst (batch_transliterate rt svc engine texts source_language)
     = map (fun text =>
              fst (Transliterator.transliterate rt svc engine text
                     source_language)) texts
     /\ (length (snd (batch_transliterate rt svc engine texts source_language))
         <= length (filter not_blank texts))%nat)
    /\ (fst (batch_analyze rt svc risk texts)
        = map (fun text => fst (RiskAnalyzer.analyze_risks rt svc risk text))
            texts
        /\ (length (snd (batch_analyze rt svc risk texts))
            <= length (filter not_blank texts))%nat)
    /\ (fst (batch_align rt format svc aligner texts)
        = map (fun text =>
                 fst (CognateTasks.align_cognates rt format svc aligner text))
            texts
        /\ (length (snd (batch_align rt format svc aligner texts))
            <= length (filter not_blank texts))%nat).
Proof.
  intros rt format svc engine risk aligner texts source_language.
  unfold batch_transliterate, batch_analyze, batch_align.
  rewrite !run_batch_map. cbn [fst snd].
  repeat split.
  - apply batch_calls_bound; intros text;
      apply (transliterate_calls rt svc engine text source_language).
  - apply batch_calls_bound; intros text;
      apply (analyze_risks_calls rt svc risk text).
  - apply batch_calls_bound; intros text;
      apply (align_cognates_calls rt format svc aligner text).
Qed.

End BatchRuns.

(** ** An output inside the alphabet *)

Lemma validate_clean text :
  forallb allowed text = true -> validate_ota_characters text = (true, []).
Proof.
  intros H. unfold validate_ota_characters.
  rewrite collect_invalid_first_occurrences.
  apply filter_invalid_nil in H. rewrite H. reflexivity.
Qed.

(** X23: when the parsed reply says ok and its output_text is a non-empty
    string made of allowed characters only, the quality control of
    [transliterate] adds statistics (the lengths of the input and of the
    output, the source language, the letters counted in the output) and the
    metadata, and returns every other entry, the notes included, as the
    service gave it, whatever its type. *)
Theorem clean_output_is_kept :
  forall input_text source_language response d output_text,
    truthy (dict_get_or (lit "ok") PNone d) = true ->
    dict_get (lit "output_text") d = Some (PStr output_text) ->
    output_text <> [] ->
    forallb allowed output_text = true ->
    exists d' counts,
      Transliterator.quality_control input_text source_language response
        (PDict d) = Ok (PDict d')
      /\ (forall key,
            str_eqb key (lit "statistics") = false ->
            str_eqb key (lit "llm_metadata") = false ->
            dict_get key d' = dict_get key d)
      /\ dict_get (lit "statistics") d'
         = Some (PDict
                   [(lit "input_length", PInt (Z.of_nat (length input_text)));
                    (lit "output_length", PInt (Z.of_nat (length output_text)));
                    (lit "source_language", PStr source_language);
                    (lit "new_letters_used", PDict counts)])
      /\ Transliterator._count_new_letters (PStr output_text) = Ok counts
      /\ dict_get (lit "llm_metadata") d' = Some (llm_metadata response).
Proof.
  intros input_text source_language response d output_text Hok Hout Hne Hall.
  destruct (count_letters_get output_text Transliterator.new_letters [] [])
    as (counts & Hcounts & _).
  unfold Transliterator.quality_control.
  rewrite Hok, (dict_get_or_some _ PNone _ _ Hout).
  assert (Ht : truthy (PStr output_text) = true)
    by (destruct output_text; [congruence | reflexivity]).
  rewrite Ht. cbn [andb Transliterator.validate_output].
  rewrite (validate_clean output_text Hall). cbn [bind].
  unfold Transliterator.statistics, Transliterator._count_new_letters.
  rewrite Hcounts. cbn [py_len bind].
  eexists _, counts. split; [reflexivity|].
  split; [|split; [|split; [reflexivity|]]].
  - intros key H1 H2. rewrite !dict_get_set_other by assumption. reflexivity.
  - dict_simpl. reflexivity.
  - dict_simpl. reflexivity.
Qed.

Lemma clean_output_is_kept_witness :
  exists d' counts,
    Transliterator.quality_control (lit "Kazak") (lit "kk")
      (reply_dict (TaskSamples.reply_with TaskSamples.clean_output_string_notes))
      (PDict [(lit "ok", PBool true); (lit "output_text", PStr (lit "abc"));
              (lit "notes", PStr (lit "n"))])
    = Ok (PDict d')
    /\ (forall key,
          str_eqb key (lit "statistics") = false ->
          str_eqb key (lit "llm_metadata") = false ->
          dict_get key d'
          = dict_get key
              [(lit "ok", PBool true); (lit "output_text", PStr (lit "abc"));
               (lit "notes", PStr (lit "n"))])
    /\ dict_get (lit "statistics") d'
       = Some (PDict
                 [(lit "input_length", PInt 5);
                  (lit "output_length", PInt 3);
                  (lit "source_language", PStr (lit "kk"));
                  (lit "new_letters_used", PDict counts)])
    /\ Transliterator._count_new_letters (PStr (lit "abc")) = Ok counts
    /\ dict_get (lit "llm_metadata") d'
       = Some (llm_metadata
                 (reply_dict
                    (TaskSamples.reply_with
                       TaskSamples.clean_output_string_notes))).
Proof.
  apply (clean_output_is_kept (lit "Kazak") (lit "kk")
           (reply_dict
              (TaskSamples.reply_with TaskSamples.clean_output_string_notes))
           [(lit "ok", PBool true); (lit "output_text", PStr (lit "abc"));
            (lit "notes", PStr (lit "n"))]
           (lit "abc")).
  - reflexivity.
  - reflexivity.
  - discriminate.
  - vm_compute. reflexivity.
Defined.

(** ** A fenced reply *)

Section Fences.

Import LLMInterface.

Lemma lstrip_before p m :
  head_ok m -> m <> []
  -> exists p', lstrip (p ++ m) = p' ++ m /\ (forall c, In c p' -> In c p).
Proof.
  intros Hh Hm. induction p as [|c p (p' & E & Hsub)]; cbn [app lstrip].
  - exists []. split; [apply lstrip_id, Hh | tauto].
  - destruct (is_space c).
    + exists p'. split; [exact E | intros d Hd; right; apply Hsub, Hd].
    + exists (c :: p). split; [reflexivity | tauto].
Qed.

(** Trimming a text leaves a middle part that has no white space at its
    ends where it is, and takes the rest from what surrounds it. *)
Lemma strip_around pre m post :
  head_ok m -> head_ok (rev m) -> m <> []
  -> exists pre' post',
       strip (pre ++ m ++ post) = pre' ++ m ++ post'
       /\ (forall c, In c pre' -> In c pre)
       /\ (forall c, In c post' -> In c post).
Proof.
  intros Hh Hl Hm. unfold strip, rstrip.
  destruct (lstrip_before pre (m ++ post)) as (pre' & E & Hpre).
  { destruct m; [congruence | exact Hh]. }
  { destruct m; [congruence | discriminate]. }
  rewrite E.
  assert (Hrev : rev (pre' ++ m ++ post) = rev post ++ rev m ++ rev pre').
  { rewrite !rev_app_distr, <- app_assoc. reflexivity. }
  rewrite Hrev.
  destruct (lstrip_before (rev post) (rev m ++ rev pre')) as (q & E' & Hq).
  { destruct (rev m) eqn:Em; [|exact Hl].
    exfalso. apply Hm. apply (f_equal (@rev char)) in Em.
    rewrite rev_involutive in Em. exact Em. }
  { destruct (rev m) eqn:Em; [|discriminate].
    exfalso. apply Hm. apply (f_equal (@rev char)) in Em.
    rewrite rev_involutive in Em. exact Em. }
  rewrite E'. exists pre', (rev q).
  split; [|split; [exact Hpre|]].
  - rewrite !rev_app_distr, !rev_involutive, <- app_assoc. reflexivity.
  - intros c Hc. apply in_rev in Hc. apply Hq in Hc. apply in_rev, Hc.
Qed.

Lemma startswith_self sep t : startswith sep (sep ++ t) = true.
Proof.
  induction sep as [|c sep IH]; cbn [startswith app]; [reflexivity|].
  rewrite N.eqb_refl. exact IH.
Qed.

Lemma startswith_other c0 sep c s :
  c <> c0 -> startswith (c0 :: sep) (c :: s) = false.
Proof.
  intros H. cbn [startswith]. destruct (N.eqb_spec c0 c); [congruence|].
  reflexivity.
Qed.

Lemma contains_after sep p t : contains sep (p ++ sep ++ t) = true.
Proof.
  induction p as [|c p IH]; cbn [app].
  - destruct sep; cbn [contains app]; [destruct t; reflexivity|].
    change (startswith (c :: sep) (c :: sep ++ t))
      with (startswith (c :: sep) ((c :: sep) ++ t)).
    rewrite startswith_self. reflexivity.
  - cbn [contains]. rewrite IH. apply orb_true_r.
Qed.

Lemma contains_without c0 sep s :
  ~ In c0 s -> contains (c0 :: sep) s = false.
Proof.
  induction s as [|c s IH]; intros H; [reflexivity|].
  cbn [contains]. rewrite IH by (intros Hin; apply H; right; exact Hin).
  rewrite startswith_other by (intros ->; apply H; left; reflexivity).
  reflexivity.
Qed.

Lemma split_from_skip sep cur a t :
  split_from sep (length a) cur (a ++ t) = split_from sep 0 cur t.
Proof.
  induction a as [|c a IH]; [reflexivity|]. cbn [length app split_from].
  exact IH.
Qed.

Lemma split_from_without c0 sep cur a t :
  ~ In c0 a
  -> split_from (c0 :: sep) 0 cur (a ++ t)
     = split_from (c0 :: sep) 0 (rev a ++ cur) t.
Proof.
  revert cur. induction a as [|c a IH]; intros cur H; [reflexivity|].
  cbn [app split_from].
  rewrite startswith_other by (intros ->; apply H; left; reflexivity).
  rewrite IH by (intros Hin; apply H; right; exact Hin).
  cbn [rev]. rewrite <- app_assoc. reflexivity.
Qed.

Lemma split_from_sep c0 sep cur t :
  split_from (c0 :: sep) 0 cur ((c0 :: sep) ++ t)
  = rev cur :: split_from (c0 :: sep) 0 [] t.
Proof.
  cbn [app split_from].
  change (startswith (c0 :: sep) (c0 :: sep ++ t))
    with (startswith (c0 :: sep) ((c0 :: sep) ++ t)).
  rewrite startswith_self. cbn [length Nat.sub]. rewrite Nat.sub_0_r.
  rewrite split_from_skip. reflexivity.
Qed.

Lemma split_from_first sep k cur s :
  exists u l, split_from sep k cur s = (rev cur ++ u) :: l.
Proof.
  revert k cur. induction s as [|c s IH]; intros k cur; cbn [split_from].
  - exists [], []. rewrite app_nil_r. reflexivity.
  - destruct k as [|k]; [|apply IH].
    destruct (startswith sep (c :: s)).
    + exists []. eexists. rewrite app_nil_r. reflexivity.
    + destruct (IH 0%nat (c :: cur)) as (u & l & ->).
      exists (c :: u), l. cbn [rev]. rewrite <- app_assoc. reflexivity.
Qed.

Lemma split_from_whole c0 sep cur s :
  ~ In c0 s -> split_from (c0 :: sep) 0 cur s = [rev cur ++ s].
Proof.
  intros H. rewrite <- (app_nil_r s) at 1.
  rewrite split_from_without by exact H. cbn [split_from].
  rewrite rev_app_distr, rev_involutive. reflexivity.
Qed.

Lemma startswith_fence_json_tail k (post : pystr) :
  ~ In 96%N post
  -> startswith fence_json (repeat 96%N (S k) ++ post) = true
  -> k = 2%nat.
Proof.
  intros H. change fence_json with [96; 96; 96; 106; 115; 111; 110]%N.
  destruct k as [|[|[|k]]]; cbn [repeat app startswith]; rewrite ?N.eqb_refl;
    cbn [andb]; try reflexivity.
  - destruct post as [|c post]; [discriminate|].
    destruct (N.eqb_spec 96 c) as [<-|_]; [|discriminate].
    exfalso. apply H. left. reflexivity.
  - destruct post as [|c post]; [discriminate|].
    destruct (N.eqb_spec 96 c) as [<-|_]; [|discriminate].
    exfalso. apply H. left. reflexivity.
  - discriminate.
Qed.

(** What follows the opening fence up to the next one starts with the
    inside of the block, and goes on, if it does, with the closing fence. *)
Lemma inner_of_block (a post : pystr) :
  ~ In 96%N a -> ~ In 96%N post
  -> exists u l,
       split_from fence_json 0 [] (a ++ fence ++ post) = (a ++ u) :: l
       /\ (u = [] \/ exists u', u = fence ++ u').
Proof.
  intros Ha Hpost.
  change fence_json with (96%N :: [96; 96; 106; 115; 111; 110]%N).
  rewrite split_from_without by exact Ha. rewrite app_nil_r.
  change (96%N :: [96; 96; 106; 115; 111; 110]%N) with fence_json.
  change fence with (repeat 96%N 3).
  cbn [repeat app split_from].
  repeat match goal with
    | |- context [startswith fence_json ?s] =>
        let E := fresh "E" in
        destruct (startswith fence_json s) eqn:E
    end.
  - rewrite rev_involutive. exists []. eexists. rewrite app_nil_r. eauto.
  - rewrite rev_involutive. exists []. eexists. rewrite app_nil_r. eauto.
  - rewrite rev_involutive. exists []. eexists. rewrite app_nil_r. eauto.
  - rewrite rev_involutive. exists []. eexists. rewrite app_nil_r. eauto.
  - apply (startswith_fence_json_tail 1 post Hpost) in E0. discriminate.
  - apply (startswith_fence_json_tail 1 post Hpost) in E0. discriminate.
  - apply (startswith_fence_json_tail 0 post Hpost) in E1. discriminate.
  - match goal with
    | |- context [split_from fence_json 0 ?c post] =>
        destruct (split_from_first fence_json 0 c post) as (u & l & ->)
    end.
    exists (repeat 96%N 3 ++ u), l. split; [|right; exists u; reflexivity].
    cbn [rev repeat]. rewrite rev_involutive, <- !app_assoc. reflexivity.
Qed.

(** Lines 105-106 on a reply with a fenced block: what is kept is the
    inside of the block. *)
Lemma strip_markers_block (pre a post : pystr) :
  ~ In 96%N pre -> ~ In 96%N a -> ~ In 96%N post
  -> strip_markers (pre ++ (fence_json ++ a ++ fence) ++ post) = Ok a.
Proof.
  intros Hpre Ha Hpost. unfold strip_markers.
  rewrite <- !app_assoc. rewrite contains_after. unfold split.
  change fence_json with (96%N :: [96; 96; 106; 115; 111; 110]%N) at 1 2.
  rewrite split_from_without by exact Hpre.
  rewrite split_from_sep.
  change (96%N :: [96; 96; 106; 115; 111; 110]%N) with fence_json.
  destruct (inner_of_block a post Ha Hpost) as (u & l & -> & Hu).
  cbn [index nth_error bind].
  change fence with (96%N :: [96; 96]%N).
  rewrite split_from_without by exact Ha. rewrite app_nil_r.
  destruct Hu as [-> | (u' & ->)].
  - cbn [split_from index nth_error]. rewrite rev_involutive. reflexivity.
  - change fence with (96%N :: [96; 96]%N). rewrite split_from_sep.
    cbn [index nth_error]. rewrite rev_involutive. reflexivity.
Qed.

Lemma split_block (doc : pystr) :
  ~ In 10%N doc
  -> split newline (newline ++ doc ++ newline) = [[]; doc; []].
Proof.
  intros H. unfold split, newline. cbn [app split_from].
  rewrite startswith_char_cons, N.eqb_refl. cbn [length Nat.sub rev].
  pose proof (split_line_sep_from 10%N [] doc [] H) as E.
  cbn [app rev split_from] in E. f_equal. exact E.
Qed.

Lemma strip_line_feed doc :
  head_ok doc -> head_ok (rev doc) -> doc <> []
  -> strip (doc ++ newline ++ []) = doc.
Proof.
  intros Hh Hl Hne. unfold strip, rstrip.
  rewrite (lstrip_id (doc ++ newline ++ []))
    by (destruct doc; [congruence | exact Hh]).
  rewrite !rev_app_distr. cbn [rev app newline lstrip].
  change (is_space 10%N) with true. cbv iota.
  rewrite (lstrip_id _ Hl). apply rev_involutive.
Qed.

(** The body of the [try] on a reply with a fenced block that holds one
    line, an object. *)
Lemma parse_body_block (pre doc post : pystr) :
  ~ In 96%N pre -> ~ In 96%N doc -> ~ In 96%N post -> ~ In 10%N doc
  -> startswith lbrace doc = true -> endswith rbrace doc = true
  -> parse_body (pre ++ (fence_json ++ (newline ++ doc ++ newline) ++ fence)
                 ++ post)
     = json_loads doc.
Proof.
  intros Hpre Hdoc Hpost Hline Hstart Hend.
  pose proof (startswith_lbrace_head_ok doc Hstart) as Hh.
  pose proof (endswith_rbrace_last_ok doc Hend) as Hl.
  assert (Hne : doc <> []) by (intros ->; discriminate Hstart).
  unfold parse_body.
  destruct (strip_around pre
              (fence_json ++ (newline ++ doc ++ newline) ++ fence) post)
    as (pre' & post' & -> & Hp1 & Hp2).
  { reflexivity. }
  { rewrite !rev_app_distr. reflexivity. }
  { discriminate. }
  rewrite strip_markers_block.
  2: { intros H. apply Hpre, Hp1, H. }
  2: { rewrite !in_app_iff. cbn [newline In].
       intros [[H | []] | [H | [H | []]]];
         [discriminate H | exact (Hdoc H) | discriminate H]. }
  2: { intros H. apply Hpost, Hp2, H. }
  cbn [bind]. rewrite (split_block doc Hline). cbn [scan_lines].
  change (strip []) with (@nil char).
  change (startswith lbrace []) with false. cbn [orb].
  rewrite (strip_id doc Hh Hl), Hstart.
  change (closes []) with false. cbv iota.
  match goal with
  | |- context [strip (strip ?x)] =>
      assert (Hclean : strip (strip x) = doc)
  end.
  { destruct (closes doc); cbn [join].
    - rewrite !(strip_id doc Hh Hl). reflexivity.
    - rewrite (strip_line_feed doc Hh Hl Hne). apply (strip_id doc Hh Hl). }
  rewrite Hclean.
  rewrite (startswith_lbrace_not_lbrack doc Hstart), Hstart, Hend.
  reflexivity.
Qed.

(** X24: a reply that holds a block fenced with three backquotes and the
    word json, whose inside is one line, a JSON object, is parsed as that
    object, whatever text without backquotes stands before the block or
    after it. *)
Theorem fenced_object_is_parsed :
  forall rt (pre doc post : pystr) v,
    ~ In 96%N pre -> ~ In 96%N doc -> ~ In 96%N post -> ~ In 10%N doc ->
    startswith lbrace doc = true -> endswith rbrace doc = true ->
    Json.loads doc = Some v ->
    parse_json_response rt
      (pre ++ (fence_json ++ (newline ++ doc ++ newline) ++ fence) ++ post)
    = Ok v.
Proof.
  intros rt pre doc post v Hpre Hdoc Hpost Hline Hstart Hend Hv.
  unfold parse_json_response.
  rewrite (parse_body_block pre doc post) by assumption.
  rewrite (json_loads_some _ _ Hv). reflexivity.
Qed.

Lemma fenced_object_is_parsed_witness :
  parse_json_response sample_runtime
    ((lit "Here is the result:" ++ newline)
     ++ (fence_json ++ (newline ++ Samples.fenced_object_line ++ newline)
         ++ fence)
     ++ lit " Done.")
  = Ok (PDict [(lit "ok", PBool true);
               (lit "output_text", PStr Samples.harkas);
               (lit "notes",
                 PList [PStr (lit "a" ++ [231; 305]%N ++ lit "klama")])]).
Proof.
  apply (fenced_object_is_parsed sample_runtime
           (lit "Here is the result:" ++ newline)
           Samples.fenced_object_line (lit " Done.")).
  - vm_compute. intuition discriminate.
  - vm_compute. intuition discriminate.
  - vm_compute. intuition discriminate.
  - vm_compute. intuition discriminate.
  - vm_compute. reflexivity.
  - vm_compute. reflexivity.
  - vm_compute. reflexivity.
Defined.

End Fences.

(** ** Where the extractor finds a document *)

Section Spans.

Import LLMInterface.

Variable b : char.





End Spans.

Section Located.

Import LLMInterface.









End Located.

(** ** How many letters an output can use *)

Section LetterUsage.

Import Transliterator Usage.

Lemma counts_total_set k n d :
  dict_get k d = None
  -> counts_total (dict_set k (PInt n) d) = counts_total d + n.
Proof.
  unfold counts_total.
  induction d as [|[k' v] d IH]; cbn [dict_get dict_set fold_right snd];
    [intros _; lia|].
  destruct (str_eqb k k'); [discriminate|]. intros H.
  cbn [fold_right snd]. rewrite (IH H). destruct v; lia.
Qed.

Lemma positive_counts_set k n d :
  dict_get k d = None -> 1 <= n -> positive_counts d
  -> positive_counts (dict_set k (PInt n) d).
Proof.
  unfold positive_counts.
  induction d as [|[k' v] d IH]; cbn [dict_get dict_set]; intros H Hn Hd.
  - constructor; [exists n; split; [reflexivity | exact Hn] | constructor].
  - destruct (str_eqb k k'); [discriminate|].
    inversion Hd; subst. constructor; auto.
Qed.

Lemma dict_set_length k v d :
  dict_get k d = None -> length (dict_set k v d) = S (length d).
Proof.
  induction d as [|[k' v'] d IH]; cbn [dict_get dict_set length]; [reflexivity|].
  destruct (str_eqb k k'); [discriminate|]. intros H.
  cbn [length]. rewrite (IH H). reflexivity.
Qed.

(** The loop of lines 335-339 over letters that differ from each other and
    from the keys already counted. *)
Lemma count_letters_total s letters counts :
  NoDup letters
  -> (forall l, In l letters -> dict_get l counts = None)
  -> positive_counts counts
  -> exists r,
       count_letters (PStr s) letters counts = Ok r
       /\ counts_total r
          = counts_total counts
            + fold_right Z.add 0 (map (fun l => count l s) letters)
       /\ positive_counts r
       /\ (length r <= length counts + length letters)%nat.
Proof.
  revert counts. induction letters as [|letter rest IH];
    intros counts Hnd Hfresh Hpos;
    cbn [count_letters text_count bind map fold_right length].
  - exists counts. split; [reflexivity|]. repeat split; [lia | exact Hpos | lia].
  - inversion Hnd as [|? ? Hnot Hnd']; subst.
    assert (Hletter : dict_get letter counts = None)
      by (apply Hfresh; left; reflexivity).
    pose proof (count_nonneg letter s) as Hn.
    destruct (0 <? count letter s) eqn:E.
    + apply Z.ltb_lt in E.
      destruct (IH (dict_set letter (PInt (count letter s)) counts))
        as (r & Hr & Ht & Hp & Hl).
      * exact Hnd'.
      * intros l Hl. rewrite dict_get_set_other.
        -- apply Hfresh. right. exact Hl.
        -- destruct (str_eqb l letter) eqn:El; [|reflexivity].
           apply str_eqb_eq in El. subst. contradiction.
      * apply positive_counts_set; [exact Hletter | lia | exact Hpos].
      * exists r. split; [exact Hr|].
        rewrite Ht, (counts_total_set _ _ _ Hletter).
        rewrite (dict_set_length _ _ _ Hletter) in Hl.
        repeat split; [lia | exact Hp | lia].
    + apply Z.ltb_ge in E.
      destruct (IH counts) as (r & Hr & Ht & Hp & Hl).
      * exact Hnd'.
      * intros l Hl. apply Hfresh. right. exact Hl.
      * exact Hpos.
      * exists r. split; [exact Hr|]. rewrite Ht.
        repeat split; [lia | exact Hp | lia].
Qed.

Lemma count_char c d s :
  count [c] (d :: s) = (if (c =? d)%N then 1 else 0) + count [c] s.
Proof.
  unfold count. cbn [count_from startswith length Nat.sub].
  rewrite andb_true_r. destruct (c =? d)%N; lia.
Qed.

Lemma one_char_matches d cs :
  NoDup cs
  -> fold_right Z.add 0 (map (fun c => if (c =? d)%N then 1 else 0) cs) <= 1.
Proof.
  induction 1 as [|c cs Hnot Hnd IH]; cbn [map fold_right]; [lia|].
  destruct (N.eqb_spec c d) as [->|_]; [|lia].
  assert (fold_right Z.add 0 (map (fun c => if (c =? d)%N then 1 else 0) cs) = 0);
    [|lia].
  clear IH Hnd. induction cs as [|c cs IH]; [reflexivity|].
  cbn [map fold_right].
  destruct (N.eqb_spec c d) as [->|_];
    [exfalso; apply Hnot; left; reflexivity|].
  rewrite IH; [reflexivity|]. intros H. apply Hnot. right. exact H.
Qed.

(** Letters that differ cannot occur more often, taken together, than the
    text has characters. *)
Lemma occurrences_bound cs s :
  NoDup cs
  -> fold_right Z.add 0 (map (fun c => count [c] s) cs)
     <= Z.of_nat (length s).
Proof.
  intros Hnd. induction s as [|d s IH].
  - assert (H : fold_right Z.add 0 (map (fun c => count [c] []) cs) = 0);
      [|rewrite H; cbn [length]; lia].
    clear. induction cs as [|c cs IH]; [reflexivity|].
    cbn [map fold_right]. rewrite IH. reflexivity.
  - assert (E : fold_right Z.add 0 (map (fun c => count [c] (d :: s)) cs)
                = fold_right Z.add 0
                    (map (fun c => if (c =? d)%N then 1 else 0) cs)
                  + fold_right Z.add 0 (map (fun c => count [c] s) cs)).
    { clear. induction cs as [|c cs IH]; [reflexivity|].
      cbn [map fold_right]. rewrite IH, count_char. lia. }
    rewrite E. pose proof (one_char_matches d cs Hnd).
    cbn [length]. lia.
Qed.

(** X25: the letters that [_count_new_letters] reports for a string are at
    most twelve, each with a count of at least 1, and their counts add up to
    no more than the length of the text. *)
Theorem new_letters_used_bound :
  forall text,
    exists counts,
      _count_new_letters (PStr text) = Ok counts
      /\ positive_counts counts
      /\ (length counts <= 12)%nat
      /\ 0 <= counts_total counts <= Z.of_nat (length text).
Proof.
  intros text. unfold _count_new_letters.
  destruct (count_letters_total text new_letters [])
    as (r & Hr & Ht & Hp & Hl).
  - unfold new_letters. cbn [map].
    repeat constructor; cbn [In]; intuition discriminate.
  - reflexivity.
  - constructor.
  - exists r. split; [exact Hr|]. split; [exact Hp|]. split; [exact Hl|].
    rewrite Ht. unfold new_letters. rewrite map_map.
    pose proof (occurrences_bound
                  [120; 88; 228; 196; 113; 81; 241; 209; 251; 219; 242; 210]%N
                  text) as Hb.
    assert (Hnd : NoDup [120; 88; 228; 196; 113; 81; 241; 209; 251; 219;
                         242; 210]%N)
      by (repeat constructor; cbn; intuition discriminate).
    specialize (Hb Hnd).
    assert (H0 : 0 <= fold_right Z.add 0
                        (map (fun c : N => count [c] text)
                           [120; 88; 228; 196; 113; 81; 241; 209; 251; 219;
                            242; 210]%N)).
    { clear. 
      generalize [120; 88; 228; 196; 113; 81; 241; 209; 251; 219; 242; 210]%N.
      intros l. induction l as [|c l IH]; cbn [map fold_right]; [lia|].
      pose proof (count_nonneg [c] text). lia. }
    change (counts_total []) with 0. rewrite Z.add_0_l.
    split; [exact H0 | exact Hb].
Qed.

End LetterUsage.

(** ** The category and the rating of an improvement *)

Section Ratings.

Import PCEAnalyzer Labels.

Lemma threshold_mono a b x :
  a <= b -> number_ltb (NInt b) x = true -> number_ltb (NInt a) x = true.
Proof.
  intros Hab. destruct x as [y|g]; cbn [number_ltb].
  - rewrite !Z.ltb_lt. lia.
  - unfold float_of_int_exact. destruct g as [|s|q]; cbn [float_ltb];
      try (destruct s); try discriminate; try reflexivity.
    destruct (Qcompare (inject_Z b) q) eqn:E; try discriminate. intros _.
    apply Qlt_alt in E.
    assert (H : (inject_Z a < q)%Q).
    { eapply Qle_lt_trans; [|exact E]. rewrite <- Zle_Qle. exact Hab. }
    replace (inject_Z a ?= q)%Q with Lt
      by (symmetry; apply Qlt_alt; exact H).
    reflexivity.
Qed.

(** X26: for a number, the category and the rating that
    [_enrich_pce_result] gives to an improvement agree: the category is the
    high one exactly above 15, where the rating is one of the two best; in
    the middle category the rating is good or fair; in the low category it
    is fair or poor. *)
Theorem category_and_rating_agree :
  forall weighted_imp x,
    as_number weighted_imp = Some x ->
    exists category rating,
      improvement_category weighted_imp = Ok category
      /\ _rate_effectiveness weighted_imp = Ok rating
      /\ (category = high_improvement <-> number_ltb (NInt 15) x = true)
      /\ (category = high_improvement
          <-> rating = excellent \/ rating = very_good)
      /\ (category = medium_improvement -> rating = good \/ rating = fair)
      /\ (category = low_improvement -> rating = fair \/ rating = poor).
Proof.
  intros weighted_imp x Hx.
  unfold improvement_category, _rate_effectiveness.
  rewrite !(py_gt_number weighted_imp (PInt _) x _ Hx eq_refl). cbn [bind].
  pose proof (threshold_mono 15 18 x ltac:(lia)) as H18.
  pose proof (threshold_mono 10 15 x ltac:(lia)) as H15.
  pose proof (threshold_mono 10 12 x ltac:(lia)) as H12.
  pose proof (threshold_mono 8 10 x ltac:(lia)) as H10.
  destruct (number_ltb (NInt 18) x) eqn:E18;
    destruct (number_ltb (NInt 15) x) eqn:E15;
    destruct (number_ltb (NInt 12) x) eqn:E12;
    destruct (number_ltb (NInt 10) x) eqn:E10;
    destruct (number_ltb (NInt 8) x) eqn:E8;
    try (specialize (H18 eq_refl); discriminate);
    try (specialize (H15 eq_refl); discriminate);
    try (specialize (H12 eq_refl); discriminate);
    try (specialize (H10 eq_refl); discriminate);
    cbn [bind]; eexists _, _; (split; [reflexivity|]);
    (split; [reflexivity|]);
    repeat split; intros; auto;
    try discriminate;
    try match goal with
      | H : _ \/ _ |- _ => destruct H; discriminate
      end.
Qed.

Lemma category_and_rating_agree_witness :
  exists category rating,
    improvement_category (PFloat (FFin (37 # 2))) = Ok category
    /\ _rate_effectiveness (PFloat (FFin (37 # 2))) = Ok rating
    /\ (category = high_improvement
        <-> number_ltb (NInt 15) (NFloat (FFin (37 # 2))) = true)
    /\ (category = high_improvement
        <-> rating = excellent \/ rating = very_good)
    /\ (category = medium_improvement -> rating = good \/ rating = fair)
    /\ (category = low_improvement -> rating = fair \/ rating = poor).
Proof.
  apply (category_and_rating_agree (PFloat (FFin (37 # 2)))
           (NFloat (FFin (37 # 2)))).
  reflexivity.
Defined.

End Ratings.
